(** * The two-stage analysis pipeline of strength-design

    A shallow embedding of the orchestration code of
    [agents/schswrestling-main/optimized_app.py] (retrying call wrapper,
    upload/poll controller, single-slot result cache, the handler of the
    Analyze button, the audio script and the voice audio) and of
    [gradiocoach.py] (stage 2 JSON extraction, fence stripping, report
    assembly, the upload of the prepared files, Drive links, the names of
    cached files), followed by the properties established about them.

    Python [str] values are modelled as [string]; a character is read as a
    code point below 256.  Wall-clock readings and sleep durations are exact
    rationals ([Q]); the rounding of binary64 arithmetic is not modelled.
    Calls that only draw on the page (progress bars, status text, markdown)
    and plain logger calls of [optimized_app.py] are left out; every write to
    the session state, every remote call, every sleep and every clock reading
    is kept. *)

From Stdlib Require Import Bool Arith List ZArith QArith Lia.
From Stdlib Require Import Strings.Ascii Strings.String.
Import ListNotations.

Set Warnings "-register-all".

Local Close Scope Q_scope.
Local Open Scope string_scope.

(* ================================================================== *)
(** ** Python string primitives *)

Module Py.

(** The line feed character and the one-character string made of it. *)
Definition LF : ascii := ascii_of_nat 10.
Definition nl : string := String LF "".

(** [str.isspace] on one code point; the same set is matched by [\s] in a
    [str] pattern. *)
Definition isspace (c : ascii) : bool :=
  match N_of_ascii c with
  | 9 | 10 | 11 | 12 | 13 | 28 | 29 | 30 | 31 | 32 | 133 | 160 => true
  | _ => false
  end%N.

Fixpoint all_space (s : string) : bool :=
  match s with
  | "" => true
  | String c s' => isspace c && all_space s'
  end.

(** Length of the longest whitespace prefix. *)
Fixpoint span_ws (s : string) : nat :=
  match s with
  | "" => 0
  | String c s' => if isspace c then S (span_ws s') else 0
  end.

(** [s[n:]] *)
Fixpoint drop (n : nat) (s : string) : string :=
  match n, s with
  | O, _ => s
  | S _, "" => ""
  | S k, String _ s' => drop k s'
  end.

(** [str.lstrip()], [str.rstrip()], [str.strip()] *)
Fixpoint lstrip (s : string) : string :=
  match s with
  | "" => ""
  | String c s' => if isspace c then lstrip s' else s
  end.

Fixpoint rstrip (s : string) : string :=
  match s with
  | "" => ""
  | String c s' =>
      match rstrip s' with
      | "" => if isspace c then "" else String c ""
      | r => String c r
      end
  end.

Definition strip (s : string) : string := lstrip (rstrip s).

(** [str.lower()] and [str.upper()] on one code point below 256. *)
Definition lower_char (c : ascii) : ascii :=
  let n := N_of_ascii c in
  if ((65 <=? n) && (n <=? 90))%N then ascii_of_N (n + 32)
  else if ((192 <=? n) && (n <=? 222) && negb (n =? 215))%N
       then ascii_of_N (n + 32)
  else c.

Fixpoint lower (s : string) : string :=
  match s with
  | "" => ""
  | String c s' => String (lower_char c) (lower s')
  end.

Definition upper_char (c : ascii) : ascii :=
  let n := N_of_ascii c in
  if ((97 <=? n) && (n <=? 122))%N then ascii_of_N (n - 32)
  else if ((224 <=? n) && (n <=? 254) && negb (n =? 247))%N
       then ascii_of_N (n - 32)
  else c.

(** [str.capitalize()] *)
Definition capitalize (s : string) : string :=
  match s with
  | "" => ""
  | String c s' => String (upper_char c) (lower s')
  end.

(** [sub in s] *)
Fixpoint contains (sub s : string) : bool :=
  prefix sub s ||
  match s with
  | "" => false
  | String _ s' => contains sub s'
  end.

(** [s.replace(old, new)] for a non-empty [old]: the scan copies characters
    until [old] starts at the current position, emits [new] there and skips
    the rest of that occurrence. *)
Fixpoint replace_from (skip : nat) (old new s : string) : string :=
  match s with
  | "" => ""
  | String c s' =>
      match skip with
      | S k => replace_from k old new s'
      | O =>
          if prefix old s
          then new ++ replace_from (pred (length old)) old new s'
          else String c (replace_from 0 old new s')
      end
  end.

Definition replace (old new s : string) : string := replace_from 0 old new s.

End Py.

(* ================================================================== *)
(** ** gradiocoach.py: fence stripping and the brace search *)

Module Fence.
Import Py.

(** [$] under [re.MULTILINE]: end of text or just before a line feed. *)
Definition at_eol (s : string) : bool :=
  match s with
  | "" => true
  | String c _ => Ascii.eqb c LF
  end.

(** One attempt of the pattern [^```json\s*|\s*```$] (flags MULTILINE and
    DOTALL) at the current position.  [bol] tells whether the position is the
    start of a line, [s] is the text from the position on.  The result is the
    length of the match.  The first alternative is tried first; in the second
    one the greedy [\s*] can only succeed with the whole whitespace run, as a
    shorter run is followed by whitespace and not by a backquote. *)
Definition match_len (bol : bool) (s : string) : option nat :=
  if bol && prefix "```json" s
  then Some (7 + span_ws (drop 7 s))
  else
    let k := span_ws s in
    let r := drop k s in
    if prefix "```" r && at_eol (drop 3 r) then Some (k + 3) else None.

(** [re.sub(pattern, '', s)]: left to right, every match is deleted and the
    scan resumes right after it.  [skip] counts the characters of the current
    match that are still to be dropped. *)
Fixpoint re_sub_from (skip : nat) (bol : bool) (s : string) : string :=
  match s with
  | "" => ""
  | String c s' =>
      let bol' := Ascii.eqb c LF in
      match skip with
      | S k => re_sub_from k bol' s'
      | O =>
          match match_len bol s with
          | Some n => re_sub_from (pred n) bol' s'
          | None => String c (re_sub_from 0 bol' s')
          end
      end
  end.

Definition re_sub_fences (s : string) : string := re_sub_from 0 true s.

(** [cleaned_json_text = re.sub(...).strip()] *)
Definition clean_json_text (raw_json_text : string) : string :=
  strip (re_sub_fences raw_json_text).

(** [re.search(r'\{.*\}', s, re.DOTALL)]: from the first opening brace that
    has a closing brace somewhere after it, up to the last closing brace. *)
Fixpoint upto_last_brace (s : string) : option string :=
  match s with
  | "" => None
  | String c s' =>
      match upto_last_brace s' with
      | Some r => Some (String c r)
      | None => if Ascii.eqb c "}" then Some (String c "") else None
      end
  end.

Fixpoint search_braces (s : string) : option string :=
  match s with
  | "" => None
  | String c s' =>
      if Ascii.eqb c "{"
      then match upto_last_brace s' with
           | Some r => Some (String c r)
           | None => search_braces s'
           end
      else search_braces s'
  end.

(** A response that carries [payload] between a [```json] line and a closing
    [```] line. *)
Definition fenced (payload : string) : string :=
  "```json" ++ nl ++ payload ++ nl ++ "```".

(** Whether the position reached after [k] more characters is the start
    of a line. *)
Fixpoint bol_after (k : nat) (bol : bool) (s : string) : bool :=
  match k, s with
  | S k', String c s' => bol_after k' (Ascii.eqb c LF) s'
  | _, _ => bol
  end.

(** Whether a pattern is free of line feeds. *)
Fixpoint no_lf (p : string) : bool :=
  match p with
  | "" => true
  | String c p' => negb (Ascii.eqb c LF) && no_lf p'
  end.

(** The closing fence line that [fenced] appends. *)
Definition closing : string := nl ++ "```".

(** A response that carries [payload] between a bare [```] line and a
    closing [```] line. *)
Definition fenced_plain (payload : string) : string :=
  "```" ++ nl ++ payload ++ nl ++ "```".

(** A lexical reading of JSON text.  The state tells whether the position is
    inside a string literal and, there, whether it follows a backslash.  No
    backquote stands outside a string literal and no control character inside
    one; the text may not end inside a string literal.  Every JSON text
    passes. *)
Definition QUOTE : ascii := ascii_of_nat 34.
Definition BACKSLASH : ascii := ascii_of_nat 92.
Definition BACKQUOTE : ascii := ascii_of_nat 96.

Definition lex_step (st : bool * bool) (c : ascii) : option (bool * bool) :=
  let (in_string, escaped) := st in
  if in_string then
    if (N_of_ascii c <? 32)%N then None
    else if escaped then Some (true, false)
    else if Ascii.eqb c QUOTE then Some (false, false)
    else if Ascii.eqb c BACKSLASH then Some (true, true)
    else Some (true, false)
  else
    if Ascii.eqb c BACKQUOTE then None
    else if Ascii.eqb c QUOTE then Some (true, false)
    else Some (false, false).

Fixpoint json_lex_from (st : bool * bool) (s : string) : bool :=
  match s with
  | "" => negb (fst st)
  | String c s' =>
      match lex_step st c with
      | Some st' => json_lex_from st' s'
      | None => false
      end
  end.

Definition json_lex (s : string) : bool := json_lex_from (false, false) s.

End Fence.

(* ================================================================== *)
(** ** gradiocoach.py: stage 2 extraction *)

Module Json.

(** Values produced by [json.loads].  A dict is kept as an association list
    read by its first binding for a key. *)
Inductive json : Type :=
| JNull
| JBool (b : bool)
| JInt (z : Z)
| JFloat (q : Q)
| JStr (s : string)
| JArr (items : list json)
| JObj (fields : list (string * json)).

(** [d.get(key)] *)
Fixpoint dict_get (d : list (string * json)) (key : string) : option json :=
  match d with
  | [] => None
  | (k, v) :: d' => if String.eqb k key then Some v else dict_get d' key
  end.

(** [bool(v)] *)
Definition truthy (v : json) : bool :=
  match v with
  | JNull => false
  | JBool b => b
  | JInt z => negb (z =? 0)%Z
  | JFloat q => negb (Qeq_bool q 0)
  | JStr s => negb (String.eqb s "")
  | JArr l => match l with [] => false | _ => true end
  | JObj d => match d with [] => false | _ => true end
  end.

(** [isinstance(v, int)], with the integer it denotes; [bool] is a subclass
    of [int] in Python. *)
Definition as_int (v : option json) : option Z :=
  match v with
  | Some (JInt z) => Some z
  | Some (JBool b) => Some (if b then 1 else 0)%Z
  | _ => None
  end.

(** [isinstance(v, list)] *)
Definition as_list (v : option json) : option (list json) :=
  match v with
  | Some (JArr l) => Some l
  | _ => None
  end.

Definition is_str (key : string) (v : json) : bool :=
  match v with
  | JStr s => String.eqb s key
  | _ => false
  end.

(** How [json.loads] ends on a text: it returns a value, it raises
    [json.JSONDecodeError], or it raises something else (the ValueError of
    the limit on the digits of an integer, RecursionError on deep
    nesting). *)
Inductive loads_result : Type :=
| Parsed (v : json)
| JSONDecodeError
| OtherError.

End Json.

Module Stage2.
Import Py Fence Json.
Local Open Scope list_scope.

Definition required_top_keys : list string :=
  ["video_summary"; "skills"; "power"; "mocap"; "mobility"; "predictions";
   "roadmap"].

Definition chart_keys : list string := ["skills"; "power"; "mocap"; "mobility"].

(** What [gemini_client_json.generate_content] does: it raises, or it hands
    back a response whose [text] may be missing or empty. *)
Inductive gen_reply : Type :=
| GenRaises (msg : string)
| GenResponse (text : option string).

(** One constructor per logging call of [run_stage2_extraction]. *)
Inductive log_entry : Type :=
| Err_client_unavailable
| Err_invalid_report
| Info_starting
| Info_sending
| Err_empty_response
| Debug_raw_response (first500 : string)
| Info_parsed
| Warn_missing_keys (missing_keys : list string)
| Warn_invalid_chart (chart_key : string) (chart : json)
| Warn_chart_not_dict (chart_key : string) (chart : option json)
| Err_decode_failed
| Err_raw_text (first1000 : string)
| Warn_attempt_embedded
| Warn_embedded_parsed
| Err_embedded_failed
| Err_unexpected.

Inductive level : Type := DEBUG | INFO | WARNING | ERROR.

(** How a call of [run_stage2_extraction] ends: it returns the structured
    data or None, or an exception leaves it. *)
Inductive extraction : Type :=
| Returned (structured_data : option json)
| Raised.

Definition level_of (e : log_entry) : level :=
  match e with
  | Debug_raw_response _ => DEBUG
  | Info_starting | Info_sending | Info_parsed => INFO
  | Warn_missing_keys _ | Warn_invalid_chart _ _ | Warn_chart_not_dict _ _
  | Warn_attempt_embedded | Warn_embedded_parsed => WARNING
  | _ => ERROR
  end.

(** The test of lines 624-626 on one chart dict. *)
Definition chart_shape_ok (chart : list (string * json)) : bool :=
  match as_int (dict_get chart "num_axes") with
  | None => false
  | Some expected_axes =>
      match as_list (dict_get chart "values") with
      | None => false
      | Some values =>
          (Z.of_nat (List.length values) =? expected_axes)%Z &&
          match as_list (dict_get chart "labels") with
          | None => false
          | Some labels => (Z.of_nat (List.length labels) =? expected_axes)%Z
          end
      end
  end.

(** The loop over the four chart keys on a parsed dict. *)
Definition check_chart (d : list (string * json)) (chart_key : string)
  : list log_entry :=
  match dict_get d chart_key with
  | Some (JObj chart) =>
      if chart_shape_ok chart then []
      else [Warn_invalid_chart chart_key (JObj chart)]
  | other =>
      if existsb (String.eqb chart_key) required_top_keys
      then [Warn_chart_not_dict chart_key other]
      else []
  end.

Definition missing_warning (missing_keys : list string) : list log_entry :=
  match missing_keys with
  | [] => []
  | _ => [Warn_missing_keys missing_keys]
  end.

(** "Basic Validation" (lines 612-629).  The result is the log it writes and
    whether it ran to its end; it does not when [structured_data] is not a
    dict: [key not in x] raises TypeError on a number, a bool or None, and
    [x.get] raises AttributeError on a list or a str. *)
Definition basic_validation (structured_data : json) : list log_entry * bool :=
  match structured_data with
  | JObj d =>
      (missing_warning
         (filter (fun key => match dict_get d key with
                             | Some _ => false
                             | None => true
                             end) required_top_keys)
       ++ flat_map (check_chart d) chart_keys, true)
  | JArr l =>
      (missing_warning
         (filter (fun key => negb (existsb (is_str key) l)) required_top_keys),
       false)
  | JStr s =>
      (missing_warning
         (filter (fun key => negb (contains key s)) required_top_keys),
       false)
  | _ => ([], false)
  end.

Section Extraction.

(** [json.loads] *)
Variable json_loads : string -> loads_result.
(** Whether [gemini_client_json] was configured at start-up. *)
Variable gemini_client_json : bool.
(** The remote call, as a function of the formatted prompt. *)
Variable generate_content : string -> gen_reply.
(** The text of the module constant of that name. *)
Variable JSON_EXTRACTION_PROMPT : string.

(** The handler of [json.JSONDecodeError] (lines 633-646).  Its inner
    [try] catches [json.JSONDecodeError] only, and the clause of line 647
    is a sibling of this handler and does not cover it: any other exception
    of the [json.loads] of line 641 leaves the function. *)
Definition decode_error_handler (raw_json_text cleaned_json_text : string)
  : extraction * list log_entry :=
  let log := [Err_decode_failed; Err_raw_text (substring 0 1000 raw_json_text)] in
  match search_braces cleaned_json_text with
  | Some potential_json =>
      match json_loads potential_json with
      | Parsed structured_data =>
          (Returned (Some structured_data),
           log ++ [Warn_attempt_embedded; Warn_embedded_parsed])
      | JSONDecodeError =>
          (Returned None, log ++ [Warn_attempt_embedded; Err_embedded_failed])
      | OtherError => (Raised, log ++ [Warn_attempt_embedded])
      end
  | None => (Returned None, log)
  end.

(** Lines 604-631 and the two handlers, from the response text on.  Of
    the failures of the [json.loads] of line 609 only
    [json.JSONDecodeError] reaches the handler of line 633; any other goes
    to the clause of line 647, as an exception of the validation does. *)
Definition parse_response (raw_json_text : string)
  : extraction * list log_entry :=
  let log := [Debug_raw_response (substring 0 500 raw_json_text)] in
  let cleaned_json_text := clean_json_text raw_json_text in
  match json_loads cleaned_json_text with
  | Parsed structured_data =>
      let (vlog, finished) := basic_validation structured_data in
      if finished
      then (Returned (Some structured_data), log ++ [Info_parsed] ++ vlog)
      else (Returned None, log ++ [Info_parsed] ++ vlog ++ [Err_unexpected])
  | JSONDecodeError =>
      let (r, hlog) := decode_error_handler raw_json_text cleaned_json_text in
      (r, log ++ hlog)
  | OtherError => (Returned None, log ++ [Err_unexpected])
  end.

Definition run_stage2_extraction (markdown_report : string)
  : extraction * list log_entry :=
  if negb gemini_client_json then (Returned None, [Err_client_unavailable])
  else if String.eqb markdown_report "" || String.eqb (strip markdown_report) ""
  then (Returned None, [Err_invalid_report])
  else
    let extraction_prompt_formatted :=
      replace "{markdown_report}" markdown_report JSON_EXTRACTION_PROMPT in
    match generate_content extraction_prompt_formatted with
    | GenRaises _ =>
        (Returned None, [Info_starting; Info_sending; Err_unexpected])
    | GenResponse None | GenResponse (Some "") =>
        (Returned None, [Info_starting; Info_sending; Err_empty_response])
    | GenResponse (Some raw_json_text) =>
        let (r, log) := parse_response raw_json_text in
        (r, [Info_starting; Info_sending] ++ log)
    end.

End Extraction.

End Stage2.

(* ================================================================== *)
(** ** gradiocoach.py: report assembly and the caller of stage 2 *)

Module Report.
Import Py Json Stage2.

(** One entry of [valid_chart_data]. *)
Record chart_info : Type := {
  key : string;
  title : string;
  values : list Q;
  labels : list string;
  num_axes : Z
}.

(** What [create_pitcher_report] puts on the figure: either the lone error
    text or the title, the charts, the summary lines and the two lists. *)
Inductive figure : Type :=
| ErrorFigure
| ReportFigure (title_text : string) (charts : list chart_info)
               (chart_rows_needed : nat) (summary_lines : list string)
               (predictions roadmap : list string).

Definition default_value : Q := 50.

(** How [float(v)] ends: it returns a number, it raises ValueError or
    TypeError, or it raises OverflowError. *)
Inductive float_result : Type :=
| Float (x : Q)
| Rejected
| Overflow.

(** The least magnitude of an int that [float] does not convert: halfway
    between the largest binary64 number and 2^1024. *)
Definition FLOAT_LIMIT : Z := 2 ^ 1024 - 2 ^ 970.

(** [s.split('\n')] *)
Fixpoint split_lines (s : string) : list string :=
  match s with
  | "" => [""]
  | String c s' =>
      if Ascii.eqb c LF then "" :: split_lines s'
      else match split_lines s' with
           | l :: ls => String c l :: ls
           | [] => [String c ""]
           end
  end.

Section Rendering.

(** [float(s)] on a str; [None] stands for ValueError. *)
Variable float_of_string : string -> option Q.
(** [str(v)] on a value that is not a str.  An int that [json.loads]
    returned has at most 4300 digits, so [str] does not raise on it. *)
Variable repr : json -> string.
(** [str(n)] on an int. *)
Variable str_of_int : Z -> string.

Definition str (v : json) : string :=
  match v with
  | JStr s => s
  | _ => repr v
  end.

(** [float(v)] *)
Definition to_float (v : json) : float_result :=
  match v with
  | JInt z =>
      if (FLOAT_LIMIT <=? Z.abs z)%Z then Overflow else Float (inject_Z z)
  | JFloat q => Float q
  | JBool b => Float (if b then 1%Q else 0%Q)
  | JStr s =>
      match float_of_string s with
      | Some x => Float x
      | None => Rejected
      end
  | JNull | JArr _ | JObj _ => Rejected
  end.

(** The [try]/[except] of lines 678-680, which catches ValueError and
    TypeError; [None] when OverflowError leaves it. *)
Definition valid_value (v : json) : option Q :=
  match to_float v with
  | Float x => Some x
  | Rejected => Some default_value
  | Overflow => None
  end.

(** The loop of lines 677-680 over the values of a group; [None] when
    OverflowError leaves it. *)
Fixpoint valid_values (vs : list json) : option (list Q) :=
  match vs with
  | [] => Some []
  | v :: vs' =>
      match valid_value v with
      | None => None
      | Some x =>
          match valid_values vs' with
          | None => None
          | Some xs => Some (x :: xs)
          end
      end
  end.

(** The test of lines 670-676: the number of axes, the values and the labels
    of a group that passes, [None] for a group that is skipped. *)
Definition chart_shape (data : option json)
  : option (Z * list json * list json) :=
  match data with
  | Some (JObj d) =>
      match as_list (dict_get d "values"), as_list (dict_get d "labels"),
            as_int (dict_get d "num_axes") with
      | Some vs, Some ls, Some n =>
          if (0 <? n)%Z && (Z.of_nat (List.length vs) =? n)%Z
             && (Z.of_nat (List.length ls) =? n)%Z
          then Some (n, vs, ls) else None
      | _, _, _ => None
      end
  | _ => None
  end.

Definition chart_title (d : list (string * json)) (k : string) : string :=
  match dict_get d "title" with
  | Some t => str t
  | None => capitalize k
  end.

(** The body of the loop over [chart_keys] (lines 668-687): what it
    appends to [valid_chart_data], or [None] when OverflowError leaves
    it. *)
Definition chart_of (analysis_data : list (string * json)) (k : string)
  : option (list chart_info) :=
  match chart_shape (dict_get analysis_data k) with
  | Some (n, vs, ls) =>
      match valid_values vs with
      | Some valid_values =>
          Some [{| key := k;
                   title := match dict_get analysis_data k with
                            | Some (JObj d) => chart_title d k
                            | _ => capitalize k
                            end;
                   values := valid_values;
                   labels := map str ls;
                   num_axes := n |}]
      | None => None
      end
  | None => Some []
  end.

(** The loop over the keys, in their order. *)
Fixpoint charts_of (analysis_data : list (string * json))
  (keys : list string) : option (list chart_info) :=
  match keys with
  | [] => Some []
  | k :: keys' =>
      match chart_of analysis_data k with
      | None => None
      | Some c =>
          match charts_of analysis_data keys' with
          | None => None
          | Some cs => Some (c ++ cs)%list
          end
      end
  end.

Definition valid_chart_data (analysis_data : list (string * json))
  : option (list chart_info) :=
  charts_of analysis_data chart_keys.

Definition get_list_or_default (analysis_data : list (string * json))
  (k default_text : string) : list string :=
  match dict_get analysis_data k with
  | None => [default_text]
  | Some (JArr items) =>
      map str (filter (fun item => match item with
                                   | JNull => false
                                   | _ => true
                                   end) items)
  | Some (JStr s) => [s]
  | Some _ => [default_text]
  end.

(** [create_pitcher_report]; [None] when an exception leaves the function,
    which happens when the data is a non-empty value other than a dict and
    when a value of a group of valid shape is an int too large for
    [float]. *)
Definition create_pitcher_report (analysis_data : option json)
  (pitcher_age : option Z) (pitcher_level : option string) : option figure :=
  match analysis_data with
  | None => Some ErrorFigure
  | Some v =>
      if negb (truthy v) then Some ErrorFigure
      else match v with
      | JObj d =>
          match valid_chart_data d with
          | None => None
          | Some charts =>
          let predictions :=
            get_list_or_default d "predictions" "No prediction data extracted." in
          let roadmap :=
            get_list_or_default d "roadmap" "No roadmap data extracted." in
          let video_summary :=
            match dict_get d "video_summary" with
            | None => "No video summary extracted."
            | Some (JStr s) => s
            | Some _ => "Invalid summary format."
            end in
          let chart_rows_needed := Nat.div (List.length charts + 2 - 1) 2 in
          let title_text :=
            match pitcher_age, pitcher_level with
            | Some age, Some lvl =>
                if String.eqb lvl "" then "Pitcher Performance Analysis"
                else "Pitcher Performance Analysis" ++ " (Age: "
                     ++ str_of_int age ++ ", Level: " ++ lvl ++ ")"
            | _, _ => "Pitcher Performance Analysis"
            end in
          Some (ReportFigure title_text charts chart_rows_needed
                  (split_lines video_summary) predictions roadmap)
          end
      | _ => None
      end
  end.

(** What [run_analysis_interface] yields to the page once stage 1 has
    produced [markdown_report] (lines 1127-1145), and in the handler of
    lines 1170-1173 when an exception leaves that stretch. *)
Inductive ui_update : Type :=
| Status_extracting
| Error_report_missing
| Raw_report_fallback (video_summary_output : string)
| Status_generating_report
| Unhandled_error.

Variable json_loads : string -> loads_result.
Variable gemini_client_json : bool.
Variable generate_content : string -> gen_reply.
Variable JSON_EXTRACTION_PROMPT : string.

Definition raw_report_text (markdown_report : string) : string :=
  "**Stage 1 Raw Report (Stage 2 Failed):**" ++ nl ++ nl ++ "---" ++ nl
  ++ markdown_report ++ nl ++ "---".

(** The yields of that stretch and the figure, if one was made. *)
Definition stage2_and_report (markdown_report : string)
  (age : option Z) (level : option string)
  : list ui_update * option figure :=
  if String.eqb markdown_report ""
  then ([Status_extracting; Error_report_missing], None)
  else
    let structured_analysis_data :=
      fst (run_stage2_extraction json_loads gemini_client_json
             generate_content JSON_EXTRACTION_PROMPT markdown_report) in
    match structured_analysis_data with
    | Raised => ([Status_extracting; Unhandled_error], None)
    | Returned None =>
        ([Status_extracting; Raw_report_fallback (raw_report_text markdown_report)],
         None)
    | Returned (Some v) =>
        if negb (truthy v)
        then ([Status_extracting;
               Raw_report_fallback (raw_report_text markdown_report)], None)
        else
          match create_pitcher_report (Some v) age level with
          | Some report_figure =>
              ([Status_extracting; Status_generating_report],
               Some report_figure)
          | None =>
              ([Status_extracting; Status_generating_report;
                Unhandled_error], None)
          end
    end.

End Rendering.

(** *** Vocabulary of the statements *)

(** A parsed reply whose "skills" group declares three axes and carries two
    values, next to a "power" group of the right shape in which one value is
    not a number. *)
Definition sample_report : list (string * json) :=
  [("video_summary", JStr "Good rhythm.");
   ("skills", JObj [("title", JStr "Skills");
                    ("values", JArr [JInt 70; JInt 80]);
                    ("labels", JArr [JStr "a"; JStr "b"; JStr "c"]);
                    ("num_axes", JInt 3)]);
   ("power", JObj [("title", JStr "Power");
                   ("values", JArr [JInt 60; JNull]);
                   ("labels", JArr [JStr "x"; JStr "y"]);
                   ("num_axes", JInt 2)])].

(** A parsed reply whose "power" group has the right shape and carries an
    int of 401 digits. *)
Definition overflowing_report : list (string * json) :=
  [("video_summary", JStr "Good rhythm.");
   ("power", JObj [("title", JStr "Power");
                   ("values", JArr [JInt 60; JInt (10 ^ 400)]);
                   ("labels", JArr [JStr "x"; JStr "y"]);
                   ("num_axes", JInt 2)])].

(** A text of [n] digits 1. *)
Fixpoint ones (n : nat) : string :=
  match n with
  | O => ""
  | S n' => String "1" (ones n')
  end.

(** A JSON object whose one value is an integer of 4301 digits, and a reply
    that wraps it in prose.  [json.loads] raises [json.JSONDecodeError] on
    the reply, which starts with a letter, and ValueError on the object:
    [int] refuses more than 4300 digits. *)
Definition long_int_object : string :=
  "{" ++ String Fence.QUOTE ("a" ++ String Fence.QUOTE (": " ++ ones 4301))
  ++ "}".
Definition long_int_reply : string := "Here: " ++ long_int_object ++ " ok".
Definition long_int_loads (s : string) : loads_result :=
  if String.eqb s long_int_object then OtherError else JSONDecodeError.

End Report.

(* ================================================================== *)
(** ** optimized_app.py: retrying wrapper, poll loop, result cache *)

Module OptimizedApp.
Import Py.

Definition MAX_VIDEO_PROCESSING_TIME : Z := 180.
Definition API_MAX_RETRIES : nat := 3.
Definition API_RETRY_DELAY : Z := 2.

(** The exception classes the code tells apart, each with its [str(e)]. *)
Inductive exn : Type :=
| GoogleAPIError (text : string)
| TimeoutError (text : string)
| Exception (text : string).

Definition str_of_exn (e : exn) : string :=
  match e with
  | GoogleAPIError t | TimeoutError t | Exception t => t
  end.

Inductive outcome (A : Type) : Type :=
| Returns (a : A)
| Raises (e : exn).
Arguments Returns {A} a.
Arguments Raises {A} e.

(** The remote file object as far as the code reads it. *)
Record file : Type := {
  name : string;
  state_name : string;
  mime_type : string;
  uri : string
}.

(** The entries of [st.session_state] that the analysis touches
    ([init_session_state], lines 526-573). *)
Record session_state : Type := {
  analysis_result : option string;
  audio_script : option string;
  audio_generated : bool;
  show_audio_options : bool;
  analysis_completed : bool;
  temp_video_path : string;
  processing : bool;
  current_step : option string;
  progress_percent : Z;
  progress_detail : string;
  analysis_start_time : option Q;
  analysis_duration : option Q;
  cache_id : option string;
  last_query : option string;
  cache_hits : Z
}.

Definition initial_session : session_state := {|
  analysis_result := None;
  audio_script := None;
  audio_generated := false;
  show_audio_options := false;
  analysis_completed := false;
  temp_video_path := "";
  processing := false;
  current_step := None;
  progress_percent := 0;
  progress_detail := "";
  analysis_start_time := None;
  analysis_duration := None;
  cache_id := None;
  last_query := None;
  cache_hits := 0
|}.

(** The session together with what the run has done to the outside so far:
    how often the clock was read and each remote function was invoked, and
    the durations handed to [time.sleep], latest first. *)
Record world : Type := {
  session : session_state;
  clock_reads : nat;
  upload_calls : nat;
  get_calls : nat;
  generate_calls : nat;
  sleeps : list Q
}.

Definition initial_world : world := {|
  session := initial_session;
  clock_reads := 0;
  upload_calls := 0;
  get_calls := 0;
  generate_calls := 0;
  sleeps := []
|}.

Definition with_session (f : session_state -> session_state) (w : world)
  : world :=
  {| session := f (session w);
     clock_reads := clock_reads w;
     upload_calls := upload_calls w;
     get_calls := get_calls w;
     generate_calls := generate_calls w;
     sleeps := sleeps w |}.

(** A computation: it reads and writes the world and returns or raises;
    [None] means that the fuel of a loop ran out. *)
Definition M (A : Type) : Type := world -> option (outcome A * world).

Definition ret {A} (a : A) : M A := fun w => Some (Returns a, w).
Definition raise {A} (e : exn) : M A := fun w => Some (Raises e, w).

Definition bind {A B} (m : M A) (k : A -> M B) : M B :=
  fun w =>
    match m w with
    | None => None
    | Some (Returns a, w') => k a w'
    | Some (Raises e, w') => Some (Raises e, w')
    end.

Notation "x <- m ;; k" := (bind m (fun x => k))
  (at level 61, m at next level, right associativity).
Notation "m ;;; k" := (bind m (fun _ => k))
  (at level 61, right associativity).

(** [try: m  except: h] *)
Definition try_except {A} (m : M A) (h : exn -> M A) : M A :=
  fun w =>
    match m w with
    | Some (Raises e, w') => h e w'
    | r => r
    end.

(** [try: m  finally: f] *)
Definition try_finally {A} (m : M A) (f : M unit) : M A :=
  fun w =>
    match m w with
    | None => None
    | Some (r, w') =>
        match f w' with
        | None => None
        | Some (Returns _, w'') => Some (r, w'')
        | Some (Raises e, w'') => Some (Raises e, w'')
        end
    end.

Definition update (f : session_state -> session_state) : M unit :=
  fun w => Some (Returns tt, with_session f w).

Definition get_session : M session_state :=
  fun w => Some (Returns (session w), w).

(** [time.sleep(d)] *)
Definition sleep (d : Q) : M unit :=
  fun w => Some (Returns tt,
    {| session := session w;
       clock_reads := clock_reads w;
       upload_calls := upload_calls w;
       get_calls := get_calls w;
       generate_calls := generate_calls w;
       sleeps := d :: sleeps w |}).

(** Setters for the session entries that are assigned. *)
Definition set_analysis_result v s := {|
  analysis_result := v; audio_script := audio_script s;
  audio_generated := audio_generated s;
  show_audio_options := show_audio_options s;
  analysis_completed := analysis_completed s;
  temp_video_path := temp_video_path s; processing := processing s;
  current_step := current_step s; progress_percent := progress_percent s;
  progress_detail := progress_detail s;
  analysis_start_time := analysis_start_time s;
  analysis_duration := analysis_duration s; cache_id := cache_id s;
  last_query := last_query s; cache_hits := cache_hits s |}.

Definition set_audio (script : option string) (generated options : bool) s := {|
  analysis_result := analysis_result s; audio_script := script;
  audio_generated := generated; show_audio_options := options;
  analysis_completed := analysis_completed s;
  temp_video_path := temp_video_path s; processing := processing s;
  current_step := current_step s; progress_percent := progress_percent s;
  progress_detail := progress_detail s;
  analysis_start_time := analysis_start_time s;
  analysis_duration := analysis_duration s; cache_id := cache_id s;
  last_query := last_query s; cache_hits := cache_hits s |}.

Definition set_analysis_completed v s := {|
  analysis_result := analysis_result s; audio_script := audio_script s;
  audio_generated := audio_generated s;
  show_audio_options := show_audio_options s;
  analysis_completed := v;
  temp_video_path := temp_video_path s; processing := processing s;
  current_step := current_step s; progress_percent := progress_percent s;
  progress_detail := progress_detail s;
  analysis_start_time := analysis_start_time s;
  analysis_duration := analysis_duration s; cache_id := cache_id s;
  last_query := last_query s; cache_hits := cache_hits s |}.

Definition set_processing v s := {|
  analysis_result := analysis_result s; audio_script := audio_script s;
  audio_generated := audio_generated s;
  show_audio_options := show_audio_options s;
  analysis_completed := analysis_completed s;
  temp_video_path := temp_video_path s; processing := v;
  current_step := current_step s; progress_percent := progress_percent s;
  progress_detail := progress_detail s;
  analysis_start_time := analysis_start_time s;
  analysis_duration := analysis_duration s; cache_id := cache_id s;
  last_query := last_query s; cache_hits := cache_hits s |}.

Definition set_current_step v s := {|
  analysis_result := analysis_result s; audio_script := audio_script s;
  audio_generated := audio_generated s;
  show_audio_options := show_audio_options s;
  analysis_completed := analysis_completed s;
  temp_video_path := temp_video_path s; processing := processing s;
  current_step := Some v; progress_percent := progress_percent s;
  progress_detail := progress_detail s;
  analysis_start_time := analysis_start_time s;
  analysis_duration := analysis_duration s; cache_id := cache_id s;
  last_query := last_query s; cache_hits := cache_hits s |}.

Definition set_progress_percent v s := {|
  analysis_result := analysis_result s; audio_script := audio_script s;
  audio_generated := audio_generated s;
  show_audio_options := show_audio_options s;
  analysis_completed := analysis_completed s;
  temp_video_path := temp_video_path s; processing := processing s;
  current_step := current_step s; progress_percent := v;
  progress_detail := progress_detail s;
  analysis_start_time := analysis_start_time s;
  analysis_duration := analysis_duration s; cache_id := cache_id s;
  last_query := last_query s; cache_hits := cache_hits s |}.

Definition set_progress_detail v s := {|
  analysis_result := analysis_result s; audio_script := audio_script s;
  audio_generated := audio_generated s;
  show_audio_options := show_audio_options s;
  analysis_completed := analysis_completed s;
  temp_video_path := temp_video_path s; processing := processing s;
  current_step := current_step s; progress_percent := progress_percent s;
  progress_detail := v;
  analysis_start_time := analysis_start_time s;
  analysis_duration := analysis_duration s; cache_id := cache_id s;
  last_query := last_query s; cache_hits := cache_hits s |}.

Definition set_analysis_start_time v s := {|
  analysis_result := analysis_result s; audio_script := audio_script s;
  audio_generated := audio_generated s;
  show_audio_options := show_audio_options s;
  analysis_completed := analysis_completed s;
  temp_video_path := temp_video_path s; processing := processing s;
  current_step := current_step s; progress_percent := progress_percent s;
  progress_detail := progress_detail s;
  analysis_start_time := Some v;
  analysis_duration := analysis_duration s; cache_id := cache_id s;
  last_query := last_query s; cache_hits := cache_hits s |}.

Definition set_analysis_duration v s := {|
  analysis_result := analysis_result s; audio_script := audio_script s;
  audio_generated := audio_generated s;
  show_audio_options := show_audio_options s;
  analysis_completed := analysis_completed s;
  temp_video_path := temp_video_path s; processing := processing s;
  current_step := current_step s; progress_percent := progress_percent s;
  progress_detail := progress_detail s;
  analysis_start_time := analysis_start_time s;
  analysis_duration := Some v; cache_id := cache_id s;
  last_query := last_query s; cache_hits := cache_hits s |}.

Definition set_cache_id v s := {|
  analysis_result := analysis_result s; audio_script := audio_script s;
  audio_generated := audio_generated s;
  show_audio_options := show_audio_options s;
  analysis_completed := analysis_completed s;
  temp_video_path := temp_video_path s; processing := processing s;
  current_step := current_step s; progress_percent := progress_percent s;
  progress_detail := progress_detail s;
  analysis_start_time := analysis_start_time s;
  analysis_duration := analysis_duration s; cache_id := Some v;
  last_query := last_query s; cache_hits := cache_hits s |}.

Definition set_last_query v s := {|
  analysis_result := analysis_result s; audio_script := audio_script s;
  audio_generated := audio_generated s;
  show_audio_options := show_audio_options s;
  analysis_completed := analysis_completed s;
  temp_video_path := temp_video_path s; processing := processing s;
  current_step := current_step s; progress_percent := progress_percent s;
  progress_detail := progress_detail s;
  analysis_start_time := analysis_start_time s;
  analysis_duration := analysis_duration s; cache_id := cache_id s;
  last_query := Some v; cache_hits := cache_hits s |}.

Definition set_cache_hits v s := {|
  analysis_result := analysis_result s; audio_script := audio_script s;
  audio_generated := audio_generated s;
  show_audio_options := show_audio_options s;
  analysis_completed := analysis_completed s;
  temp_video_path := temp_video_path s; processing := processing s;
  current_step := current_step s; progress_percent := progress_percent s;
  progress_detail := progress_detail s;
  analysis_start_time := analysis_start_time s;
  analysis_duration := analysis_duration s; cache_id := cache_id s;
  last_query := last_query s; cache_hits := v |}.

(** The test of line 959 on [str(e)]. *)
Definition is_rate_limit (text : string) : bool :=
  contains "quota" (lower text) || contains "rate" (lower text).

(** An error on which [safe_api_call] may try again. *)
Definition rate_limited (e : exn) : bool :=
  match e with
  | GoogleAPIError text => is_rate_limit text
  | _ => false
  end.

(** What the wrapper does between two attempts (lines 961-964). *)
Definition backoff (attempt : nat) : M unit :=
  update (set_progress_detail "API rate limit hit, retrying in 2s...") ;;;
  sleep (inject_Z (API_RETRY_DELAY * (Z.of_nat attempt + 1))).

(** The [for attempt in range(max_retries)] loop of [safe_api_call], entered
    at [attempt] with [remaining] rounds to go.  [func] is the wrapped call
    with its arguments; it may return None.  Leaving the loop at its end
    returns None. *)
Fixpoint safe_api_call_from {A} (remaining attempt : nat)
  (func : M (option A)) : M (option A) :=
  match remaining with
  | O => ret None
  | S remaining' =>
      try_except func (fun e =>
        match e with
        | GoogleAPIError text =>
            if is_rate_limit text && Nat.ltb attempt (API_MAX_RETRIES - 1)%nat
            then backoff attempt ;;;
                 safe_api_call_from remaining' (S attempt) func
            else raise e
        | _ => raise e
        end)
  end.

Definition safe_api_call {A} (func : M (option A)) : M (option A) :=
  safe_api_call_from API_MAX_RETRIES 0 func.

(** The key of line 1007. *)
Definition cache_key (video_path user_query : string) : string :=
  video_path ++ "_" ++ user_query.

(** The test of line 1008: the stored result when the slot holds this key
    and the result is neither None nor empty. *)
Definition cache_lookup (s : session_state) (key : string) : option string :=
  match cache_id s, analysis_result s with
  | Some id, Some r =>
      if String.eqb id key && negb (String.eqb r "") then Some r else None
  | _, _ => None
  end.

(** [int(x)]: truncation towards zero. *)
Definition int_of_Q (x : Q) : Z := Z.quot (Qnum x) (Z.pos (Qden x)).

(** The response object of [model.generate_content], as far as the code
    reads it: reading [response.text] returns the text or raises. *)
Record response : Type := { text : outcome string }.

(** How the handler of the Analyze button ends: with the warning of line
    1618, in the [st.rerun()] of line 1643, or with the error of lines
    1645-1649 on the page.  [st.rerun()] raises RerunException, which derives
    from BaseException: neither the clause of line 1645 nor the one of line
    1668 catches it, and it ends the run of the script. *)
Inductive handler_exit : Type :=
| Warned
| Rerun
| Error_shown.

Section Remote.

(** The outside: the k-th reading of [time.time()] and the reply to the k-th
    invocation of each remote function. *)
Variable time_time : nat -> Q.
Variable upload_reply : string -> nat -> outcome (option file).
Variable get_reply : string -> nat -> outcome (option file).
Variable generate_reply : string -> file -> nat -> outcome (option response).
(** The fixed text of the analysis prompt before and after the query. *)
Variable PROMPT_HEAD PROMPT_TAIL : string.

Definition now : M Q :=
  fun w => Some (Returns (time_time (clock_reads w)),
    {| session := session w;
       clock_reads := S (clock_reads w);
       upload_calls := upload_calls w;
       get_calls := get_calls w;
       generate_calls := generate_calls w;
       sleeps := sleeps w |}).

(** [upload_file(video_path)] *)
Definition upload_file (video_path : string) : M (option file) :=
  fun w =>
    let w' := {| session := session w;
                 clock_reads := clock_reads w;
                 upload_calls := S (upload_calls w);
                 get_calls := get_calls w;
                 generate_calls := generate_calls w;
                 sleeps := sleeps w |} in
    match upload_reply video_path (upload_calls w) with
    | Returns f => Some (Returns f, w')
    | Raises e => Some (Raises e, w')
    end.

(** [get_file(name)] *)
Definition get_file (file_name : string) : M (option file) :=
  fun w =>
    let w' := {| session := session w;
                 clock_reads := clock_reads w;
                 upload_calls := upload_calls w;
                 get_calls := S (get_calls w);
                 generate_calls := generate_calls w;
                 sleeps := sleeps w |} in
    match get_reply file_name (get_calls w) with
    | Returns f => Some (Returns f, w')
    | Raises e => Some (Raises e, w')
    end.

(** [model.generate_content(contents=contents)]; the reply is the response
    object, or None. *)
Definition generate_content (prompt : string) (video : file)
  : M (option response) :=
  fun w =>
    let w' := {| session := session w;
                 clock_reads := clock_reads w;
                 upload_calls := upload_calls w;
                 get_calls := get_calls w;
                 generate_calls := S (generate_calls w);
                 sleeps := sleeps w |} in
    match generate_reply prompt video (generate_calls w) with
    | Returns r => Some (Returns r, w')
    | Raises e => Some (Raises e, w')
    end.

Definition analysis_prompt (user_query : string) : string :=
  PROMPT_HEAD ++ user_query ++ PROMPT_TAIL.

(** The [while] loop of lines 1050-1067; each round costs one unit of
    [fuel]. *)
Fixpoint wait_for_processing (fuel : nat) (processing_start : Q)
  (processed_video : file) : M file :=
  if String.eqb (state_name processed_video) "PROCESSING" then
    match fuel with
    | O => fun _ => None
    | S fuel' =>
        t <- now ;;
        let elapsed := (t - processing_start)%Q in
        if negb (Qle_bool elapsed (inject_Z MAX_VIDEO_PROCESSING_TIME))
        then raise (TimeoutError "Video processing timed out after 180 seconds")
        else
          update (set_progress_percent
            (Z.min (30 + int_of_Q
               (elapsed / inject_Z MAX_VIDEO_PROCESSING_TIME * 20)%Q) 50)) ;;;
          sleep 1 ;;;
          r <- safe_api_call (get_file (name processed_video)) ;;
          match r with
          | None => raise (Exception "Failed to retrieve processed video file")
          | Some processed_video' =>
              wait_for_processing fuel' processing_start processed_video'
          end
    end
  else ret processed_video.

(** [measure_performance]: the clock is read on entry and, in the [finally]
    clause, on exit.  The memory readings of psutil are left out. *)
Definition measure_performance {A} (body : M A) : M A :=
  start_time <- now ;;
  try_finally body
    (end_time <- now ;;
     update (set_analysis_duration (end_time - start_time)%Q)).

(** Lines 1069-1172: what is done with the file once the loop is left. *)
Definition generate_feedback (user_query : string) (processed_video : file)
  : M string :=
  update (set_current_step "analyzing") ;;;
  update (set_progress_percent 60) ;;;
  if negb (String.eqb (state_name processed_video) "SUCCEEDED")
  then raise (Exception ("Video processing failed with state: "
                         ++ state_name processed_video))
  else
    response <- safe_api_call
      (generate_content (analysis_prompt user_query) processed_video) ;;
    match response with
    | None => raise (Exception "Gemini API content generation failed")
    | Some response =>
        update (set_current_step "completed") ;;;
        update (set_progress_percent 100) ;;;
        sleep (1 # 2) ;;;
        match text response with
        | Returns analysis_text => ret analysis_text
        | Raises e => raise e
        end
    end.

(** The body of the [with] block (lines 1024-1172). *)
Definition run_pipeline (fuel : nat) (video_path user_query : string)
  : M string :=
  update (set_current_step "uploading") ;;;
  update (set_progress_percent 10) ;;;
  r <- safe_api_call (upload_file video_path) ;;
  match r with
  | None => raise (Exception "Video upload failed")
  | Some processed_video =>
      update (set_current_step "processing") ;;;
      update (set_progress_percent 30) ;;;
      processing_start <- now ;;
      processed_video <-
        wait_for_processing fuel processing_start processed_video ;;
      generate_feedback user_query processed_video
  end.

(** The exception each [except] clause of lines 1174-1201 raises in place of
    the one it caught. *)
Definition reraised (e : exn) : exn :=
  match e with
  | TimeoutError text => TimeoutError ("Analysis timeout: " ++ text)
  | GoogleAPIError text =>
      Exception
        (if contains "quota" (lower text)
         then "API rate limit exceeded. Please try again in a few minutes."
         else "Google API error: " ++ text)
  | Exception text => Exception ("Analysis error: " ++ text)
  end.

Definition analysis_handler (e : exn) : M string :=
  update (set_current_step "error") ;;;
  raise (reraised e).

Definition analyze_wrestling_video (fuel : nat)
  (video_path user_query : string) : M string :=
  t <- now ;;
  update (set_analysis_start_time t) ;;;
  let key := cache_key video_path user_query in
  s <- get_session ;;
  match cache_lookup s key with
  | Some result =>
      update (set_cache_hits (cache_hits s + 1)) ;;;
      sleep (1 # 2) ;;;
      ret result
  | None =>
      update (set_cache_id key) ;;;
      update (set_last_query user_query) ;;;
      try_except
        (measure_performance (run_pipeline fuel video_path user_query))
        analysis_handler
  end.

(** The handler of the Analyze button in [main] (lines 1616-1649).  An
    empty query only draws the warning of line 1618.  The exception caught
    at line 1645 is shown on the page and not raised again; the
    RerunException of line 1643 is not caught there and is the value
    [Rerun]. *)
Definition on_analyze (fuel : nat) (user_query : string) : M handler_exit :=
  if String.eqb user_query "" then ret Warned
  else
    try_except
      (update (set_processing true) ;;;
       s <- get_session ;;
       (if match last_query s with
           | Some q => String.eqb q user_query
           | None => false
           end
        then ret tt
        else update (set_analysis_result None) ;;;
             update (set_audio None false false)) ;;;
       analysis_result <-
         analyze_wrestling_video fuel (temp_video_path s) user_query ;;
       update (set_analysis_result (Some analysis_result)) ;;;
       update (set_analysis_completed true) ;;;
       update (set_processing false) ;;;
       ret Rerun)
      (fun _ => update (set_processing false) ;;; ret Error_shown).

End Remote.

(** *** Vocabulary of the statements *)

(** The world right after the wrapper has backed off following the failed
    attempt number [attempt] (counted from 0). *)
Definition after_backoff (attempt : nat) (w : world) : world :=
  {| session := set_progress_detail "API rate limit hit, retrying in 2s..."
                  (session w);
     clock_reads := clock_reads w;
     upload_calls := upload_calls w;
     get_calls := get_calls w;
     generate_calls := generate_calls w;
     sleeps := inject_Z (API_RETRY_DELAY * (Z.of_nat attempt + 1)) :: sleeps w |}.

(** Seconds slept so far. *)
Definition total_sleep (w : world) : Q := fold_right Qplus 0%Q (sleeps w).

(** The world after line 1638 has stored [r]. *)
Definition store_result (r : string) (w : world) : world :=
  with_session (set_analysis_result (Some r)) w.

(** The world a cache hit leaves behind when the clock read [t]. *)
Definition after_hit (t : Q) (w : world) : world :=
  {| session := set_cache_hits (cache_hits (session w) + 1)
       (set_analysis_start_time t (session w));
     clock_reads := S (clock_reads w);
     upload_calls := upload_calls w;
     get_calls := get_calls w;
     generate_calls := generate_calls w;
     sleeps := (1 # 2)%Q :: sleeps w |}.

(** [stable w w']: from [w] to [w'] the cache slot, the stored result and
    the hit counter are the same and no call counter went down. *)
Definition stable (w w' : world) : Prop :=
  cache_id (session w') = cache_id (session w) /\
  analysis_result (session w') = analysis_result (session w) /\
  cache_hits (session w') = cache_hits (session w) /\
  (upload_calls w <= upload_calls w')%nat /\
  (get_calls w <= get_calls w')%nat /\
  (generate_calls w <= generate_calls w')%nat.

Definition keeps {A} (m : M A) : Prop :=
  forall w r w', m w = Some (r, w') -> stable w w'.

(** The world in which a miss enters the [try] block of line 1022, the
    clock having read [t]. *)
Definition miss_entry (t : Q) (video_path user_query : string) (w : world)
  : world :=
  {| session := set_last_query user_query
       (set_cache_id (cache_key video_path user_query)
          (set_analysis_start_time t (session w)));
     clock_reads := S (clock_reads w);
     upload_calls := upload_calls w;
     get_calls := get_calls w;
     generate_calls := generate_calls w;
     sleeps := sleeps w |}.

(** The world after one round of the poll loop that found [elapsed] under
    the ceiling and got an answer at the first attempt. *)
Definition after_poll (elapsed : Q) (w : world) : world :=
  {| session := set_progress_percent
       (Z.min (30 + int_of_Q
          (elapsed / inject_Z MAX_VIDEO_PROCESSING_TIME * 20)%Q) 50)
       (session w);
     clock_reads := S (clock_reads w);
     upload_calls := upload_calls w;
     get_calls := S (get_calls w);
     generate_calls := generate_calls w;
     sleeps := 1%Q :: sleeps w |}.

(** A file object in the given state. *)
Definition file_in_state (st : string) : file :=
  {| name := "files/v"; state_name := st; mime_type := "video/mp4";
     uri := "https://files/v" |}.

(** A remote side on which everything succeeds at once: the upload comes
    back already in state SUCCEEDED and the k-th generation call answers with
    a text of its own. *)
Definition demo_clock (k : nat) : Q := inject_Z (Z.of_nat k).
Definition demo_upload (_ : string) (_ : nat) : outcome (option file) :=
  Returns (Some (file_in_state "SUCCEEDED")).
Definition demo_get (_ : string) (_ : nat) : outcome (option file) :=
  Returns (Some (file_in_state "SUCCEEDED")).
Definition demo_generate (_ : string) (_ : file) (k : nat)
  : outcome (option response) :=
  Returns (Some {| text := Returns match k with
                                   | 0 => "report 0"
                                   | 1 => "report 1"
                                   | _ => "report 2"
                                   end |}).

(** A session in which the result of an earlier analysis of "v.mp4" for
    the query "double leg" is stored. *)
Definition session_with_result : session_state :=
  {| analysis_result := Some "report of the double leg";
     audio_script := Some "Listen up.";
     audio_generated := true;
     show_audio_options := true;
     analysis_completed := true;
     temp_video_path := "v.mp4";
     processing := false;
     current_step := Some "completed";
     progress_percent := 100;
     progress_detail := "";
     analysis_start_time := Some 0%Q;
     analysis_duration := Some 3%Q;
     cache_id := Some (cache_key "v.mp4" "double leg");
     last_query := Some "double leg";
     cache_hits := 2 |}.

Definition world_with_result : world :=
  {| session := session_with_result;
     clock_reads := 7;
     upload_calls := 1;
     get_calls := 0;
     generate_calls := 1;
     sleeps := [(1 # 2)%Q] |}.

(** A remote side that answers the k-th poll with a file still in state
    PROCESSING for k < 2 and in state ACTIVE from then on. *)
Definition polled_file (i : nat) : file :=
  file_in_state (if Nat.ltb i 3 then "PROCESSING" else "ACTIVE").
Definition active_upload (_ : string) (_ : nat) : outcome (option file) :=
  Returns (Some (polled_file 0)).
Definition active_get (_ : string) (k : nat) : outcome (option file) :=
  Returns (Some (polled_file (S k))).

End OptimizedApp.

(* ================================================================== *)
(** ** optimized_app.py: vocabulary of the further statements *)

Module OptimizedAppMore.
Import Py OptimizedApp.

(** [m] relates the world it starts in to the world it ends in by [R]. *)
Definition preserves (R : world -> world -> Prop) {A} (m : M A) : Prop :=
  forall w r w', m w = Some (r, w') -> R w w'.

(** No generation call was made from [w] to [w']. *)
Definition no_generation (w w' : world) : Prop :=
  generate_calls w' = generate_calls w.

(** The world after one invocation of the remote upload. *)
Definition after_upload (w : world) : world :=
  {| session := session w;
     clock_reads := clock_reads w;
     upload_calls := S (upload_calls w);
     get_calls := get_calls w;
     generate_calls := generate_calls w;
     sleeps := sleeps w |}.

(** The world in which the handler of the Analyze button calls the
    analysis: the [processing] flag is up and, when the query differs from
    the last one, the stored result and the audio entries are cleared
    (lines 1622-1629). *)
Definition click_entry (user_query : string) (w : world) : world :=
  let w1 := with_session (set_processing true) w in
  if match last_query (session w1) with
     | Some q => String.eqb q user_query
     | None => false
     end
  then w1
  else with_session (set_audio None false false)
         (with_session (set_analysis_result None) w1).

(** How the handler ends when the analysis came back with [r]. *)
Definition click_result (r : outcome string) : handler_exit :=
  match r with
  | Returns _ => Rerun
  | Raises _ => Error_shown
  end.

(** The world in which the handler ends when the analysis came back with
    [r] in world [w] (lines 1638-1640 and 1646). *)
Definition click_exit (r : outcome string) (w : world) : world :=
  match r with
  | Returns analysis_result =>
      with_session (set_processing false)
        (with_session (set_analysis_completed true)
           (with_session (set_analysis_result (Some analysis_result)) w))
  | Raises _ => with_session (set_processing false) w
  end.

(** [st.session_state] with the two further entries that
    [reset_analysis_state] touches. *)
Record page_state : Type := {
  core : session_state;
  video_uploaded : bool;
  audio : option string
}.

(** [reset_analysis_state] (lines 867-881), on a session that
    [init_session_state] has filled: an entry that holds a bool becomes
    False, any other becomes None, and the [audio] entry is deleted. *)
Definition reset_analysis_state (p : page_state) : page_state :=
  {| core := set_audio None false false
               (set_analysis_result None
                  (set_analysis_completed false (core p)));
     video_uploaded := false;
     audio := None |}.

End OptimizedAppMore.

(* ================================================================== *)
(** ** optimized_app.py: the audio script and the voice audio *)

Module Audio.
Import Py OptimizedApp.

(** [maxsize] of the [lru_cache] decorator of line 1203. *)
Definition SCRIPT_CACHE_SIZE : nat := 10.

(** The store of [functools.lru_cache]: argument and result of the calls
    it remembers, the most recently used first. *)
Definition memo : Type := list (string * string).

Fixpoint memo_find (k : string) (c : memo) : option string :=
  match c with
  | [] => None
  | (k', v) :: c' => if String.eqb k' k then Some v else memo_find k c'
  end.

Fixpoint memo_remove (k : string) (c : memo) : memo :=
  match c with
  | [] => []
  | (k', v) :: c' =>
      if String.eqb k' k then memo_remove k c' else (k', v) :: memo_remove k c'
  end.

(** A hit moves the entry to the front. *)
Definition memo_hit (k v : string) (c : memo) : memo :=
  (k, v) :: memo_remove k c.

(** A miss stores the new result at the front; when the store is full the
    least recently used entry goes. *)
Definition memo_store (k v : string) (c : memo) : memo :=
  firstn SCRIPT_CACHE_SIZE ((k, v) :: c).

Section Script.

(** The reply of the remote side to the k-th generation call. *)
Variable script_reply : string -> nat -> outcome (option response).
(** The fixed text of the script prompt before and after the analysis. *)
Variable SCRIPT_HEAD SCRIPT_TAIL : string.

Definition script_prompt (analysis_text : string) : string :=
  SCRIPT_HEAD ++ analysis_text ++ SCRIPT_TAIL.

(** [model.generate_content(script_prompt)] *)
Definition generate_script (prompt : string) : M (option response) :=
  fun w =>
    let w' := {| session := session w;
                 clock_reads := clock_reads w;
                 upload_calls := upload_calls w;
                 get_calls := get_calls w;
                 generate_calls := S (generate_calls w);
                 sleeps := sleeps w |} in
    match script_reply prompt (generate_calls w) with
    | Returns r => Some (Returns r, w')
    | Raises e => Some (Raises e, w')
    end.

(** The body of [generate_audio_script] (lines 1204-1240).  The making of
    the model object at line 1206, before the [try], is left out. *)
Definition generate_audio_script_body (analysis_text : string) : M string :=
  try_except
    (response <- safe_api_call
       (generate_script (script_prompt analysis_text)) ;;
     match response with
     | None => ret analysis_text
     | Some r =>
         match text r with
         | Returns script => ret script
         | Raises e => raise e
         end
     end)
    (fun _ => ret analysis_text).

(** [generate_audio_script] under its [lru_cache(maxsize=10)]: the store is
    passed in and handed back. *)
Definition generate_audio_script (c : memo) (analysis_text : string)
  : M (string * memo) :=
  match memo_find analysis_text c with
  | Some script => ret (script, memo_hit analysis_text script c)
  | None =>
      script <- generate_audio_script_body analysis_text ;;
      ret (script, memo_store analysis_text script c)
  end.

End Script.

Section Speech.

(** What the ElevenLabs SDK hands back, and its truth value. *)
Variable audio : Type.
Variable audio_truthy : audio -> bool.
(** Whether the package was imported at start-up, and which of the two
    entry points the module has. *)
Variable ELEVENLABS_AVAILABLE : bool.
Variable has_generate has_Client : bool.
(** [elevenlabs.generate(text, voice, model, api_key)] and
    [elevenlabs.Client(api_key).generate(model, voice, text)], as functions
    of text, voice and key. *)
Variable module_generate : string -> string -> string -> outcome (option audio).
Variable client_generate : string -> string -> string -> outcome (option audio).

(** [generate_elevenlabs_audio] (lines 1242-1270) *)
Definition generate_elevenlabs_audio (script voice_id api_key : string)
  : option audio :=
  if negb ELEVENLABS_AVAILABLE then None
  else
    match
      (if has_generate then module_generate script voice_id api_key
       else if has_Client then client_generate script voice_id api_key
       else Returns None)
    with
    | Returns r => r
    | Raises _ => None
    end.

(** [generate_audio_analysis] (lines 1338-1359): the pair of the audio and
    the error message.  The [except] clause of line 1355 is left out: the
    call it guards catches every exception itself. *)
Definition generate_audio_analysis (audio_script voice_id : string)
  (elevenlabs_api_key : option string) : option audio * option string :=
  match elevenlabs_api_key with
  | None | Some "" => (None, Some "ElevenLabs API key not provided")
  | Some api_key =>
      if negb ELEVENLABS_AVAILABLE
      then (None, Some ("ElevenLabs package not installed. "
                        ++ "Install with: pip install elevenlabs"))
      else
        match generate_elevenlabs_audio audio_script voice_id api_key with
        | Some audio_bytes =>
            if audio_truthy audio_bytes then (Some audio_bytes, None)
            else (None, Some "Failed to generate audio with ElevenLabs")
        | None => (None, Some "Failed to generate audio with ElevenLabs")
        end
  end.

End Speech.

(** A remote side that fails once with an error that is no rate limit and
    answers from then on. *)
Definition flaky_script (_ : string) (k : nat) : outcome (option response) :=
  match k with
  | O => Raises (Exception "503 Service Unavailable")
  | S _ => Returns (Some {| text := Returns "Listen up." |})
  end.

End Audio.

(* ================================================================== *)
(** ** gradiocoach.py: the upload of the prepared files *)

(** Step A of stage 1 in [run_analysis_interface].  Calls to [progress] and
    to the logger are left out; every status line yielded, every remote
    call, every sleep and every clock reading is kept. *)

Module GradioUpload.
Import Py.

Definition FILE_PROCESSING_TIMEOUT : Z := 300.
Definition FILE_CHECK_INTERVAL : Z := 15.

(** The File object as far as the loop reads it: [file_ref.name] and
    [file_ref.state.name]. *)
Record file : Type := {
  name : string;
  state_name : string
}.

(** Every handler of the loop is [except Exception]; an exception is kept
    as its [str(e)]. *)
Inductive outcome (A : Type) : Type :=
| Returns (a : A)
| Raises (message : string).
Arguments Returns {A} a.
Arguments Raises {A} message.

(** One constructor per status line that the loop yields. *)
Inductive status : Type :=
| Uploading (number total : nat) (file_basename : string)
| Too_large (file_basename : string)
| Processing (number total : nat) (file_basename : string)
| Timeout (file_basename : string)
| Failed_processing (file_basename : string)
| Unexpected_state (file_basename state : string)
| Error_with_file (file_basename message : string)
| All_uploads_failed.

(** The two variables that the loop assigns, and what it has done to the
    outside so far: how often the clock was read and the remote functions
    were invoked, the names handed to [delete_file], the durations handed
    to [time.sleep] and the status lines yielded, each latest first. *)
Record world : Type := {
  file_ref : option file;
  active_file_refs : list file;
  clock_reads : nat;
  upload_calls : nat;
  get_calls : nat;
  deleted : list string;
  sleeps : list Z;
  yields : list status
}.

Definition initial_world : world := {|
  file_ref := None; active_file_refs := []; clock_reads := 0;
  upload_calls := 0; get_calls := 0; deleted := []; sleeps := [];
  yields := []
|}.

(** A computation; [None] means that the fuel of the loop ran out. *)
Definition G (A : Type) : Type := world -> option (outcome A * world).

Definition ret {A} (a : A) : G A := fun w => Some (Returns a, w).
Definition raise {A} (message : string) : G A :=
  fun w => Some (Raises message, w).

Definition bind {A B} (m : G A) (k : A -> G B) : G B :=
  fun w =>
    match m w with
    | None => None
    | Some (Returns a, w') => k a w'
    | Some (Raises e, w') => Some (Raises e, w')
    end.

Local Notation "x <- m ;; k" := (bind m (fun x => k))
  (at level 61, m at next level, right associativity).
Local Notation "m ;;; k" := (bind m (fun _ => k))
  (at level 61, right associativity).

Definition try_except {A} (m : G A) (h : string -> G A) : G A :=
  fun w =>
    match m w with
    | Some (Raises e, w') => h e w'
    | r => r
    end.

Definition get_file_ref : G (option file) :=
  fun w => Some (Returns (file_ref w), w).

Definition set_file_ref (r : option file) : G unit :=
  fun w => Some (Returns tt,
    {| file_ref := r; active_file_refs := active_file_refs w;
       clock_reads := clock_reads w; upload_calls := upload_calls w;
       get_calls := get_calls w; deleted := deleted w; sleeps := sleeps w;
       yields := yields w |}).

(** [active_file_refs.append(f)] *)
Definition append_active (f : file) : G unit :=
  fun w => Some (Returns tt,
    {| file_ref := file_ref w;
       active_file_refs := (active_file_refs w ++ [f])%list;
       clock_reads := clock_reads w; upload_calls := upload_calls w;
       get_calls := get_calls w; deleted := deleted w; sleeps := sleeps w;
       yields := yields w |}).

Definition yield (s : status) : G unit :=
  fun w => Some (Returns tt,
    {| file_ref := file_ref w; active_file_refs := active_file_refs w;
       clock_reads := clock_reads w; upload_calls := upload_calls w;
       get_calls := get_calls w; deleted := deleted w; sleeps := sleeps w;
       yields := s :: yields w |}).

Definition sleep (d : Z) : G unit :=
  fun w => Some (Returns tt,
    {| file_ref := file_ref w; active_file_refs := active_file_refs w;
       clock_reads := clock_reads w; upload_calls := upload_calls w;
       get_calls := get_calls w; deleted := deleted w;
       sleeps := d :: sleeps w; yields := yields w |}).

Section Remote.

(** The outside: the k-th reading of [time.time()], the size in bytes that
    [os.path.getsize] reports, the reply to the k-th invocation of each
    remote function, and [os.path.basename]. *)
Variable time_time : nat -> Q.
Variable getsize : string -> outcome Z.
Variable upload_reply : string -> nat -> outcome file.
Variable get_reply : string -> nat -> outcome file.
Variable delete_reply : string -> nat -> outcome unit.
Variable basename : string -> string.

Definition now : G Q :=
  fun w => Some (Returns (time_time (clock_reads w)),
    {| file_ref := file_ref w; active_file_refs := active_file_refs w;
       clock_reads := S (clock_reads w); upload_calls := upload_calls w;
       get_calls := get_calls w; deleted := deleted w; sleeps := sleeps w;
       yields := yields w |}).

(** [os.path.getsize(file_path)] *)
Definition path_getsize (file_path : string) : G Z :=
  fun w => Some (getsize file_path, w).

(** [genai.upload_file(path=file_path, display_name=file_basename)] *)
Definition upload_file (file_path : string) : G file :=
  fun w => Some (upload_reply file_path (upload_calls w),
    {| file_ref := file_ref w; active_file_refs := active_file_refs w;
       clock_reads := clock_reads w; upload_calls := S (upload_calls w);
       get_calls := get_calls w; deleted := deleted w; sleeps := sleeps w;
       yields := yields w |}).

(** [genai.get_file(name=n)] *)
Definition get_file (n : string) : G file :=
  fun w => Some (get_reply n (get_calls w),
    {| file_ref := file_ref w; active_file_refs := active_file_refs w;
       clock_reads := clock_reads w; upload_calls := upload_calls w;
       get_calls := S (get_calls w); deleted := deleted w;
       sleeps := sleeps w; yields := yields w |}).

(** [genai.delete_file(name=n)] *)
Definition delete_file (n : string) : G unit :=
  fun w => Some (delete_reply n (List.length (deleted w)),
    {| file_ref := file_ref w; active_file_refs := active_file_refs w;
       clock_reads := clock_reads w; upload_calls := upload_calls w;
       get_calls := get_calls w; deleted := n :: deleted w;
       sleeps := sleeps w; yields := yields w |}).

(** [try: genai.delete_file(name=n)  except Exception: ...] with a handler
    that only logs. *)
Definition try_delete (n : string) : G unit :=
  try_except (delete_file n) (fun _ => ret tt).

(** The [while] loop of lines 1015-1030; each round costs one unit of
    [fuel].  The loop is left by the test at its head or by one of the two
    [break]s, which set [file_ref] to None. *)
Fixpoint wait_while_processing (fuel : nat) (start_wait_time : Q)
  (file_basename : string) : G unit :=
  r <- get_file_ref ;;
  match r with
  | None => raise "'NoneType' object has no attribute 'state'"
  | Some f =>
      if String.eqb (state_name f) "PROCESSING" then
        match fuel with
        | O => fun _ => None
        | S fuel' =>
            t <- now ;;
            let elapsed_wait := (t - start_wait_time)%Q in
            if negb (Qle_bool elapsed_wait (inject_Z FILE_PROCESSING_TIMEOUT))
            then
              yield (Timeout file_basename) ;;;
              try_delete (name f) ;;;
              set_file_ref None
            else
              sleep FILE_CHECK_INTERVAL ;;;
              fetched <-
                try_except
                  (f' <- get_file (name f) ;;
                   set_file_ref (Some f') ;;;
                   ret true)
                  (fun _ =>
                     try_delete (name f) ;;;
                     set_file_ref None ;;;
                     ret false) ;;
              if fetched
              then wait_while_processing fuel' start_wait_time file_basename
              else ret tt
        end
      else ret tt
  end.

(** Lines 1032-1047: what is done with the file once the loop is left. *)
Definition after_wait (file_basename : string) : G unit :=
  r <- get_file_ref ;;
  match r with
  | None => ret tt
  | Some f =>
      _ <- now ;;
      if String.eqb (state_name f) "ACTIVE" then append_active f
      else if String.eqb (state_name f) "FAILED" then
        yield (Failed_processing file_basename) ;;;
        try_delete (name f)
      else
        yield (Unexpected_state file_basename (state_name f)) ;;;
        try_delete (name f)
  end.

(** The body of the [for] loop over the prepared files (lines 997-1053),
    for the file at position [idx] of [total]. *)
Definition process_file (fuel idx total : nat) (file_path : string)
  : G unit :=
  set_file_ref None ;;;
  let file_basename := basename file_path in
  yield (Uploading (idx + 1) total file_basename) ;;;
  try_except
    (size <- path_getsize file_path ;;
     let file_size_mb := (inject_Z size / inject_Z (1024 * 1024))%Q in
     if negb (Qle_bool file_size_mb 1990)
     then yield (Too_large file_basename)
     else
       _ <- now ;;
       f <- upload_file file_path ;;
       set_file_ref (Some f) ;;;
       _ <- now ;;
       yield (Processing (idx + 1) total file_basename) ;;;
       start_wait_time <- now ;;
       wait_while_processing fuel start_wait_time file_basename ;;;
       after_wait file_basename)
    (fun e =>
       yield (Error_with_file file_basename e) ;;;
       r <- get_file_ref ;;
       match r with
       | Some f => try_delete (name f)
       | None => ret tt
       end).

(** The [for] loop. *)
Fixpoint upload_files (fuel idx total : nat) (files : list string)
  : G unit :=
  match files with
  | [] => ret tt
  | file_path :: rest =>
      process_file fuel idx total file_path ;;;
      upload_files fuel (S idx) total rest
  end.

(** Step A of stage 1 (lines 993-1056).  The result tells whether the
    generator goes on; it stops when every upload failed and there is no
    YouTube link. *)
Definition upload_stage (fuel : nat) (processed_for_file_api : list string)
  (youtube_link_to_process : option string) : G bool :=
  match processed_for_file_api with
  | [] => ret true
  | _ =>
      let total_files_to_upload := List.length processed_for_file_api in
      upload_files fuel 0 total_files_to_upload processed_for_file_api ;;;
      w <- (fun w => Some (Returns w, w)) ;;
      match active_file_refs w, youtube_link_to_process with
      | [], None | [], Some "" =>
          yield All_uploads_failed ;;; ret false
      | _, _ => ret true
      end
  end.

End Remote.

(** *** Vocabulary of the statements *)

Definition all_active (l : list file) : Prop :=
  Forall (fun f => state_name f = "ACTIVE") l.

(** The world after [n] rounds of the loop that each found the time under
    the ceiling and got an answer, the last one being [f]. *)
Definition after_polls (n : nat) (f : file) (w : world) : world :=
  {| file_ref := Some f; active_file_refs := active_file_refs w;
     clock_reads := n + clock_reads w; upload_calls := upload_calls w;
     get_calls := n + get_calls w; deleted := deleted w;
     sleeps := (repeat FILE_CHECK_INTERVAL n ++ sleeps w)%list;
     yields := yields w |}.

(** A remote side on which the file is in state PROCESSING for the upload
    and the first two polls and in state ACTIVE from the third poll on,
    with a clock that advances one second per reading. *)
Definition demo_file (i : nat) : file :=
  {| name := "files/abc";
     state_name := if Nat.ltb i 3 then "PROCESSING" else "ACTIVE" |}.
Definition demo_clock (k : nat) : Q := inject_Z (Z.of_nat k).
Definition demo_getsize (_ : string) : outcome Z := Returns 5000000%Z.
Definition demo_upload (_ : string) (_ : nat) : outcome file :=
  Returns (demo_file 0).
Definition demo_get (_ : string) (k : nat) : outcome file :=
  Returns (demo_file (S k)).
Definition demo_delete (_ : string) (_ : nat) : outcome unit := Returns tt.
Definition demo_basename (p : string) : string := p.

(** A remote side on which the file never leaves state PROCESSING, with a
    clock that jumps from 0 to 400 s at its fifth reading. *)
Definition stuck_file : file :=
  {| name := "files/abc"; state_name := "PROCESSING" |}.
Definition jump_clock (k : nat) : Q := if Nat.ltb k 4 then 0%Q else 400%Q.

End GradioUpload.

(* ================================================================== *)
(** ** gradiocoach.py: Drive links and the names of cached files *)

Module PySlice.

(** [s[:n]] for [n >= 0] *)
Fixpoint take (n : nat) (s : string) : string :=
  match n, s with
  | S n', String c s' => String c (take n' s')
  | _, _ => ""
  end.

(** [s[:k]] for any integer [k]: a negative [k] counts from the end. *)
Definition slice_to (k : Z) (s : string) : string :=
  if (0 <=? k)%Z then take (Z.to_nat k) s
  else take (length s - Z.to_nat (- k)) s.

(** [s.rfind(c)]: the index of the last [c], or -1. *)
Fixpoint rfind (c : ascii) (s : string) : Z :=
  match s with
  | "" => (-1)%Z
  | String x s' =>
      let r := rfind c s' in
      if (0 <=? r)%Z then (r + 1)%Z
      else if Ascii.eqb x c then 0%Z else (-1)%Z
  end.

(** Whether every character of [s] passes [f]. *)
Fixpoint all_chars (f : ascii -> bool) (s : string) : bool :=
  match s with
  | "" => true
  | String c s' => f c && all_chars f s'
  end.

End PySlice.

Module DriveUrl.
Import Py PySlice.

(** The class [[a-zA-Z0-9_-]]. *)
Definition is_id_char (c : ascii) : bool :=
  let n := N_of_ascii c in
  ((97 <=? n) && (n <=? 122) || (65 <=? n) && (n <=? 90)
   || (48 <=? n) && (n <=? 57) || (n =? 95) || (n =? 45))%N.

(** Length of the longest prefix made of such characters. *)
Fixpoint span_id (s : string) : nat :=
  match s with
  | "" => 0
  | String c s' => if is_id_char c then S (span_id s') else 0
  end.

(** One attempt of the pattern [lit([a-zA-Z0-9_-]{25,})] at the start of
    [s]: group 1 of the match.  The repetition is greedy and nothing follows
    it, so the group is the whole run. *)
Definition match_here (lit s : string) : option string :=
  if prefix lit s then
    let r := drop (length lit) s in
    if Nat.leb 25 (span_id r) then Some (take (span_id r) r) else None
  else None.

(** [re.search(pattern, s)]: the match at the leftmost position that has
    one. *)
Fixpoint search_id (lit s : string) : option string :=
  match match_here lit s with
  | Some file_id => Some file_id
  | None =>
      match s with
      | "" => None
      | String _ s' => search_id lit s'
      end
  end.

(** The literal heads of the four patterns of lines 192-197. *)
Definition patterns : list string :=
  ["/file/d/"; "id="; "/folders/"; "uc?id="].

(** The loop over the patterns. *)
Fixpoint first_match (ps : list string) (url : string) : option string :=
  match ps with
  | [] => None
  | pattern :: ps' =>
      match search_id pattern url with
      | Some file_id => Some file_id
      | None => first_match ps' url
      end
  end.

Definition extract_drive_file_id (url : string) : option string :=
  first_match patterns url.

End DriveUrl.

Module CacheName.
Import Py PySlice.

(** The class [\w] of a [str] pattern, on the code points below 256. *)
Definition is_word (c : ascii) : bool :=
  let n := N_of_ascii c in
  ((48 <=? n) && (n <=? 57) || (65 <=? n) && (n <=? 90) || (n =? 95)
   || (97 <=? n) && (n <=? 122)
   || (n =? 170) || (n =? 178) || (n =? 179) || (n =? 181) || (n =? 185)
   || (n =? 186) || (n =? 188) || (n =? 189) || (n =? 190)
   || (192 <=? n) && (n <=? 214) || (216 <=? n) && (n <=? 246)
   || (248 <=? n) && (n <=? 255))%N.

(** The class [[\w.\-_]]. *)
Definition safe_char (c : ascii) : bool :=
  is_word c || Ascii.eqb c "." || Ascii.eqb c "-" || Ascii.eqb c "_".

(** [re.sub(r'\s+', '_', s)]: every maximal run of whitespace becomes one
    underscore.  [in_run] tells whether the previous character was
    whitespace. *)
Fixpoint sub_ws (in_run : bool) (s : string) : string :=
  match s with
  | "" => ""
  | String c s' =>
      if isspace c
      then if in_run then sub_ws true s' else String "_" (sub_ws true s')
      else String c (sub_ws false s')
  end.

(** [re.sub(r'[^\w.\-_]', '', s)] *)
Fixpoint keep_safe (s : string) : string :=
  match s with
  | "" => ""
  | String c s' =>
      if safe_char c then String c (keep_safe s') else keep_safe s'
  end.

(** [os.path.splitext], with [os.path] being posixpath: the extension
    starts at the last dot, provided the dot comes after the last slash and
    some character between the two is not a dot. *)
Definition splitext (p : string) : string * string :=
  let sepIndex := rfind "/" p in
  let dotIndex := rfind "." p in
  if (sepIndex <? dotIndex)%Z then
    let between :=
      take (Z.to_nat (dotIndex - (sepIndex + 1)))
        (drop (Z.to_nat (sepIndex + 1)) p) in
    if all_chars (fun c => Ascii.eqb c ".") between then (p, "")
    else (take (Z.to_nat dotIndex) p, drop (Z.to_nat dotIndex) p)
  else (p, "").

Definition max_len : Z := 100.

(** Lines 363-368 of [cache_uploaded_file]: the file name made safe and
    cut to [max_len]. *)
Definition safe_filename_base (original_filename : string) : string :=
  let safe_filename_base := keep_safe (sub_ws false original_filename) in
  if (max_len <? Z.of_nat (length safe_filename_base))%Z then
    let (name_part, ext) := splitext safe_filename_base in
    slice_to (max_len - Z.of_nat (length ext)) name_part ++ ext
  else safe_filename_base.

(** The extension that the cut keeps. *)
Definition kept_ext (original_filename : string) : string :=
  snd (splitext (keep_safe (sub_ws false original_filename))).

End CacheName.

(* ================================================================== *)
(** * Properties *)

Import Py Fence Json Stage2 Report OptimizedApp OptimizedAppMore.

(** ** The retrying call wrapper *)

Section Wrapper.

Context {A : Type}.
Variable func : M (option A).

Lemma backoff_eq (attempt : nat) (w : world) :
  backoff attempt w = Some (Returns tt, after_backoff attempt w).
Proof. reflexivity. Qed.

(** One round of the loop on an attempt that returns. *)
Lemma safe_api_call_from_returns remaining attempt w a w' :
  func w = Some (Returns a, w') ->
  safe_api_call_from (S remaining) attempt func w = Some (Returns a, w').
Proof.
  intros Hf. cbn [safe_api_call_from]. unfold try_except. rewrite Hf.
  reflexivity.
Qed.

(** One round on a rate-limit error with attempts left. *)
Lemma safe_api_call_from_retries remaining attempt w text w' :
  func w = Some (Raises (GoogleAPIError text), w') ->
  is_rate_limit text = true ->
  (attempt < API_MAX_RETRIES - 1)%nat ->
  safe_api_call_from (S remaining) attempt func w =
  safe_api_call_from remaining (S attempt) func (after_backoff attempt w').
Proof.
  intros Hf Hr Hlt. cbn [safe_api_call_from]. unfold try_except.
  rewrite Hf, Hr.
  apply Nat.ltb_lt in Hlt. rewrite Hlt. reflexivity.
Qed.

(** One round on an error that is not retried. *)
Lemma safe_api_call_from_raises remaining attempt w e w' :
  func w = Some (Raises e, w') ->
  rate_limited e = false ->
  safe_api_call_from (S remaining) attempt func w = Some (Raises e, w').
Proof.
  intros Hf Hr. cbn [safe_api_call_from]. unfold try_except. rewrite Hf.
  destruct e as [text | text | text]; try reflexivity.
  cbn in Hr. rewrite Hr. reflexivity.
Qed.

(** One round on a rate-limit error at the last attempt. *)
Lemma safe_api_call_from_exhausted remaining w text w' :
  func w = Some (Raises (GoogleAPIError text), w') ->
  safe_api_call_from (S remaining) (API_MAX_RETRIES - 1) func w
  = Some (Raises (GoogleAPIError text), w').
Proof.
  intros Hf. cbn [safe_api_call_from]. unfold try_except. rewrite Hf.
  rewrite Nat.ltb_irrefl, andb_false_r. reflexivity.
Qed.

(** C2.  A call that raises a rate-limit error on attempts 1 and 2 and
    returns on attempt 3: the wrapper returns that third result, and, the
    call itself not sleeping, it has slept 2 s and then 4 s, 6 s in all. *)
Theorem safe_api_call_third_attempt
  (w0 w1 w2 w3 : world) (t1 t2 : string) (a : option A) :
  func w0 = Some (Raises (GoogleAPIError t1), w1) ->
  is_rate_limit t1 = true ->
  func (after_backoff 0 w1) = Some (Raises (GoogleAPIError t2), w2) ->
  is_rate_limit t2 = true ->
  func (after_backoff 1 w2) = Some (Returns a, w3) ->
  sleeps w1 = sleeps w0 ->
  sleeps w2 = sleeps (after_backoff 0 w1) ->
  sleeps w3 = sleeps (after_backoff 1 w2) ->
  safe_api_call func w0 = Some (Returns a, w3) /\
  sleeps w3 = (4 :: 2 :: sleeps w0)%Q /\
  (total_sleep w3 == total_sleep w0 + 6)%Q.
Proof.
  intros H1 R1 H2 R2 H3 S1 S2 S3.
  assert (Hs : sleeps w3 = (4 :: 2 :: sleeps w0)%Q).
  { rewrite S3. cbn [after_backoff sleeps]. rewrite S2.
    cbn [after_backoff sleeps]. rewrite S1. reflexivity. }
  split; [| split].
  - unfold safe_api_call, API_MAX_RETRIES.
    rewrite (safe_api_call_from_retries _ _ _ _ _ H1 R1) by (cbn; lia).
    rewrite (safe_api_call_from_retries _ _ _ _ _ H2 R2) by (cbn; lia).
    apply safe_api_call_from_returns. exact H3.
  - exact Hs.
  - unfold total_sleep. rewrite Hs. cbn [fold_right]. ring.
Qed.

(** C3.  A call whose first attempt raises an error that is not a rate-limit
    error: the wrapper raises that same error and leaves the world as the
    single attempt left it, so nothing was slept and any counter [calls] that
    every invocation bumps by one has moved by exactly one. *)
Theorem safe_api_call_no_retry
  (w0 w1 : world) (e : exn) (calls : world -> nat) :
  func w0 = Some (Raises e, w1) ->
  rate_limited e = false ->
  (forall w r w', func w = Some (r, w') -> calls w' = S (calls w)) ->
  sleeps w1 = sleeps w0 ->
  safe_api_call func w0 = Some (Raises e, w1) /\
  (forall r w', safe_api_call func w0 = Some (r, w') ->
                calls w' = S (calls w0) /\ sleeps w' = sleeps w0).
Proof.
  intros Hf Hr Hc Hs.
  assert (E : safe_api_call func w0 = Some (Raises e, w1)).
  { unfold safe_api_call, API_MAX_RETRIES.
    apply safe_api_call_from_raises; assumption. }
  split; [exact E |].
  intros r w' Hrun. rewrite E in Hrun. inversion Hrun; subst.
  split; [apply (Hc _ _ _ Hf) | exact Hs].
Qed.

End Wrapper.

Lemma safe_api_call_third_attempt_witness :
  let reply := fun (_ : string) (k : nat) =>
    match k with
    | 0 | 1 => Raises (GoogleAPIError "429 Quota exceeded")
    | _ => Returns (Some (file_in_state "PROCESSING"))
    end in
  let w3 := {| session := set_progress_detail
                 "API rate limit hit, retrying in 2s..." initial_session;
               clock_reads := 0; upload_calls := 3; get_calls := 0;
               generate_calls := 0; sleeps := (4 :: 2 :: nil)%Q |} in
  safe_api_call (upload_file reply "v.mp4") initial_world
    = Some (Returns (Some (file_in_state "PROCESSING")), w3) /\
  sleeps w3 = (4 :: 2 :: sleeps initial_world)%Q /\
  (total_sleep w3 == total_sleep initial_world + 6)%Q.
Proof.
  intros reply w3.
  eapply (safe_api_call_third_attempt (upload_file reply "v.mp4")
            initial_world _ _ w3 "429 Quota exceeded" "429 Quota exceeded");
    reflexivity.
Defined.

Lemma safe_api_call_no_retry_witness :
  let reply := fun (_ : string) (k : nat) =>
    @Raises (option file) (GoogleAPIError "403 Permission denied") in
  let w1 := {| session := initial_session;
               clock_reads := 0; upload_calls := 1; get_calls := 0;
               generate_calls := 0; sleeps := nil |} in
  safe_api_call (upload_file reply "v.mp4") initial_world
    = Some (Raises (GoogleAPIError "403 Permission denied"), w1) /\
  (forall r w', safe_api_call (upload_file reply "v.mp4") initial_world
                = Some (r, w') ->
                upload_calls w' = 1 /\ sleeps w' = sleeps initial_world).
Proof.
  intros reply w1.
  apply (safe_api_call_no_retry (upload_file reply "v.mp4") initial_world w1
           (GoogleAPIError "403 Permission denied") upload_calls).
  - reflexivity.
  - reflexivity.
  - intros w r w' H. unfold upload_file in H. simpl in H.
    inversion H. reflexivity.
  - reflexivity.
Defined.

(** ** The result cache *)

Section Analysis.

Variable time_time : nat -> Q.
Variable upload_reply : string -> nat -> outcome (option file).
Variable get_reply : string -> nat -> outcome (option file).
Variable generate_reply : string -> file -> nat -> outcome (option response).
Variable PROMPT_HEAD PROMPT_TAIL : string.

Local Abbreviation analyze :=
  (analyze_wrestling_video time_time upload_reply get_reply generate_reply
     PROMPT_HEAD PROMPT_TAIL).

Lemma analyze_hit fuel video_path user_query w r :
  cache_lookup (session w) (cache_key video_path user_query) = Some r ->
  analyze fuel video_path user_query w
  = Some (Returns r, after_hit (time_time (clock_reads w)) w).
Proof.
  intros H. unfold analyze_wrestling_video, bind, now, update,
    get_session, sleep, ret. cbn.
  unfold cache_lookup in *. cbn. 
  destruct (cache_id (session w)); [| discriminate].
  destruct (analysis_result (session w)); [| discriminate].
  destruct (_ && _); [| discriminate].
  inversion H; subst. reflexivity.
Qed.

Lemma cache_lookup_stored s key r :
  cache_id s = Some key -> analysis_result s = Some r -> r <> "" ->
  cache_lookup s key = Some r.
Proof.
  intros Hk Hr Hne. unfold cache_lookup. rewrite Hk, Hr.
  rewrite String.eqb_refl.
  destruct (String.eqb r "") eqn:E.
  - apply String.eqb_eq in E. contradiction.
  - reflexivity.
Qed.



(** *** What a run leaves untouched *)

Lemma stable_refl w : stable w w.
Proof. unfold stable. repeat split; lia. Qed.

Lemma stable_trans w1 w2 w3 : stable w1 w2 -> stable w2 w3 -> stable w1 w3.
Proof.
  unfold stable. intros (a1 & a2 & a3 & a4 & a5 & a6)
    (b1 & b2 & b3 & b4 & b5 & b6).
  repeat split; try congruence; lia.
Qed.

Lemma keeps_ret {A} (a : A) : keeps (ret a).
Proof. intros w r w' H. inversion H. apply stable_refl. Qed.

Lemma keeps_raise {A} (e : exn) : keeps (@raise A e).
Proof. intros w r w' H. inversion H. apply stable_refl. Qed.

Lemma keeps_bind {A B} (m : M A) (k : A -> M B) :
  keeps m -> (forall a, keeps (k a)) -> keeps (bind m k).
Proof.
  intros Hm Hk w r w' H. unfold bind in H.
  destruct (m w) as [[[a | e] w1] |] eqn:E; try discriminate.
  - eapply stable_trans; [eapply Hm; eassumption | eapply Hk; eassumption].
  - inversion H; subst. eapply Hm; eassumption.
Qed.

Lemma keeps_try_except {A} (m : M A) (h : exn -> M A) :
  keeps m -> (forall e, keeps (h e)) -> keeps (try_except m h).
Proof.
  intros Hm Hh w r w' H. unfold try_except in H.
  destruct (m w) as [[[a | e] w1] |] eqn:E; try discriminate.
  - inversion H; subst. eapply Hm; eassumption.
  - eapply stable_trans; [eapply Hm; eassumption | eapply Hh; eassumption].
Qed.

Lemma keeps_try_finally {A} (m : M A) (f : M unit) :
  keeps m -> keeps f -> keeps (try_finally m f).
Proof.
  intros Hm Hf w r w' H. unfold try_finally in H.
  destruct (m w) as [[r1 w1] |] eqn:E; try discriminate.
  destruct (f w1) as [[[u | e] w2] |] eqn:E2; try discriminate;
    inversion H; subst;
    (eapply stable_trans; [eapply Hm; eassumption | eapply Hf; eassumption]).
Qed.

Lemma keeps_update (f : session_state -> session_state) :
  (forall s, cache_id (f s) = cache_id s /\
             analysis_result (f s) = analysis_result s /\
             cache_hits (f s) = cache_hits s) ->
  keeps (update f).
Proof.
  intros Hf w r w' H. inversion H; subst. unfold stable. cbn.
  destruct (Hf (session w)) as (a & b & c). repeat split; auto.
Qed.

Lemma keeps_sleep d : keeps (sleep d).
Proof.
  intros w r w' H. inversion H; subst. unfold stable. cbn.
  repeat split; lia.
Qed.

Lemma keeps_now : keeps (now time_time).
Proof.
  intros w r w' H. inversion H; subst. unfold stable. cbn.
  repeat split; lia.
Qed.

Lemma keeps_upload_file p : keeps (upload_file upload_reply p).
Proof.
  intros w r w' H. unfold upload_file in H.
  destruct (upload_reply p (upload_calls w)); inversion H; subst;
    unfold stable; cbn; repeat split; lia.
Qed.

Lemma keeps_get_file n : keeps (get_file get_reply n).
Proof.
  intros w r w' H. unfold get_file in H.
  destruct (get_reply n (get_calls w)); inversion H; subst;
    unfold stable; cbn; repeat split; lia.
Qed.

Lemma keeps_generate_content p v :
  keeps (generate_content generate_reply p v).
Proof.
  intros w r w' H. unfold generate_content in H.
  destruct (generate_reply p v (generate_calls w)); inversion H; subst;
    unfold stable; cbn; repeat split; lia.
Qed.

Ltac keeps_step :=
  first
    [ apply keeps_ret | apply keeps_raise | apply keeps_sleep
    | apply keeps_now | apply keeps_upload_file | apply keeps_get_file
    | apply keeps_generate_content
    | apply keeps_update; intros; cbn; repeat split; reflexivity
    | apply keeps_bind; [| intros ?]
    | apply keeps_try_except; [| intros ?]
    | apply keeps_try_finally ].

Lemma keeps_safe_api_call_from {A} remaining attempt (func : M (option A)) :
  keeps func -> keeps (safe_api_call_from remaining attempt func).
Proof.
  intros Hf. revert attempt.
  induction remaining as [| remaining IH]; intros attempt; cbn.
  - apply keeps_ret.
  - apply keeps_try_except; [exact Hf |].
    intros [text | text | text]; try apply keeps_raise.
    destruct (_ && _); [| apply keeps_raise].
    unfold backoff. repeat keeps_step. apply IH.
Qed.

Lemma keeps_safe_api_call {A} (func : M (option A)) :
  keeps func -> keeps (safe_api_call func).
Proof. apply keeps_safe_api_call_from. Qed.

Ltac keeps_auto :=
  repeat first [ apply keeps_safe_api_call | keeps_step ].

Lemma keeps_wait_for_processing fuel start v :
  keeps (wait_for_processing time_time get_reply fuel start v).
Proof.
  revert v. induction fuel as [| fuel IH]; intros v;
    cbn [wait_for_processing];
    destruct (String.eqb (state_name v) "PROCESSING").
  - intros w r w' H. discriminate.
  - apply keeps_ret.
  - apply keeps_bind; [apply keeps_now |]. intros t.
    destruct (negb _); [apply keeps_raise |].
    keeps_auto.
    destruct a1 as [v' |]; [apply IH | apply keeps_raise].
  - apply keeps_ret.
Qed.

Local Abbreviation pipeline :=
  (run_pipeline time_time upload_reply get_reply generate_reply
     PROMPT_HEAD PROMPT_TAIL).

Lemma keeps_analysis_handler e : keeps (analysis_handler e).
Proof. unfold analysis_handler. keeps_auto. Qed.

Lemma keeps_measure_performance {A} (body : M A) :
  keeps body -> keeps (measure_performance time_time body).
Proof.
  intros Hb. unfold measure_performance. keeps_auto. exact Hb.
Qed.

Lemma keeps_generate_feedback user_query v :
  keeps (generate_feedback generate_reply PROMPT_HEAD PROMPT_TAIL
           user_query v).
Proof.
  unfold generate_feedback. keeps_auto.
  destruct (negb _); [apply keeps_raise |].
  keeps_auto.
  match goal with |- keeps (match ?x with _ => _ end) => destruct x end;
    keeps_auto.
  match goal with |- keeps (match ?x with _ => _ end) => destruct x end;
    keeps_auto.
Qed.

(** After the upload call the pipeline only moves the world in a stable
    way. *)
Lemma keeps_after_upload fuel user_query (r : option file) :
  keeps
    match r with
    | None => raise (Exception "Video upload failed")
    | Some processed_video =>
        update (set_current_step "processing") ;;;
        update (set_progress_percent 30) ;;;
        processing_start <- now time_time ;;
        processed_video <-
          wait_for_processing time_time get_reply fuel processing_start
            processed_video ;;
        generate_feedback generate_reply PROMPT_HEAD PROMPT_TAIL
          user_query processed_video
    end.
Proof.
  destruct r as [v |]; [| apply keeps_raise].
  apply keeps_bind; [keeps_step | intros _].
  apply keeps_bind; [keeps_step | intros _].
  apply keeps_bind; [apply keeps_now | intros t].
  apply keeps_bind; [apply keeps_wait_for_processing | intros v'].
  apply keeps_generate_feedback.
Qed.

Lemma keeps_run_pipeline fuel video_path user_query :
  keeps (pipeline fuel video_path user_query).
Proof.
  unfold run_pipeline. keeps_auto. apply keeps_after_upload.
Qed.

(** A completed run of the wrapper made a first attempt, and moved the world
    in a stable way after it. *)
Lemma safe_api_call_from_first {A} remaining attempt (func : M (option A))
  w r w' :
  keeps func ->
  safe_api_call_from (S remaining) attempt func w = Some (r, w') ->
  exists r1 w1, func w = Some (r1, w1) /\ stable w1 w'.
Proof.
  intros Hk. cbn [safe_api_call_from]. unfold try_except.
  destruct (func w) as [[[a | e] w1] |] eqn:E; try discriminate; intros H.
  - inversion H; subst. eexists _, _. split; [reflexivity | apply stable_refl].
  - exists (Raises e), w1. split; [reflexivity |].
    destruct e as [text | text | text];
      try (inversion H; subst; apply stable_refl).
    destruct (_ && _); [| inversion H; subst; apply stable_refl].
    revert H. apply keeps_bind.
    + unfold backoff. keeps_auto.
    + intros _. apply keeps_safe_api_call_from. exact Hk.
Qed.

(** A completed call of the wrapped upload has invoked the remote upload at
    least once. *)
Lemma safe_api_call_upload_counts video_path w r w' :
  safe_api_call (upload_file upload_reply video_path) w = Some (r, w') ->
  (upload_calls w < upload_calls w')%nat.
Proof.
  unfold safe_api_call, API_MAX_RETRIES. intros H.
  apply safe_api_call_from_first in H; [| apply keeps_upload_file].
  destruct H as (r1 & w1 & E & (_ & _ & _ & Hs & _)).
  unfold upload_file in E.
  destruct (upload_reply _ _); inversion E; subst; cbn in Hs; lia.
Qed.

Lemma analyze_miss_eq fuel video_path user_query w :
  cache_lookup (session w) (cache_key video_path user_query) = None ->
  analyze fuel video_path user_query w =
  try_except
    (measure_performance time_time (pipeline fuel video_path user_query))
    analysis_handler
    (miss_entry (time_time (clock_reads w)) video_path user_query w).
Proof.
  intros Hmiss.
  unfold analyze_wrestling_video, bind at 1, now.
  unfold bind at 1, update.
  unfold bind at 1, get_session.
  cbn [session with_session].
  change (cache_lookup (set_analysis_start_time _ (session w)) _)
    with (cache_lookup (session w) (cache_key video_path user_query)).
  rewrite Hmiss. reflexivity.
Qed.

(** A miss runs the pipeline: the slot takes the new key, the remote upload
    is invoked and the hit counter stays. *)
Lemma analyze_miss fuel video_path user_query w r w' :
  cache_lookup (session w) (cache_key video_path user_query) = None ->
  analyze fuel video_path user_query w = Some (r, w') ->
  cache_id (session w') = Some (cache_key video_path user_query) /\
  (upload_calls w < upload_calls w')%nat /\
  cache_hits (session w') = cache_hits (session w).
Proof.
  intros Hmiss H. rewrite (analyze_miss_eq _ _ _ _ Hmiss) in H.
  set (w0 := miss_entry _ _ _ _) in H.
  unfold try_except in H.
  destruct (measure_performance _ _ w0) as [[o w1] |] eqn:E;
    [| discriminate].
  assert (S1 : stable w1 w').
  { destruct o as [a | e].
    - inversion H; subst. apply stable_refl.
    - eapply keeps_analysis_handler. exact H. }
  unfold measure_performance, bind at 1, now in E.
  set (w0' := {| session := session w0; clock_reads := S (clock_reads w0);
                 upload_calls := upload_calls w0; get_calls := get_calls w0;
                 generate_calls := generate_calls w0; sleeps := sleeps w0 |})
    in E.
  unfold try_finally in E.
  destruct (pipeline fuel video_path user_query w0') as [[o2 w2] |] eqn:E2;
    [| discriminate].
  assert (S21 : stable w2 w1).
  { unfold bind, now, update in E. cbn in E.
    destruct o2; inversion E; subst; unfold stable; cbn;
      repeat split; lia. }
  unfold run_pipeline in E2.
  unfold bind at 1, update in E2.
  unfold bind at 1 in E2.
  unfold bind at 1 in E2.
  match type of E2 with
  | match ?m ?w0 with _ => _ end = _ =>
      destruct (m w0) as [[o3 w3] |] eqn:E3; [| discriminate]
  end.
  pose proof (safe_api_call_upload_counts _ _ _ _ E3) as Lup.
  pose proof (keeps_safe_api_call _ (keeps_upload_file video_path) _ _ _ E3)
    as S3.
  assert (S32 : stable w3 w2).
  { destruct o3 as [a | e].
    - eapply keeps_after_upload. exact E2.
    - inversion E2; subst. apply stable_refl. }
  pose proof (stable_trans _ _ _ (stable_trans _ _ _ S32 S21) S1)
    as (c1 & c2 & c3 & c4 & c5 & c6).
  destruct S3 as (d1 & d2 & d3 & d4 & d5 & d6).
  cbn in Lup, d1, d3.
  repeat split; try congruence. lia.
Qed.

Lemma analyze_sets_cache_id fuel video_path user_query w r w' :
  analyze fuel video_path user_query w = Some (r, w') ->
  cache_id (session w') = Some (cache_key video_path user_query).
Proof.
  intros H.
  destruct (cache_lookup (session w) (cache_key video_path user_query))
    as [r0 |] eqn:L.
  - rewrite (analyze_hit _ _ _ _ _ L) in H. inversion H; subst. cbn.
    unfold cache_lookup in L.
    destruct (cache_id (session w)) as [id |]; [| discriminate].
    destruct (analysis_result (session w)); [| discriminate].
    destruct (String.eqb id _) eqn:E; [| discriminate].
    apply String.eqb_eq in E. congruence.
  - apply (analyze_miss _ _ _ _ _ _ L H).
Qed.


(** *** The poll loop *)

Lemma bind_returns {A B} (m : M A) (k : A -> M B) w a w1 :
  m w = Some (Returns a, w1) -> bind m k w = k a w1.
Proof. intros H. unfold bind. rewrite H. reflexivity. Qed.

Lemma bind_raises {A B} (m : M A) (k : A -> M B) w e w1 :
  m w = Some (Raises e, w1) -> bind m k w = Some (Raises e, w1).
Proof. intros H. unfold bind. rewrite H. reflexivity. Qed.

Local Abbreviation wait :=
  (wait_for_processing time_time get_reply).

Lemma wait_done fuel start v w :
  state_name v <> "PROCESSING" ->
  wait fuel start v w = Some (Returns v, w).
Proof.
  intros H. apply String.eqb_neq in H.
  destruct fuel; cbn [wait_for_processing]; rewrite H; reflexivity.
Qed.

Lemma wait_step fuel start v v' w :
  state_name v = "PROCESSING" ->
  Qle_bool (time_time (clock_reads w) - start)
    (inject_Z MAX_VIDEO_PROCESSING_TIME) = true ->
  get_reply (name v) (get_calls w) = Returns (Some v') ->
  wait (S fuel) start v w
  = wait fuel start v' (after_poll (time_time (clock_reads w) - start) w).
Proof.
  intros Hs Hle Hg. cbn [wait_for_processing]. rewrite Hs.
  change (String.eqb "PROCESSING" "PROCESSING") with true. cbv iota.
  unfold bind at 1, now. cbn [clock_reads]. rewrite Hle. cbn [negb].
  unfold bind at 1, update.
  unfold bind at 1, sleep.
  etransitivity.
  { apply bind_returns. unfold safe_api_call, API_MAX_RETRIES.
    apply safe_api_call_from_returns.
    unfold get_file. cbn [get_calls with_session]. rewrite Hg. reflexivity. }
  reflexivity.
Qed.

Lemma wait_timeout fuel start v w :
  state_name v = "PROCESSING" ->
  Qle_bool (time_time (clock_reads w) - start)
    (inject_Z MAX_VIDEO_PROCESSING_TIME) = false ->
  exists w',
    wait (S fuel) start v w
    = Some (Raises (TimeoutError
         "Video processing timed out after 180 seconds"), w') /\
    generate_calls w' = generate_calls w.
Proof.
  intros Hs Hle. cbn [wait_for_processing]. rewrite Hs.
  change (String.eqb "PROCESSING" "PROCESSING") with true. cbv iota.
  unfold bind at 1, now. cbn [clock_reads]. rewrite Hle. cbn [negb].
  eexists. split; reflexivity.
Qed.

(** [n] rounds that stay under the ceiling and find the file still being
    processed: the loop is then where it would be had it started on the
    [n]-th answer. *)
Lemma wait_prefix n : forall fuel (f : nat -> file) start w,
  (forall i, (i < n)%nat -> state_name (f i) = "PROCESSING") ->
  (forall i, (i < n)%nat ->
     get_reply (name (f i)) (get_calls w + i) = Returns (Some (f (S i)))) ->
  (forall i, (i < n)%nat ->
     Qle_bool (time_time (clock_reads w + i) - start)
       (inject_Z MAX_VIDEO_PROCESSING_TIME) = true) ->
  exists w',
    wait (n + fuel) start (f 0) w = wait fuel start (f n) w' /\
    stable w w' /\
    clock_reads w' = clock_reads w + n /\
    generate_calls w' = generate_calls w.
Proof.
  induction n as [| n IH]; intros fuel f start w Hs Hg Hc.
  - exists w. cbn [Nat.add].
    split; [reflexivity |]. split; [apply stable_refl |].
    split; [lia | reflexivity].
  - cbn [Nat.add].
    rewrite (wait_step _ _ _ (f 1) _).
    + set (w1 := after_poll _ w).
      destruct (IH fuel (fun i => f (S i)) start w1) as (w' & E & St & C & G).
      * intros i Hi. apply Hs. lia.
      * intros i Hi. cbn [w1 after_poll get_calls].
        rewrite <- (Hg (S i)) by lia. f_equal. lia.
      * intros i Hi. cbn [w1 after_poll clock_reads].
        rewrite <- (Hc (S i)) by lia. do 3 f_equal. lia.
      * exists w'. split; [exact E |].
        split; [| split].
        -- eapply stable_trans; [| exact St].
           unfold stable, w1. cbn. repeat split; lia.
        -- rewrite C. cbn. lia.
        -- rewrite G. reflexivity.
    + apply Hs. lia.
    + rewrite <- (Hc 0) by lia. rewrite Nat.add_0_r. reflexivity.
    + rewrite <- (Hg 0) by lia. rewrite Nat.add_0_r. reflexivity.
Qed.

Local Abbreviation feedback :=
  (generate_feedback generate_reply PROMPT_HEAD PROMPT_TAIL).

(** A file that left the loop in a state other than SUCCEEDED is not handed
    to the generation call. *)
Lemma generate_feedback_rejects user_query v w :
  state_name v <> "SUCCEEDED" ->
  exists w',
    feedback user_query v w
    = Some (Raises (Exception ("Video processing failed with state: "
                               ++ state_name v)), w') /\
    stable w w' /\ generate_calls w' = generate_calls w.
Proof.
  intros H. apply String.eqb_neq in H.
  unfold generate_feedback.
  unfold bind at 1, update. unfold bind at 1. rewrite H. cbn [negb].
  eexists. split; [reflexivity |].
  split; [| reflexivity].
  unfold stable. cbn. repeat split; lia.
Qed.

(** A file in state SUCCEEDED is handed to the generation call, whose text
    is returned. *)
Lemma generate_feedback_succeeds user_query v w r analysis_text :
  state_name v = "SUCCEEDED" ->
  generate_reply (analysis_prompt PROMPT_HEAD PROMPT_TAIL user_query) v
    (generate_calls w) = Returns (Some r) ->
  text r = Returns analysis_text ->
  exists w',
    feedback user_query v w = Some (Returns analysis_text, w') /\
    stable w w' /\ generate_calls w' = S (generate_calls w).
Proof.
  intros H Hg Ht. unfold generate_feedback.
  unfold bind at 1, update. unfold bind at 1. rewrite H.
  change (negb ("SUCCEEDED" =? "SUCCEEDED")) with false. cbv iota.
  eexists. split.
  - etransitivity.
    { apply bind_returns. unfold safe_api_call, API_MAX_RETRIES.
      apply safe_api_call_from_returns.
      unfold generate_content. cbn [generate_calls with_session].
      rewrite Hg. reflexivity. }
    cbv beta iota. unfold bind, sleep. cbv beta iota.
    rewrite Ht. reflexivity.
  - split; [| reflexivity]. unfold stable. cbn. repeat split; lia.
Qed.

(** A response whose [text] raises: the step is already "completed" and
    the progress at 100 when the exception leaves the block. *)
Lemma generate_feedback_text_raises user_query v w r e :
  state_name v = "SUCCEEDED" ->
  generate_reply (analysis_prompt PROMPT_HEAD PROMPT_TAIL user_query) v
    (generate_calls w) = Returns (Some r) ->
  text r = Raises e ->
  exists w',
    feedback user_query v w = Some (Raises e, w') /\
    current_step (session w') = Some "completed" /\
    progress_percent (session w') = 100%Z /\
    generate_calls w' = S (generate_calls w).
Proof.
  intros H Hg Ht. unfold generate_feedback.
  unfold bind at 1, update. unfold bind at 1. rewrite H.
  change (negb ("SUCCEEDED" =? "SUCCEEDED")) with false. cbv iota.
  eexists. split.
  - etransitivity.
    { apply bind_returns. unfold safe_api_call, API_MAX_RETRIES.
      apply safe_api_call_from_returns.
      unfold generate_content. cbn [generate_calls with_session].
      rewrite Hg. reflexivity. }
    cbv beta iota. unfold bind, sleep. cbv beta iota.
    rewrite Ht. reflexivity.
  - cbn. repeat split.
Qed.

(** The pipeline up to the end of [n] uneventful rounds of the loop.  The
    clock is read once before the loop, for [processing_start]. *)
Lemma pipeline_polls n fuel (f : nat -> file) video_path user_query w :
  upload_reply video_path (upload_calls w) = Returns (Some (f 0)) ->
  (forall i, (i < n)%nat -> state_name (f i) = "PROCESSING") ->
  (forall i, (i < n)%nat ->
     get_reply (name (f i)) (get_calls w + i) = Returns (Some (f (S i)))) ->
  (forall i, (i < n)%nat ->
     Qle_bool (time_time (clock_reads w + 1 + i) - time_time (clock_reads w))
       (inject_Z MAX_VIDEO_PROCESSING_TIME) = true) ->
  exists w',
    pipeline (n + fuel) video_path user_query w
    = bind (wait fuel (time_time (clock_reads w)) (f n))
        (feedback user_query) w' /\
    stable w w' /\
    clock_reads w' = clock_reads w + 1 + n /\
    generate_calls w' = generate_calls w.
Proof.
  intros Hu Hs Hg Hc. unfold run_pipeline.
  unfold bind at 1, update. unfold bind at 1.
  set (wa := with_session _ (with_session _ w)).
  assert (Ea : safe_api_call (upload_file upload_reply video_path) wa
               = Some (Returns (Some (f 0)),
                       {| session := session wa;
                          clock_reads := clock_reads wa;
                          upload_calls := S (upload_calls wa);
                          get_calls := get_calls wa;
                          generate_calls := generate_calls wa;
                          sleeps := sleeps wa |})).
  { unfold safe_api_call, API_MAX_RETRIES.
    apply safe_api_call_from_returns. unfold upload_file.
    change (upload_calls wa) with (upload_calls w). rewrite Hu. reflexivity. }
  rewrite (bind_returns _ _ _ _ _ Ea).
  unfold bind at 1, update. unfold bind at 1.
  unfold bind at 1, now.
  match goal with
  | |- context [bind (wait _ ?st _) _ ?w0] => set (wb := w0)
  end.
  cbn [clock_reads with_session wa].
  destruct (wait_prefix n fuel f (time_time (clock_reads w)) wb)
    as (w' & E & St & C & G).
  - exact Hs.
  - intros i Hi. change (get_calls wb) with (get_calls w). apply Hg, Hi.
  - intros i Hi. change (clock_reads wb) with (S (clock_reads w)).
    rewrite <- (Hc i Hi). do 3 f_equal. lia.
  - exists w'. split.
    + unfold bind at 1. rewrite E. reflexivity.
    + split; [| split].
      * eapply stable_trans; [| exact St].
        unfold stable, wb, wa. cbn. repeat split; lia.
      * rewrite C. cbn. lia.
      * rewrite G. reflexivity.
Qed.

(** How a miss turns the outcome of the pipeline into its own. *)
Lemma analyze_of_pipeline fuel video_path user_query w o w1 :
  cache_lookup (session w) (cache_key video_path user_query) = None ->
  pipeline fuel video_path user_query
    {| session := session (miss_entry (time_time (clock_reads w))
                             video_path user_query w);
       clock_reads := S (S (clock_reads w));
       upload_calls := upload_calls w;
       get_calls := get_calls w;
       generate_calls := generate_calls w;
       sleeps := sleeps w |} = Some (o, w1) ->
  exists w',
    analyze fuel video_path user_query w
    = Some (match o with
            | Returns text => Returns text
            | Raises e => Raises (reraised e)
            end, w') /\
    stable w1 w' /\ generate_calls w' = generate_calls w1.
Proof.
  intros Hmiss Hp. rewrite (analyze_miss_eq _ _ _ _ Hmiss).
  unfold try_except, measure_performance, bind at 1, now.
  cbn [miss_entry clock_reads upload_calls get_calls generate_calls sleeps
       session] in *.
  unfold try_finally. rewrite Hp.
  unfold bind, now, update. cbn [with_session].
  destruct o as [text | e].
  - eexists. split; [reflexivity |]. split; [| reflexivity].
    unfold stable. cbn. repeat split; lia.
  - unfold analysis_handler, bind, update, raise. cbn [with_session].
    eexists. split; [reflexivity |]. split; [| reflexivity].
    unfold stable. cbn. repeat split; lia.
Qed.

(** The world in which a miss starts the pipeline. *)
Local Abbreviation pipeline_entry video_path user_query w :=
  {| session := session (miss_entry (time_time (clock_reads w))
                           video_path user_query w);
     clock_reads := S (S (clock_reads w));
     upload_calls := upload_calls w;
     get_calls := get_calls w;
     generate_calls := generate_calls w;
     sleeps := sleeps w |}.

(** A run that misses the cache, uploads at the first attempt and then polls
    [n] times under the ceiling, the answers being [f 1], ..., [f n] and all
    of [f 0], ..., [f (n-1)] being in state PROCESSING: the pipeline is then
    at the loop test on [f n].  The clock was read three times before the
    loop, the third reading being [processing_start]. *)
Lemma pipeline_at_nth_answer n fuel (f : nat -> file) video_path user_query w :
  upload_reply video_path (upload_calls w) = Returns (Some (f 0)) ->
  (forall i, (i < n)%nat -> state_name (f i) = "PROCESSING") ->
  (forall i, (i < n)%nat ->
     get_reply (name (f i)) (get_calls w + i) = Returns (Some (f (S i)))) ->
  (forall i, (i < n)%nat ->
     Qle_bool (time_time (clock_reads w + 3 + i)
               - time_time (clock_reads w + 2))
       (inject_Z MAX_VIDEO_PROCESSING_TIME) = true) ->
  exists w',
    pipeline (n + fuel) video_path user_query
      (pipeline_entry video_path user_query w)
    = bind (wait fuel (time_time (clock_reads w + 2)) (f n))
        (feedback user_query) w' /\
    clock_reads w' = clock_reads w + 3 + n /\
    generate_calls w' = generate_calls w.
Proof.
  intros Hu Hs Hg Hc.
  destruct (pipeline_polls n fuel f video_path user_query
              (pipeline_entry video_path user_query w))
    as (w' & E & _ & C & G); cbn [clock_reads upload_calls get_calls].
  - exact Hu.
  - exact Hs.
  - exact Hg.
  - intros i Hi. rewrite <- (Hc i Hi).
    replace (S (S (clock_reads w)) + 1 + i) with (clock_reads w + 3 + i)
      by lia.
    replace (S (S (clock_reads w))) with (clock_reads w + 2) by lia.
    reflexivity.
  - exists w'. cbn [clock_reads generate_calls] in *.
    replace (clock_reads w + 2) with (S (S (clock_reads w))) by lia.
    split; [exact E |]. split; [lia | exact G].
Qed.

(** C1, first half, where the code departs from it.  The status goes from
    PROCESSING to another state before the ceiling: the loop is left without
    a timeout, but unless that state is called SUCCEEDED the file is not
    handed to the generation call; the run raises a generic exception
    instead.  This is so for the state ACTIVE that [gradiocoach.py] takes for
    the ready one, and for a state called READY. *)
Theorem ready_handle_rejected n fuel (f : nat -> file)
  video_path user_query w :
  cache_lookup (session w) (cache_key video_path user_query) = None ->
  upload_reply video_path (upload_calls w) = Returns (Some (f 0)) ->
  (forall i, (i < n)%nat -> state_name (f i) = "PROCESSING") ->
  (forall i, (i < n)%nat ->
     get_reply (name (f i)) (get_calls w + i) = Returns (Some (f (S i)))) ->
  (forall i, (i < n)%nat ->
     Qle_bool (time_time (clock_reads w + 3 + i)
               - time_time (clock_reads w + 2))
       (inject_Z MAX_VIDEO_PROCESSING_TIME) = true) ->
  state_name (f n) <> "PROCESSING" ->
  state_name (f n) <> "SUCCEEDED" ->
  (n <= fuel)%nat ->
  exists w',
    analyze fuel video_path user_query w
    = Some (Raises (Exception
        ("Analysis error: Video processing failed with state: "
         ++ state_name (f n))), w') /\
    generate_calls w' = generate_calls w.
Proof.
  intros Hmiss Hu Hs Hg Hc Hnp Hns Hfuel.
  replace fuel with (n + (fuel - n)) by lia.
  destruct (pipeline_at_nth_answer n (fuel - n) f video_path user_query w
              Hu Hs Hg Hc) as (w1 & E & _ & G1).
  rewrite (bind_returns _ _ _ _ _ (wait_done _ _ _ _ Hnp)) in E.
  destruct (generate_feedback_rejects user_query (f n) w1 Hns)
    as (w2 & E2 & _ & G2).
  rewrite E2 in E.
  destruct (analyze_of_pipeline _ _ _ _ _ _ Hmiss E) as (w' & Ea & _ & G3).
  exists w'. split; [exact Ea |]. congruence.
Qed.

(** C1, first half, on the one state the code accepts: from PROCESSING to
    SUCCEEDED before the ceiling, the file is handed to the generation call
    and its text is returned. *)
Lemma succeeded_handle_passed_on n fuel (f : nat -> file)
  video_path user_query w r text :
  cache_lookup (session w) (cache_key video_path user_query) = None ->
  upload_reply video_path (upload_calls w) = Returns (Some (f 0)) ->
  (forall i, (i < n)%nat -> state_name (f i) = "PROCESSING") ->
  (forall i, (i < n)%nat ->
     get_reply (name (f i)) (get_calls w + i) = Returns (Some (f (S i)))) ->
  (forall i, (i < n)%nat ->
     Qle_bool (time_time (clock_reads w + 3 + i)
               - time_time (clock_reads w + 2))
       (inject_Z MAX_VIDEO_PROCESSING_TIME) = true) ->
  state_name (f n) = "SUCCEEDED" ->
  generate_reply (analysis_prompt PROMPT_HEAD PROMPT_TAIL user_query) (f n)
    (generate_calls w) = Returns (Some r) ->
  OptimizedApp.text r = Returns text ->
  (n <= fuel)%nat ->
  exists w',
    analyze fuel video_path user_query w = Some (Returns text, w') /\
    generate_calls w' = S (generate_calls w).
Proof.
  intros Hmiss Hu Hs Hg Hc Hok Hgen Htext Hfuel.
  replace fuel with (n + (fuel - n)) by lia.
  destruct (pipeline_at_nth_answer n (fuel - n) f video_path user_query w
              Hu Hs Hg Hc) as (w1 & E & _ & G1).
  assert (Hnp : state_name (f n) <> "PROCESSING")
    by (rewrite Hok; discriminate).
  rewrite (bind_returns _ _ _ _ _ (wait_done _ _ _ _ Hnp)) in E.
  rewrite <- G1 in Hgen.
  destruct (generate_feedback_succeeds user_query (f n) w1 r text Hok Hgen
              Htext) as (w2 & E2 & _ & G2).
  rewrite E2 in E.
  destruct (analyze_of_pipeline _ _ _ _ _ _ Hmiss E) as (w' & Ea & _ & G3).
  exists w'. split; [exact Ea |]. congruence.
Qed.

(** C1, second half.  The status stays PROCESSING and the reading of the
    clock in round [n] is the first one past the ceiling of 180 seconds: the
    run raises TimeoutError, and the generation call is never made. *)
Lemma stuck_processing_times_out n fuel (f : nat -> file)
  video_path user_query w :
  cache_lookup (session w) (cache_key video_path user_query) = None ->
  upload_reply video_path (upload_calls w) = Returns (Some (f 0)) ->
  (forall i, (i <= n)%nat -> state_name (f i) = "PROCESSING") ->
  (forall i, (i < n)%nat ->
     get_reply (name (f i)) (get_calls w + i) = Returns (Some (f (S i)))) ->
  (forall i, (i < n)%nat ->
     Qle_bool (time_time (clock_reads w + 3 + i)
               - time_time (clock_reads w + 2))
       (inject_Z MAX_VIDEO_PROCESSING_TIME) = true) ->
  Qle_bool (time_time (clock_reads w + 3 + n) - time_time (clock_reads w + 2))
    (inject_Z MAX_VIDEO_PROCESSING_TIME) = false ->
  (n < fuel)%nat ->
  exists w',
    analyze fuel video_path user_query w
    = Some (Raises (TimeoutError
        "Analysis timeout: Video processing timed out after 180 seconds"),
        w') /\
    generate_calls w' = generate_calls w.
Proof.
  intros Hmiss Hu Hs Hg Hc Hover Hfuel.
  replace fuel with (n + S (fuel - S n)) by lia.
  assert (Hs' : forall i, (i < n)%nat -> state_name (f i) = "PROCESSING")
    by (intros i Hi; apply Hs; lia).
  destruct (pipeline_at_nth_answer n (S (fuel - S n)) f video_path
              user_query w Hu Hs' Hg Hc) as (w1 & E & C1 & G1).
  destruct (wait_timeout (fuel - S n) (time_time (clock_reads w + 2)) (f n) w1)
    as (w2 & E2 & G2).
  - apply Hs. lia.
  - rewrite C1. exact Hover.
  - rewrite (bind_raises _ _ _ _ _ E2) in E.
    destruct (analyze_of_pipeline _ _ _ _ _ _ Hmiss E) as (w' & Ea & _ & G3).
    exists w'. split; [exact Ea |]. congruence.
Qed.
End Analysis.



(** C10.  The key of line 1007 is not injective: the distinct requests
    ("a_b", "c") and ("a", "b_c") have the same key, and once the result of
    the first is in the slot the second is answered from it without any
    remote call. *)
Theorem cache_key_not_injective :
  ("a_b", "c") <> ("a", "b_c") /\
  cache_key "a_b" "c" = cache_key "a" "b_c" /\
  forall time_time upload_reply get_reply generate_reply head tail fuel,
    let w := store_result "report"
               (with_session (set_cache_id (cache_key "a_b" "c"))
                  initial_world) in
    analyze_wrestling_video time_time upload_reply get_reply generate_reply
      head tail fuel "a" "b_c" w
    = Some (Returns "report", after_hit (time_time 0) w).
Proof.
  split; [discriminate |]. split; [reflexivity |].
  intros. apply analyze_hit. reflexivity.
Qed.

Lemma ready_handle_rejected_witness :
  exists w',
    analyze_wrestling_video demo_clock active_upload active_get demo_generate
      "" "" 3 "v.mp4" "single leg" initial_world
    = Some (Raises (Exception
        ("Analysis error: Video processing failed with state: "
         ++ state_name (polled_file 3))), w') /\
    generate_calls w' = generate_calls initial_world.
Proof.
  apply (ready_handle_rejected demo_clock active_upload active_get
           demo_generate "" "" 3 3 polled_file "v.mp4" "single leg"
           initial_world).
  - reflexivity.
  - reflexivity.
  - intros i Hi. destruct i as [| [| [| i]]]; try reflexivity. lia.
  - intros i Hi. reflexivity.
  - intros i Hi. destruct i as [| [| [| i]]]; try reflexivity. lia.
  - discriminate.
  - discriminate.
  - lia.
Defined.


(** ** Stage 2 extraction *)

Section Extraction.

Variable json_loads : string -> loads_result.
Variable gemini_client_json : bool.
Variable generate_content : string -> gen_reply.
Variable JSON_EXTRACTION_PROMPT : string.

Local Abbreviation extract :=
  (run_stage2_extraction json_loads gemini_client_json generate_content
     JSON_EXTRACTION_PROMPT).

Lemma decode_error_handler_absent raw cleaned :
  (forall p, search_braces cleaned = Some p ->
             json_loads p = JSONDecodeError) ->
  fst (decode_error_handler json_loads raw cleaned) = Returned None.
Proof.
  intros H. unfold decode_error_handler.
  destruct (search_braces cleaned) as [p |]; [| reflexivity].
  rewrite (H p eq_refl). reflexivity.
Qed.

Lemma parse_response_absent raw :
  (forall v, json_loads (clean_json_text raw) <> Parsed v) ->
  (json_loads (clean_json_text raw) = JSONDecodeError ->
   forall p, search_braces (clean_json_text raw) = Some p ->
             json_loads p = JSONDecodeError) ->
  fst (parse_response json_loads raw) = Returned None.
Proof.
  intros H1 H2. unfold parse_response.
  destruct (json_loads (clean_json_text raw)) as [v | |] eqn:E.
  - exfalso. apply (H1 v). reflexivity.
  - pose proof (decode_error_handler_absent raw _ (H2 eq_refl)) as D.
    destruct (decode_error_handler _ _ _) as [r hlog]. exact D.
  - reflexivity.
Qed.

(** Whatever the client, the report and the reply, the stage returns None
    when the reply does not parse and the brace search, where it is made,
    ends in [json.JSONDecodeError] too. *)
Lemma extract_absent markdown_report :
  (forall raw,
     generate_content
       (replace "{markdown_report}" markdown_report JSON_EXTRACTION_PROMPT)
     = GenResponse (Some raw) ->
     (forall v, json_loads (clean_json_text raw) <> Parsed v) /\
     (json_loads (clean_json_text raw) = JSONDecodeError ->
      forall p, search_braces (clean_json_text raw) = Some p ->
                json_loads p = JSONDecodeError)) ->
  fst (extract markdown_report) = Returned None.
Proof.
  intros H. unfold run_stage2_extraction.
  destruct (negb gemini_client_json); [reflexivity |].
  destruct (_ || _); [reflexivity |].
  destruct (generate_content _) as [msg | [raw |]] eqn:E;
    try reflexivity.
  destruct raw as [| c raw']; [reflexivity |].
  destruct (H _ eq_refl) as (H1 & H2).
  pose proof (parse_response_absent _ H1 H2) as P.
  destruct (parse_response _ _) as [r log]. exact P.
Qed.

Section Caller.

Variable float_of_string : string -> option Q.
Variable repr : json -> string.
Variable str_of_int : Z -> string.

Local Abbreviation display :=
  (stage2_and_report float_of_string repr str_of_int json_loads
     gemini_client_json generate_content JSON_EXTRACTION_PROMPT).

(** C5, where it holds.  A reply that does not parse as it is, and whose
    brace-delimited stretch, when the search for it is made, ends in
    [json.JSONDecodeError]: the extraction returns None, and the caller
    then shows the stage 1 Markdown report as it is and makes no figure. *)
Lemma unparseable_reply_falls_back markdown_report raw age level :
  generate_content
    (replace "{markdown_report}" markdown_report JSON_EXTRACTION_PROMPT)
  = GenResponse (Some raw) ->
  (forall v, json_loads (clean_json_text raw) <> Parsed v) ->
  (json_loads (clean_json_text raw) = JSONDecodeError ->
   forall p, search_braces (clean_json_text raw) = Some p ->
             json_loads p = JSONDecodeError) ->
  markdown_report <> "" ->
  fst (extract markdown_report) = Returned None /\
  display markdown_report age level
  = ([Status_extracting; Raw_report_fallback (raw_report_text markdown_report)],
     None).
Proof.
  intros Hg H1 H2 Hne.
  assert (E : fst (extract markdown_report) = Returned None).
  { apply extract_absent. intros raw' Hg'. rewrite Hg in Hg'.
    inversion Hg'; subst. split; assumption. }
  split; [exact E |].
  unfold stage2_and_report.
  apply String.eqb_neq in Hne. rewrite Hne. rewrite E. reflexivity.
Qed.

(** C5, where it fails.  The reply does not parse as it is, the search
    finds a brace-delimited stretch, and [json.loads] ends on that stretch
    with an exception other than [json.JSONDecodeError]: the exception
    leaves [run_stage2_extraction], and the caller shows the line of the
    unhandled error and neither the raw report nor a figure. *)
Theorem fallback_parse_error_escapes markdown_report raw p age level :
  gemini_client_json = true ->
  strip markdown_report <> "" ->
  generate_content
    (replace "{markdown_report}" markdown_report JSON_EXTRACTION_PROMPT)
  = GenResponse (Some raw) ->
  raw <> "" ->
  json_loads (clean_json_text raw) = JSONDecodeError ->
  search_braces (clean_json_text raw) = Some p ->
  json_loads p = OtherError ->
  fst (extract markdown_report) = Raised /\
  display markdown_report age level
  = ([Status_extracting; Unhandled_error], None).
Proof.
  intros Hc Hr Hg Hraw H1 Hs H2.
  assert (Hne : String.eqb markdown_report "" = false).
  { apply String.eqb_neq. intros ->. apply Hr. reflexivity. }
  assert (E : fst (extract markdown_report) = Raised).
  { unfold run_stage2_extraction. rewrite Hc. cbn [negb].
    apply String.eqb_neq in Hr. rewrite Hne, Hr. cbn [orb]. rewrite Hg.
    destruct raw as [| c raw']; [contradiction |].
    unfold parse_response. rewrite H1.
    unfold decode_error_handler. rewrite Hs, H2. reflexivity. }
  split; [exact E |].
  unfold stage2_and_report. rewrite Hne, E. reflexivity.
Qed.

End Caller.

Lemma chart_shape_mismatch chart :
  (exists vs n, as_list (dict_get chart "values") = Some vs /\
                as_int (dict_get chart "num_axes") = Some n /\
                Z.of_nat (List.length vs) <> n) \/
  (exists ls n, as_list (dict_get chart "labels") = Some ls /\
                as_int (dict_get chart "num_axes") = Some n /\
                Z.of_nat (List.length ls) <> n) ->
  chart_shape_ok chart = false.
Proof.
  unfold chart_shape_ok.
  intros [(vs & n & Hv & Hn & Hne) | (ls & n & Hl & Hn & Hne)];
    rewrite Hn.
  - rewrite Hv. apply Z.eqb_neq in Hne. rewrite Hne. reflexivity.
  - rewrite Hl. apply Z.eqb_neq in Hne. rewrite Hne.
    destruct (as_list (dict_get chart "values")); [| reflexivity].
    apply andb_false_r.
Qed.

Lemma check_chart_flags d chart_key chart :
  dict_get d chart_key = Some (JObj chart) ->
  chart_shape_ok chart = false ->
  check_chart d chart_key = [Warn_invalid_chart chart_key (JObj chart)].
Proof.
  intros Hd Hs. unfold check_chart. rewrite Hd, Hs. reflexivity.
Qed.

(** C6.  The reply parses to a dict in which the group [chart_key] has a
    values list or a labels list whose length is not the declared number of
    axes: a warning is logged for that group and the stage returns the parsed
    dict as it is, all its groups included. *)
Theorem mismatched_group_is_kept markdown_report raw d chart_key chart :
  gemini_client_json = true ->
  strip markdown_report <> "" ->
  generate_content
    (replace "{markdown_report}" markdown_report JSON_EXTRACTION_PROMPT)
  = GenResponse (Some raw) ->
  raw <> "" ->
  json_loads (clean_json_text raw) = Parsed (JObj d) ->
  In chart_key chart_keys ->
  dict_get d chart_key = Some (JObj chart) ->
  ((exists vs n, as_list (dict_get chart "values") = Some vs /\
                 as_int (dict_get chart "num_axes") = Some n /\
                 Z.of_nat (List.length vs) <> n) \/
   (exists ls n, as_list (dict_get chart "labels") = Some ls /\
                 as_int (dict_get chart "num_axes") = Some n /\
                 Z.of_nat (List.length ls) <> n)) ->
  fst (extract markdown_report) = Returned (Some (JObj d)) /\
  In (Warn_invalid_chart chart_key (JObj chart))
     (snd (extract markdown_report)) /\
  level_of (Warn_invalid_chart chart_key (JObj chart)) = WARNING.
Proof.
  intros Hc Hr Hg Hraw Hj Hk Hd Hm.
  pose proof (chart_shape_mismatch _ Hm) as Hs.
  unfold run_stage2_extraction. rewrite Hc. cbn [negb].
  assert (Hr1 : (String.eqb markdown_report "" ||
                 String.eqb (strip markdown_report) "") = false).
  { apply orb_false_iff. split; apply String.eqb_neq; [| exact Hr].
    intros ->. apply Hr. reflexivity. }
  rewrite Hr1, Hg.
  destruct raw as [| c raw']; [contradiction |].
  unfold parse_response. rewrite Hj.
  cbn [basic_validation fst snd].
  split; [reflexivity |]. split; [| reflexivity].
  right. right. right. apply in_or_app. right. apply in_or_app. right.
  apply in_or_app. right.
  apply in_flat_map. exists chart_key. split; [exact Hk |].
  rewrite (check_chart_flags _ _ _ Hd Hs). left. reflexivity.
Qed.

End Extraction.

Lemma unparseable_reply_falls_back_on_prose :
  let loads := fun _ : string => JSONDecodeError in
  let gen := fun _ : string => GenResponse (Some "The delivery looks fine.") in
  fst (run_stage2_extraction loads true gen "Report: {markdown_report}"
         "## Pitch") = Returned None /\
  stage2_and_report (fun _ => None) (fun _ => "") (fun _ => "") loads true gen
    "Report: {markdown_report}" "## Pitch" None None
  = ([Status_extracting; Raw_report_fallback (raw_report_text "## Pitch")],
     None).
Proof.
  intros loads gen.
  apply (unparseable_reply_falls_back loads true gen
           "Report: {markdown_report}" (fun _ => None) (fun _ => "")
           (fun _ => "") "## Pitch" "The delivery looks fine." None None).
  - reflexivity.
  - intros v. discriminate.
  - intros _ p _. reflexivity.
  - discriminate.
Defined.

Lemma fallback_parse_error_escapes_witness :
  let gen := fun _ : string => GenResponse (Some long_int_reply) in
  fst (run_stage2_extraction long_int_loads true gen
         "Report: {markdown_report}" "## Pitch") = Raised /\
  stage2_and_report (fun _ => None) (fun _ => "") (fun _ => "")
    long_int_loads true gen "Report: {markdown_report}" "## Pitch" None None
  = ([Status_extracting; Unhandled_error], None).
Proof.
  intros gen.
  apply (fallback_parse_error_escapes long_int_loads true gen
           "Report: {markdown_report}" (fun _ => None) (fun _ => "")
           (fun _ => "") "## Pitch" long_int_reply long_int_object None None).
  - reflexivity.
  - discriminate.
  - reflexivity.
  - discriminate.
  - vm_compute. reflexivity.
  - vm_compute. reflexivity.
  - vm_compute. reflexivity.
Defined.

Lemma mismatched_group_is_kept_witness :
  let loads := fun _ : string => Parsed (JObj sample_report) in
  let gen := fun _ : string => GenResponse (Some "{...}") in
  let chart := [("title", JStr "Skills");
                ("values", JArr [JInt 70; JInt 80]);
                ("labels", JArr [JStr "a"; JStr "b"; JStr "c"]);
                ("num_axes", JInt 3)] in
  fst (run_stage2_extraction loads true gen "Report: {markdown_report}"
         "## Pitch") = Returned (Some (JObj sample_report)) /\
  In (Warn_invalid_chart "skills" (JObj chart))
     (snd (run_stage2_extraction loads true gen "Report: {markdown_report}"
             "## Pitch")) /\
  level_of (Warn_invalid_chart "skills" (JObj chart)) = WARNING.
Proof.
  intros loads gen chart.
  apply (mismatched_group_is_kept loads true gen "Report: {markdown_report}"
           "## Pitch" "{...}" sample_report "skills" chart).
  - reflexivity.
  - discriminate.
  - reflexivity.
  - discriminate.
  - reflexivity.
  - simpl. auto.
  - reflexivity.
  - left. exists [JInt 70; JInt 80], 3%Z.
    split; [reflexivity |]. split; [reflexivity |]. discriminate.
Defined.

(** ** Report assembly *)

Section Rendering.

Variable float_of_string : string -> option Q.
Variable repr : json -> string.
Variable str_of_int : Z -> string.

Local Abbreviation report :=
  (create_pitcher_report float_of_string repr str_of_int).
Local Abbreviation chart := (chart_of float_of_string repr).
Local Abbreviation charts := (charts_of float_of_string repr).

Lemma valid_values_defined vs :
  (forall v, In v vs -> to_float float_of_string v <> Overflow) ->
  exists xs, valid_values float_of_string vs = Some xs.
Proof.
  induction vs as [| v vs IH]; intros H; cbn [valid_values].
  - eexists. reflexivity.
  - assert (Hv : to_float float_of_string v <> Overflow)
      by (apply H; left; reflexivity).
    destruct IH as [xs E]; [intros w Hw; apply H; right; exact Hw |].
    rewrite E. unfold valid_value.
    destruct (to_float float_of_string v);
      [eexists; reflexivity | eexists; reflexivity | contradiction].
Qed.

Lemma valid_values_overflow vs v :
  In v vs -> to_float float_of_string v = Overflow ->
  valid_values float_of_string vs = None.
Proof.
  induction vs as [| w vs IH]; intros Hin Ho; [destruct Hin |].
  cbn [valid_values]. destruct Hin as [-> | Hin].
  - unfold valid_value. rewrite Ho. reflexivity.
  - rewrite (IH Hin Ho). destruct (valid_value float_of_string w); reflexivity.
Qed.

Lemma valid_values_length vs : forall xs,
  valid_values float_of_string vs = Some xs ->
  List.length xs = List.length vs.
Proof.
  induction vs as [| v vs IH]; intros xs; cbn [valid_values].
  - intros H. inversion H. reflexivity.
  - destruct (valid_value float_of_string v) as [x |]; [| discriminate].
    destruct (valid_values float_of_string vs) as [xs' |]; [| discriminate].
    intros H. inversion H. cbn. rewrite (IH xs' eq_refl). reflexivity.
Qed.

Lemma chart_of_key d k c ci : chart d k = Some c -> In ci c -> key ci = k.
Proof.
  unfold chart_of. destruct (chart_shape _) as [[[n vs] ls] |].
  - destruct (valid_values float_of_string vs); [| discriminate].
    intros H. inversion H. intros [<- | []]. reflexivity.
  - intros H. inversion H. intros [].
Qed.

Lemma charts_of_in d keys : forall cs ci,
  charts d keys = Some cs -> In ci cs ->
  exists k c, In k keys /\ chart d k = Some c /\ In ci c.
Proof.
  induction keys as [| k keys IH]; intros cs ci; cbn [charts_of].
  - intros H. inversion H. intros [].
  - destruct (chart d k) as [c |] eqn:E; [| discriminate].
    destruct (charts d keys) as [cs' |]; [| discriminate].
    intros H. inversion H. subst cs. intros Hin.
    apply in_app_or in Hin. destruct Hin as [Hin | Hin].
    + exists k, c. split; [left; reflexivity | split; [exact E | exact Hin]].
    + destruct (IH cs' ci eq_refl Hin) as (k' & c' & Hk & Hc & Hi).
      exists k', c'. split; [right; exact Hk | split; assumption].
Qed.

Lemma charts_of_incl d keys : forall cs k c ci,
  charts d keys = Some cs -> In k keys -> chart d k = Some c -> In ci c ->
  In ci cs.
Proof.
  induction keys as [| k0 keys IH]; intros cs k c ci; cbn [charts_of].
  - intros _ [].
  - destruct (chart d k0) as [c0 |] eqn:E; [| discriminate].
    destruct (charts d keys) as [cs' |]; [| discriminate].
    intros H. inversion H. subst cs. intros [-> | Hk] Hc Hi;
      apply in_or_app.
    + left. congruence.
    + right. apply (IH cs' k c ci eq_refl Hk Hc Hi).
Qed.

Lemma charts_of_defined d keys :
  (forall k, In k keys -> chart d k <> None) ->
  exists cs, charts d keys = Some cs.
Proof.
  induction keys as [| k keys IH]; intros H; cbn [charts_of].
  - eexists. reflexivity.
  - destruct (chart d k) as [c |] eqn:E.
    + destruct IH as [cs ->]; [intros k' Hk'; apply H; right; exact Hk' |].
      eexists. reflexivity.
    + exfalso. apply (H k); [left; reflexivity | exact E].
Qed.

Lemma charts_of_overflow d keys k n vs ls v :
  In k keys -> chart_shape (dict_get d k) = Some (n, vs, ls) ->
  In v vs -> to_float float_of_string v = Overflow ->
  charts d keys = None.
Proof.
  intros Hk Hs Hv Ho.
  induction keys as [| k0 keys IH]; [destruct Hk |].
  cbn [charts_of]. destruct Hk as [-> | Hk].
  - unfold chart_of. rewrite Hs, (valid_values_overflow _ _ Hv Ho).
    reflexivity.
  - rewrite (IH Hk). destruct (chart d k0); reflexivity.
Qed.

Lemma chart_shape_mismatch_skips d k c vs ls n :
  dict_get d k = Some (JObj c) ->
  as_list (dict_get c "values") = Some vs ->
  as_list (dict_get c "labels") = Some ls ->
  as_int (dict_get c "num_axes") = Some n ->
  Z.of_nat (List.length vs) <> n \/ Z.of_nat (List.length ls) <> n ->
  chart_shape (dict_get d k) = None.
Proof.
  intros Hd Hv Hl Hn Hm. unfold chart_shape. rewrite Hd, Hv, Hl, Hn.
  destruct Hm as [Hm | Hm]; apply Z.eqb_neq in Hm; rewrite Hm.
  - rewrite andb_false_r. reflexivity.
  - rewrite andb_false_r. reflexivity.
Qed.

(** A value that [float] refuses with OverflowError, in a group of valid
    shape, stops the report: the exception leaves [create_pitcher_report]. *)
Lemma overflowing_value_stops_report d k n vs ls v age level :
  d <> [] ->
  In k chart_keys ->
  chart_shape (dict_get d k) = Some (n, vs, ls) ->
  In v vs ->
  to_float float_of_string v = Overflow ->
  report (Some (JObj d)) age level = None.
Proof.
  intros Hne Hk Hs Hv Ho. unfold create_pitcher_report.
  assert (Ht : truthy (JObj d) = true)
    by (destruct d; [contradiction | reflexivity]).
  rewrite Ht. cbn [negb]. unfold valid_chart_data.
  rewrite (charts_of_overflow _ _ _ _ _ _ _ Hk Hs Hv Ho). reflexivity.
Qed.


End Rendering.



(** An int of 401 digits among the values of a group of valid shape: the
    report is not made, and the caller shows the line of the unhandled
    error after the status line that announces the report. *)
Lemma overflowing_report_is_not_drawn :
  create_pitcher_report (fun _ => None) (fun _ => "") (fun _ => "")
    (Some (JObj overflowing_report)) None None = None /\
  stage2_and_report (fun _ => None) (fun _ => "") (fun _ => "")
    (fun _ => Parsed (JObj overflowing_report)) true
    (fun _ => GenResponse (Some "{...}")) "Report: {markdown_report}"
    "## Pitch" None None
  = ([Status_extracting; Status_generating_report; Unhandled_error], None).
Proof. split; vm_compute; reflexivity. Qed.

(** ** Fence stripping *)

Lemma app_assoc_s (a b c : string) : (a ++ b) ++ c = a ++ (b ++ c).
Proof. induction a as [| x a IH]; cbn; [reflexivity | now rewrite IH]. Qed.

Lemma app_nil_r_s (a : string) : a ++ "" = a.
Proof. induction a as [| x a IH]; cbn; [reflexivity | now rewrite IH]. Qed.

Lemma length_app_s (a b : string) : length (a ++ b) = length a + length b.
Proof. induction a as [| x a IH]; cbn; [reflexivity | now rewrite IH]. Qed.

Lemma drop_nil k : drop k "" = "".
Proof. destruct k; reflexivity. Qed.

Lemma drop_app k : forall s t,
  (k <= length s)%nat -> drop k (s ++ t) = drop k s ++ t.
Proof.
  induction k as [| k IH]; intros s t H; [reflexivity |].
  destruct s as [| c s]; cbn in *; [lia |]. apply IH. lia.
Qed.

Lemma drop_all k : forall s, (length s <= k)%nat -> drop k s = "".
Proof.
  induction k as [| k IH]; intros [| c s] H; cbn in *;
    try reflexivity; try lia.
  apply IH. lia.
Qed.

Lemma drop_add j : forall k s, drop k (drop j s) = drop (j + k) s.
Proof.
  induction j as [| j IH]; intros k s; [reflexivity |].
  destruct s as [| c s]; cbn.
  - now rewrite !drop_nil.
  - apply IH.
Qed.

Lemma length_drop k : forall s, length (drop k s) = length s - k.
Proof.
  induction k as [| k IH]; intros [| c s]; cbn; try reflexivity.
  apply IH.
Qed.

Lemma bol_after_app k : forall bol s t,
  (k <= length s)%nat -> bol_after k bol (s ++ t) = bol_after k bol s.
Proof.
  induction k as [| k IH]; intros bol s t H; [reflexivity |].
  destruct s as [| c s]; cbn in *; [lia |]. apply IH. lia.
Qed.

Lemma bol_after_add j : forall k bol s,
  (j <= length s)%nat ->
  bol_after k (bol_after j bol s) (drop j s) = bol_after (j + k) bol s.
Proof.
  induction j as [| j IH]; intros k bol s H; [reflexivity |].
  destruct s as [| c s]; cbn in *; [lia |]. apply IH. lia.
Qed.

Lemma span_ws_le s : (span_ws s <= length s)%nat.
Proof.
  induction s as [| c s IH]; cbn; [lia |]. destruct (isspace c); lia.
Qed.

Lemma span_ws_all s : all_space s = true -> span_ws s = length s.
Proof.
  induction s as [| c s IH]; cbn; [reflexivity |].
  destruct (isspace c); cbn; [| discriminate]. intros H. now rewrite IH.
Qed.

Lemma span_ws_not_all s : all_space s = false -> (span_ws s < length s)%nat.
Proof.
  induction s as [| c s IH]; cbn; [discriminate |].
  destruct (isspace c); cbn; [| lia]. intros H. apply IH in H. lia.
Qed.

(** The whitespace run of a text followed by the closing fence line. *)
Lemma span_ws_closing s :
  span_ws (s ++ closing) =
  if all_space s then S (length s) else span_ws s.
Proof.
  induction s as [| c s IH]; [reflexivity |].
  cbn [append span_ws length all_space].
  destruct (isspace c); cbn [andb]; [| reflexivity].
  rewrite IH. destruct (all_space s); reflexivity.
Qed.

(** The text after the whitespace run does not begin with whitespace. *)
Lemma span_ws_drop s : span_ws (drop (span_ws s) s) = 0.
Proof.
  induction s as [| c s IH]; [reflexivity |].
  cbn. destruct (isspace c) eqn:E; cbn; [exact IH | now rewrite E].
Qed.

Lemma all_space_app a b :
  all_space (a ++ b) = all_space a && all_space b.
Proof.
  induction a as [| c a IH]; cbn; [reflexivity |].
  rewrite IH. now rewrite andb_assoc.
Qed.

Lemma rstrip_all_space s : all_space s = true -> rstrip s = "".
Proof.
  induction s as [| c s IH]; cbn; [reflexivity |].
  destruct (isspace c) eqn:E; cbn; [| discriminate].
  intros H. rewrite (IH H). reflexivity.
Qed.

Lemma all_space_rstrip s : rstrip s = "" -> all_space s = true.
Proof.
  induction s as [| c s IH]; cbn; [reflexivity |].
  destruct (rstrip s); [| discriminate].
  destruct (isspace c); [| discriminate]. intros _. now rewrite IH.
Qed.

(** [rstrip] of a text only depends on the [rstrip] of its tail. *)
Lemma rstrip_cons c s t : rstrip s = rstrip t ->
  rstrip (String c s) = rstrip (String c t).
Proof. intros H. cbn. rewrite H. reflexivity. Qed.

Lemma lstrip_app_space a b : all_space a = true -> lstrip (a ++ b) = lstrip b.
Proof.
  induction a as [| c a IH]; cbn; [reflexivity |].
  destruct (isspace c); cbn; [exact IH | discriminate].
Qed.

Lemma rstrip_app_space a b :
  all_space a = true ->
  rstrip (a ++ b) = match rstrip b with "" => "" | _ => a ++ rstrip b end.
Proof.
  induction a as [| c a IH]; cbn.
  - intros _. destruct (rstrip b); reflexivity.
  - destruct (isspace c) eqn:E; cbn; [| discriminate].
    intros H. rewrite (IH H).
    destruct (rstrip b) eqn:R.
    + reflexivity.
    + destruct a; reflexivity.
Qed.

(** Leading whitespace does not survive [strip]. *)
Lemma strip_app_space a b : all_space a = true -> strip (a ++ b) = strip b.
Proof.
  intros H. unfold strip. rewrite (rstrip_app_space _ _ H).
  destruct (rstrip b) eqn:R; [reflexivity |].
  apply lstrip_app_space. exact H.
Qed.


(** A pattern without line feed starts [s] followed by a line exactly when
    it starts [s]. *)
Lemma prefix_app_lf p : forall s t,
  no_lf p = true -> prefix p (s ++ String LF t) = prefix p s.
Proof.
  induction p as [| a p IH]; intros s t H; [destruct s; reflexivity |].
  cbn in H. apply andb_true_iff in H. destruct H as [Ha Hp].
  destruct s as [| c s]; cbn.
  - destruct (ascii_dec a _) as [E | E]; [| reflexivity].
    rewrite E in Ha. discriminate.
  - destruct (ascii_dec a c); [apply IH; exact Hp | reflexivity].
Qed.

Lemma at_eol_closing s : at_eol (s ++ closing) = at_eol s.
Proof. destruct s; reflexivity. Qed.

Lemma prefix_length p : forall s,
  prefix p s = true -> (length p <= length s)%nat.
Proof.
  induction p as [| a p IH]; intros s H; cbn; [lia |].
  destruct s as [| c s]; cbn in *; [discriminate |].
  destruct (ascii_dec a c); [| discriminate]. apply IH in H. lia.
Qed.

(** Skipping is the same as resuming the scan further on. *)
Lemma re_sub_skip k : forall bol s,
  re_sub_from k bol s = re_sub_from 0 (bol_after k bol s) (drop k s).
Proof.
  induction k as [| k IH]; intros bol s; [reflexivity |].
  destruct s as [| c s]; [reflexivity |]. cbn. apply IH.
Qed.

Lemma re_sub_skip_all k bol s :
  (length s <= k)%nat -> re_sub_from k bol s = "".
Proof.
  intros H. rewrite re_sub_skip, (drop_all _ _ H). reflexivity.
Qed.

(** A match is not empty and lies within the text. *)
Lemma match_len_bounds bol s k :
  match_len bol s = Some k -> (1 <= k <= length s)%nat.
Proof.
  unfold match_len.
  destruct (bol && prefix "```json" s) eqn:E1.
  - intros H.
    assert (Ek : k = 7 + span_ws (drop 7 s)) by congruence.
    apply andb_true_iff in E1. destruct E1 as [_ E1].
    apply prefix_length in E1. cbn in E1.
    pose proof (span_ws_le (drop 7 s)) as L.
    rewrite length_drop in L. lia.
  - destruct (prefix "```" (drop (span_ws s) s) && _) eqn:E2;
      [| discriminate].
    intros H. assert (Ek : k = span_ws s + 3) by congruence.
    apply andb_true_iff in E2. destruct E2 as [E2 _].
    apply prefix_length in E2. cbn in E2.
    rewrite length_drop in E2. pose proof (span_ws_le s). lia.
Qed.

(** The scan at a position where the pattern matches, and where it does
    not. *)
Lemma re_sub_match bol s k :
  match_len bol s = Some k ->
  re_sub_from 0 bol s = re_sub_from 0 (bol_after k bol s) (drop k s).
Proof.
  intros H. pose proof (match_len_bounds _ _ _ H) as [L U].
  destruct s as [| c s]; [cbn in U; lia |].
  cbn [re_sub_from]. rewrite H. rewrite re_sub_skip.
  destruct k as [| k]; [lia |]. reflexivity.
Qed.

Lemma re_sub_no_match bol c s :
  match_len bol (String c s) = None ->
  re_sub_from 0 bol (String c s)
  = String c (re_sub_from 0 (Ascii.eqb c LF) s).
Proof. intros H. cbn [re_sub_from]. rewrite H. reflexivity. Qed.

(** The scan only deletes. *)
Lemma re_sub_all_space s : forall k bol,
  all_space s = true -> all_space (re_sub_from k bol s) = true.
Proof.
  induction s as [| c s IH]; intros k bol H; [reflexivity |].
  cbn in H. apply andb_true_iff in H. destruct H as [Hc Hs].
  cbn [re_sub_from]. destruct k as [| k]; [| apply IH; exact Hs].
  destruct (match_len bol (String c s)); [apply IH; exact Hs |].
  cbn. rewrite Hc. apply IH. exact Hs.
Qed.

(** What is left of the closing fence line, or of its backquotes, is
    deleted. *)
Lemma re_sub_closing bol : re_sub_from 0 bol closing = "".
Proof. destruct bol; reflexivity. Qed.

Lemma re_sub_backquotes bol : re_sub_from 0 bol "```" = "".
Proof. destruct bol; reflexivity. Qed.

Lemma drop_past_closing s : drop (S (length s)) (s ++ closing) = "```".
Proof. induction s as [| c s IH]; [reflexivity | exact IH]. Qed.

Lemma length_closing s : length (s ++ closing) = length s + 4.
Proof. rewrite length_app_s. reflexivity. Qed.

(** How the closing fence line after [s] changes the attempt at the start
    of [s]: not at all, or a match that ran to the end of [s] takes the line
    feed too, or a whitespace-only [s] is now matched together with the
    fence. *)
Lemma match_len_closing bol s :
  match_len bol (s ++ closing) = match_len bol s \/
  (exists k, match_len bol s = Some k /\ k = length s /\
             match_len bol (s ++ closing) = Some (S k)) \/
  (match_len bol s = None /\ all_space s = true /\
   match_len bol (s ++ closing) = Some (length s + 4)).
Proof.
  unfold match_len.
  change closing with (String LF "```").
  rewrite (prefix_app_lf "```json") by reflexivity.
  change (String LF "```") with closing.
  destruct (bol && prefix "```json" s) eqn:E1.
  - apply andb_true_iff in E1. destruct E1 as [_ E1].
    apply prefix_length in E1. cbn [length] in E1.
    rewrite drop_app by exact E1. rewrite span_ws_closing.
    destruct (all_space (drop 7 s)) eqn:A.
    + right. left. exists (7 + span_ws (drop 7 s)).
      split; [reflexivity |].
      rewrite (span_ws_all _ A), length_drop.
      split; [lia | f_equal; try lia].
    + left. reflexivity.
  - rewrite span_ws_closing. destruct (all_space s) eqn:A.
    + right. right.
      rewrite (span_ws_all _ A), (drop_all (length s) s) by lia.
      split; [reflexivity |]. split; [reflexivity |].
      rewrite drop_past_closing.
      change (prefix "```" "```" && at_eol (drop 3 "```")) with true.
      cbv iota. f_equal. lia.
    + left.
      pose proof (span_ws_not_all _ A) as L.
      rewrite drop_app by lia.
      change closing with (String LF "```").
      rewrite (prefix_app_lf "```") by reflexivity.
      change (String LF "```") with closing.
      destruct (prefix "```" (drop (span_ws s) s)) eqn:P; [| reflexivity].
      apply prefix_length in P. cbn [length] in P.
      rewrite drop_app by exact P. rewrite at_eol_closing. reflexivity.
Qed.

(** Up to trailing whitespace, the scan of [s] followed by the closing
    fence line leaves what the scan of [s] leaves. *)
Lemma rstrip_re_sub_closing n : forall s bol,
  (length s <= n)%nat ->
  rstrip (re_sub_from 0 bol (s ++ closing)) = rstrip (re_sub_from 0 bol s).
Proof.
  induction n as [| n IH]; intros s bol Hn.
  - destruct s; [| cbn in Hn; lia].
    cbn [append]. rewrite re_sub_closing. reflexivity.
  - destruct s as [| c s'].
    { cbn [append]. rewrite re_sub_closing. reflexivity. }
    destruct (match_len_closing bol (String c s'))
      as [M | [(k & M1 & Mk & M2) | (M1 & A & M2)]].
    + destruct (match_len bol (String c s')) as [k |] eqn:E.
      * rewrite (re_sub_match _ _ _ M), (re_sub_match _ _ _ E).
        pose proof (match_len_bounds _ _ _ E) as [L U].
        rewrite drop_app, bol_after_app by exact U.
        apply IH. rewrite length_drop. cbn [length] in *. lia.
      * cbn [append] in *.
        rewrite (re_sub_no_match _ _ _ M), (re_sub_no_match _ _ _ E).
        apply rstrip_cons. apply IH. cbn [length] in Hn. lia.
    + rewrite (re_sub_match _ _ _ M2), (re_sub_match _ _ _ M1).
      rewrite Mk, drop_past_closing, re_sub_backquotes.
      rewrite (drop_all (length (String c s'))) by lia. reflexivity.
    + rewrite (re_sub_match _ _ _ M2).
      rewrite (drop_all (length (String c s') + 4))
        by (rewrite length_closing; lia).
      rewrite (rstrip_all_space (re_sub_from 0 bol (String c s')))
        by (apply re_sub_all_space; exact A).
      reflexivity.
Qed.

Lemma drop_cons k c s : drop (S k) (String c s) = drop k s.
Proof. reflexivity. Qed.

Lemma prefix_cons a p c s :
  prefix (String a p) (String c s)
  = if ascii_dec a c then prefix p s else false.
Proof. reflexivity. Qed.

Lemma isspace_not_backquote c s p :
  isspace c = true -> prefix (String "`" p) (String c s) = false.
Proof.
  intros H. rewrite prefix_cons.
  destruct (ascii_dec "`" c) as [E | E]; [| reflexivity].
  subst c. discriminate.
Qed.

(** A closing [```] at the end of a line is not an opening [```json]. *)
Lemma closing_not_opening r :
  prefix "```" r = true -> at_eol (drop 3 r) = true ->
  prefix "```json" r = false.
Proof.
  intros H1. pose proof (prefix_length _ _ H1) as L. revert H1.
  destruct r as [| a [| b [| c r]]]; cbn [length] in L; try lia.
  rewrite !prefix_cons. cbn [drop].
  destruct (ascii_dec "`" a); [| discriminate].
  destruct (ascii_dec "`" b); [| discriminate].
  destruct (ascii_dec "`" c); [| discriminate].
  intros _. destruct r as [| d r]; [reflexivity |].
  cbn [at_eol]. intros H. apply Ascii.eqb_eq in H. subst d.
  reflexivity.
Qed.

(** The second alternative at the start of a whitespace run is decided after
    the run. *)
Lemma match_len_in_run bol c s :
  isspace c = true ->
  match_len bol (String c s) =
  if prefix "```" (drop (span_ws s) s)
     && at_eol (drop 3 (drop (span_ws s) s))
  then Some (S (span_ws s) + 3) else None.
Proof.
  intros H. unfold match_len.
  rewrite (isspace_not_backquote c s "``json" H), andb_false_r.
  cbn [span_ws]. rewrite H. reflexivity.
Qed.

(** Where the second alternative fails after a whitespace run, the scan
    copies the run. *)
Lemma re_sub_copies_run p : forall bol,
  prefix "```" (drop (span_ws p) p)
  && at_eol (drop 3 (drop (span_ws p) p)) = false ->
  exists w, all_space w = true /\
    re_sub_from 0 bol p
    = w ++ re_sub_from 0 (bol_after (span_ws p) bol p) (drop (span_ws p) p).
Proof.
  induction p as [| c s IH]; intros bol H.
  - exists "". split; reflexivity.
  - destruct (isspace c) eqn:E.
    + cbn [span_ws] in *. rewrite E in *. cbn [bol_after].
      rewrite !drop_cons in *.
      destruct (IH (Ascii.eqb c LF) H) as (w & Hw & Eq).
      exists (String c w). split; [cbn; now rewrite E, Hw |].
      rewrite re_sub_no_match by (rewrite match_len_in_run, H; auto).
      rewrite Eq. reflexivity.
    + exists "". split; [reflexivity |].
      cbn [span_ws]. rewrite E. reflexivity.
Qed.

Lemma drop_0 s : drop 0 s = s.
Proof. reflexivity. Qed.

(** Where the second alternative succeeds after a whitespace run, the run
    and the backquotes are one match, which ends where the match of the
    backquotes alone ends. *)
Lemma re_sub_run_match p bol :
  (1 <= span_ws p)%nat ->
  prefix "```" (drop (span_ws p) p) = true ->
  at_eol (drop 3 (drop (span_ws p) p)) = true ->
  re_sub_from 0 bol p
  = re_sub_from 0 (bol_after (span_ws p) bol p) (drop (span_ws p) p).
Proof.
  intros Hj C1 C2.
  assert (M : match_len bol p = Some (span_ws p + 3)).
  { unfold match_len. rewrite C1, C2.
    destruct p as [| c s]; [cbn in Hj; lia |].
    destruct (isspace c) eqn:E; [| cbn in Hj; rewrite E in Hj; lia].
    rewrite (isspace_not_backquote c s "``json" E), andb_false_r.
    reflexivity. }
  assert (M1 : match_len (bol_after (span_ws p) bol p) (drop (span_ws p) p)
               = Some 3).
  { unfold match_len.
    rewrite (closing_not_opening _ C1 C2), andb_false_r.
    rewrite span_ws_drop, !drop_0, C1, C2. reflexivity. }
  rewrite (re_sub_match _ _ _ M), (re_sub_match _ _ _ M1).
  rewrite drop_add, bol_after_add by apply span_ws_le.
  reflexivity.
Qed.

(** Up to [strip], the scan may as well start after the leading
    whitespace. *)
Lemma strip_re_sub_lead p bol :
  strip (re_sub_from 0 bol p)
  = strip (re_sub_from 0 (bol_after (span_ws p) bol p)
             (drop (span_ws p) p)).
Proof.
  destruct (span_ws p) as [| j] eqn:Ej; [reflexivity |].
  rewrite <- Ej.
  destruct (prefix "```" (drop (span_ws p) p)
            && at_eol (drop 3 (drop (span_ws p) p))) eqn:C.
  - apply andb_true_iff in C. destruct C as [C1 C2].
    rewrite <- re_sub_run_match by (try assumption; lia).
    reflexivity.
  - destruct (re_sub_copies_run _ bol C) as (w & Hw & Eq).
    rewrite Eq. apply strip_app_space. exact Hw.
Qed.

(** The cleaned text of a fenced payload is the cleaned text of the payload,
    whatever the payload. *)
Lemma clean_fenced payload :
  clean_json_text (fenced payload) = clean_json_text payload.
Proof.
  unfold clean_json_text, re_sub_fences.
  assert (M : match_len true (fenced payload)
              = Some (8 + span_ws (payload ++ closing))) by reflexivity.
  rewrite (re_sub_match _ _ _ M).
  change (drop (8 + span_ws (payload ++ closing)) (fenced payload))
    with (drop (span_ws (payload ++ closing)) (payload ++ closing)).
  change (bol_after (8 + span_ws (payload ++ closing)) true (fenced payload))
    with (bol_after (span_ws (payload ++ closing)) true (payload ++ closing)).
  rewrite span_ws_closing.
  destruct (all_space payload) eqn:A.
  - rewrite drop_past_closing, re_sub_backquotes.
    unfold strip.
    rewrite (rstrip_all_space (re_sub_from 0 true payload))
      by (apply re_sub_all_space; exact A).
    reflexivity.
  - pose proof (span_ws_not_all _ A) as L.
    rewrite drop_app, bol_after_app by lia.
    unfold strip at 1.
    rewrite (rstrip_re_sub_closing _ _ _ (le_n _)).
    fold (strip (re_sub_from 0 (bol_after (span_ws payload) true payload)
                   (drop (span_ws payload) payload))).
    symmetry. apply strip_re_sub_lead.
Qed.

(** The same for a fence without the language tag. *)
Lemma clean_fenced_plain payload :
  clean_json_text (fenced_plain payload) = clean_json_text payload.
Proof.
  unfold clean_json_text, re_sub_fences.
  assert (M : match_len true (fenced_plain payload) = Some 3)
    by reflexivity.
  rewrite (re_sub_match _ _ _ M).
  change (drop 3 (fenced_plain payload))
    with (String LF payload ++ closing).
  change (bol_after 3 true (fenced_plain payload)) with false.
  unfold strip at 1.
  rewrite (rstrip_re_sub_closing _ _ _ (le_n _)).
  fold (strip (re_sub_from 0 false (String LF payload))).
  rewrite (strip_re_sub_lead (String LF payload) false).
  rewrite (strip_re_sub_lead payload true).
  reflexivity.
Qed.

(** *** Texts that are lexically JSON carry no fence marker *)

Lemma lstrip_idem s : lstrip (lstrip s) = lstrip s.
Proof.
  induction s as [| c s IH]; [reflexivity |].
  cbn [lstrip]. destruct (isspace c) eqn:E; [exact IH |].
  cbn [lstrip]. now rewrite E.
Qed.

Lemma rstrip_idem s : rstrip (rstrip s) = rstrip s.
Proof.
  induction s as [| c s IH]; [reflexivity |].
  cbn [rstrip]. destruct (rstrip s) as [| a r] eqn:R.
  - destruct (isspace c) eqn:E; [reflexivity |].
    cbn [rstrip]. now rewrite E.
  - change (rstrip (String c (String a r)))
      with (match rstrip (String a r) with
            | "" => if isspace c then "" else String c ""
            | x => String c x
            end).
    rewrite IH. reflexivity.
Qed.

Lemma rstrip_lstrip s : rstrip (lstrip s) = lstrip (rstrip s).
Proof.
  induction s as [| c s IH]; [reflexivity |].
  cbn [lstrip rstrip]. destruct (isspace c) eqn:E.
  - rewrite IH. destruct (rstrip s) as [| a r]; [reflexivity |].
    cbn [lstrip]. now rewrite E.
  - cbn [rstrip]. destruct (rstrip s) as [| a r]; cbn [lstrip]; now rewrite E.
Qed.

Lemma strip_idem s : strip (strip s) = strip s.
Proof.
  unfold strip.
  rewrite (rstrip_lstrip (rstrip s)), rstrip_idem.
  apply lstrip_idem.
Qed.

(** Whitespace leaves the lexical state inside or outside a string literal
    as it was. *)
Lemma lex_step_space st c st' :
  isspace c = true -> lex_step st c = Some st' -> fst st' = fst st.
Proof.
  intros Hc. destruct st as [[|] e]; unfold lex_step.
  - destruct (N_of_ascii c <? 32)%N; [discriminate |].
    destruct e; [intros [= <-]; reflexivity |].
    destruct (Ascii.eqb c QUOTE) eqn:Q.
    + apply Ascii.eqb_eq in Q. subst c. discriminate.
    + destruct (Ascii.eqb c BACKSLASH); intros [= <-]; reflexivity.
  - destruct (Ascii.eqb c BACKQUOTE); [discriminate |].
    destruct (Ascii.eqb c QUOTE) eqn:Q; intros [= <-]; [| reflexivity].
    apply Ascii.eqb_eq in Q. subst c. discriminate.
Qed.

Lemma json_lex_run w : forall st t,
  all_space w = true -> json_lex_from st (w ++ t) = true ->
  exists st', fst st' = fst st /\ json_lex_from st' t = true.
Proof.
  induction w as [| c w IH]; intros st t Hw H.
  - exists st. split; [reflexivity | exact H].
  - cbn in Hw. apply andb_true_iff in Hw. destruct Hw as [Hc Hw].
    cbn [append json_lex_from] in H.
    destruct (lex_step st c) as [st1 |] eqn:E; [| discriminate].
    destruct (IH st1 t Hw H) as (st' & F & L).
    exists st'. split; [| exact L].
    rewrite F. apply (lex_step_space _ _ _ Hc E).
Qed.

(** Every text is its whitespace run followed by the rest. *)
Lemma span_ws_split s :
  exists w, all_space w = true /\ s = w ++ drop (span_ws s) s.
Proof.
  induction s as [| c s (w & Hw & E)].
  - exists "". split; reflexivity.
  - cbn [span_ws]. destruct (isspace c) eqn:C.
    + exists (String c w). split; [cbn; now rewrite C, Hw |].
      rewrite drop_cons. cbn [append]. now rewrite <- E.
    + exists "". split; reflexivity.
Qed.

(** Three backquotes before the end of a line do not occur in such a
    text. *)
Lemma json_lex_no_closing st r :
  prefix "```" r = true -> at_eol (drop 3 r) = true ->
  json_lex_from st r = false.
Proof.
  intros H1. pose proof (prefix_length _ _ H1) as L. revert H1.
  destruct r as [| a [| b [| c r]]]; cbn [length] in L; try lia.
  rewrite !prefix_cons. cbn [drop].
  destruct (ascii_dec "`" a) as [<- |]; [| discriminate].
  destruct (ascii_dec "`" b) as [<- |]; [| discriminate].
  destruct (ascii_dec "`" c) as [<- |]; [| discriminate].
  intros _ He. destruct st as [[|] e].
  - destruct r as [| d r].
    + destruct e; reflexivity.
    + cbn [at_eol] in He. apply Ascii.eqb_eq in He. subst d.
      destruct e; reflexivity.
  - reflexivity.
Qed.

(** At no position of such a text does the pattern match. *)
Lemma json_lex_match_len st bol c s :
  json_lex_from st (String c s) = true ->
  (fst st = true -> bol = false) ->
  match_len bol (String c s) = None.
Proof.
  intros H Hb. unfold match_len.
  assert (A1 : bol && prefix "```json" (String c s) = false).
  { destruct bol; [| reflexivity]. cbn [andb].
    rewrite prefix_cons. destruct (ascii_dec "`" c) as [<- |]; [| reflexivity].
    destruct st as [[|] e]; [specialize (Hb eq_refl); discriminate |].
    discriminate. }
  rewrite A1.
  destruct (prefix "```" _ && _) eqn:C; [| reflexivity].
  apply andb_true_iff in C. destruct C as [C1 C2].
  destruct (span_ws_split (String c s)) as (w & Hw & E).
  rewrite E in H.
  destruct (json_lex_run _ _ _ Hw H) as (st' & _ & L).
  rewrite (json_lex_no_closing _ _ C1 C2) in L. discriminate.
Qed.

Lemma json_lex_re_sub s : forall st bol,
  json_lex_from st s = true ->
  (fst st = true -> bol = false) ->
  re_sub_from 0 bol s = s.
Proof.
  induction s as [| c s IH]; intros st bol H Hb; [reflexivity |].
  rewrite (re_sub_no_match _ _ _ (json_lex_match_len _ _ _ _ H Hb)).
  f_equal. cbn [json_lex_from] in H.
  destruct (lex_step st c) as [st1 |] eqn:E; [| discriminate].
  apply (IH st1); [exact H |].
  intros F. destruct (Ascii.eqb c LF) eqn:N; [| reflexivity].
  apply Ascii.eqb_eq in N. subst c.
  destruct st as [[|] e]; [discriminate |].
  cbn in E. inversion E; subst. discriminate.
Qed.

Lemma json_lex_lstrip s : json_lex s = true -> json_lex (lstrip s) = true.
Proof.
  unfold json_lex. induction s as [| c s IH]; [auto |].
  cbn [lstrip]. destruct (isspace c) eqn:C; [| auto].
  cbn [json_lex_from]. intros H.
  destruct (lex_step (false, false) c) as [st1 |] eqn:E; [| discriminate].
  pose proof (lex_step_space _ _ _ C E) as F.
  assert (st1 = (false, false)).
  { unfold lex_step in E.
    destruct (Ascii.eqb c BACKQUOTE); [discriminate |].
    destruct (Ascii.eqb c QUOTE); inversion E; subst;
      [discriminate | reflexivity]. }
  subst st1. apply IH. exact H.
Qed.

Lemma json_lex_cons st c s :
  json_lex_from st (String c s)
  = match lex_step st c with
    | Some st' => json_lex_from st' s
    | None => false
    end.
Proof. reflexivity. Qed.

Lemma json_lex_rstrip s : forall st,
  json_lex_from st s = true -> json_lex_from st (rstrip s) = true.
Proof.
  induction s as [| c s IH]; intros st H; [exact H |].
  cbn [json_lex_from] in H.
  destruct (lex_step st c) as [st1 |] eqn:E; [| discriminate].
  cbn [rstrip]. destruct (rstrip s) as [| a r] eqn:R.
  - pose proof (all_space_rstrip _ R) as A.
    assert (F : fst st1 = false).
    { rewrite <- (app_nil_r_s s) in H.
      destruct (json_lex_run _ _ _ A H) as (st' & F & L).
      cbn in L. rewrite <- F. destruct (fst st'); [discriminate | reflexivity]. }
    destruct (isspace c) eqn:C.
    + cbn. rewrite <- (lex_step_space _ _ _ C E), F. reflexivity.
    + rewrite json_lex_cons, E. cbn. rewrite F. reflexivity.
  - rewrite json_lex_cons, E. apply IH. exact H.
Qed.

Lemma json_lex_strip s : json_lex s = true -> json_lex (strip s) = true.
Proof.
  intros H. unfold strip. apply json_lex_lstrip.
  apply json_lex_rstrip. exact H.
Qed.

(** Cleaning a text that is lexically JSON only strips it. *)
Lemma clean_json_lex s : json_lex s = true -> clean_json_text s = strip s.
Proof.
  intros H. unfold clean_json_text, re_sub_fences.
  rewrite (json_lex_re_sub s (false, false) true H); [reflexivity |].
  discriminate.
Qed.

Lemma clean_json_lex_idem s :
  json_lex s = true ->
  clean_json_text (clean_json_text s) = clean_json_text s.
Proof.
  intros H. rewrite (clean_json_lex _ H).
  rewrite (clean_json_lex _ (json_lex_strip _ H)). apply strip_idem.
Qed.

(** The result of parsing depends on the response through its cleaned text
    alone. *)
Lemma parse_response_result loads raw1 raw2 :
  clean_json_text raw1 = clean_json_text raw2 ->
  fst (parse_response loads raw1) = fst (parse_response loads raw2).
Proof.
  intros H. unfold parse_response. rewrite H.
  destruct (loads (clean_json_text raw2)) as [v | |].
  - destruct (basic_validation v) as [vlog [|]]; reflexivity.
  - unfold decode_error_handler.
    destruct (search_braces (clean_json_text raw2)) as [p |];
      [| reflexivity].
    destruct (loads p); reflexivity.
  - reflexivity.
Qed.

(** C7, as the code has it.  For a JSON payload (a text that is lexically
    JSON), the response that wraps it in a fence, with or without the
    language tag, and the bare response are cleaned to the same text and
    parse to the same result; and cleaning the cleaned text of either again
    changes nothing. *)
Theorem fenced_and_bare_parse_alike
  (json_loads : string -> loads_result) (payload : string) :
  json_lex payload = true ->
  clean_json_text (fenced payload) = clean_json_text payload /\
  fst (parse_response json_loads (fenced payload))
  = fst (parse_response json_loads payload) /\
  fst (parse_response json_loads (fenced_plain payload))
  = fst (parse_response json_loads payload) /\
  clean_json_text (clean_json_text (fenced payload))
  = clean_json_text (fenced payload) /\
  clean_json_text (clean_json_text payload) = clean_json_text payload.
Proof.
  intros H.
  split; [apply clean_fenced |].
  split; [apply parse_response_result, clean_fenced |].
  split; [apply parse_response_result, clean_fenced_plain |].
  rewrite clean_fenced.
  split; apply clean_json_lex_idem; exact H.
Qed.

Lemma fenced_and_bare_parse_alike_witness :
  let loads := fun s : string =>
    if String.eqb s "[1, 2]" then Parsed (JArr [JInt 1; JInt 2])
    else JSONDecodeError in
  clean_json_text (fenced "[1, 2]") = clean_json_text "[1, 2]" /\
  fst (parse_response loads (fenced "[1, 2]"))
  = fst (parse_response loads "[1, 2]") /\
  fst (parse_response loads (fenced_plain "[1, 2]"))
  = fst (parse_response loads "[1, 2]") /\
  clean_json_text (clean_json_text (fenced "[1, 2]"))
  = clean_json_text (fenced "[1, 2]") /\
  clean_json_text (clean_json_text "[1, 2]") = clean_json_text "[1, 2]".
Proof.
  intros loads.
  apply (fenced_and_bare_parse_alike loads "[1, 2]").
  reflexivity.
Defined.

(** C7 as claimed fails: the stripping is not idempotent.  A fence that
    follows a space is not at the start of a line and stays; [strip] then
    removes the space, and the second pass deletes the fence. *)
Lemma fence_stripping_not_idempotent :
  clean_json_text (" ```json" ++ nl ++ "{}") = "```json" ++ nl ++ "{}" /\
  clean_json_text (clean_json_text (" ```json" ++ nl ++ "{}")) = "{}" /\
  clean_json_text (clean_json_text (" ```json" ++ nl ++ "{}"))
  <> clean_json_text (" ```json" ++ nl ++ "{}").
Proof.
  split; [vm_compute; reflexivity |].
  split; [vm_compute; reflexivity |].
  vm_compute. discriminate.
Qed.

(* ================================================================== *)
(** * Further properties *)

(** ** The retrying call wrapper, continued *)

Section WrapperMore.

Context {A : Type}.
Variable func : M (option A).

(** Three failed attempts, the first two with a rate-limit error: the
    wrapper gives up and raises the third error, whatever it is, having
    slept 2 s and 4 s and not a third time. *)
Theorem safe_api_call_gives_up
  (w0 w1 w2 w3 : world) (t1 t2 : string) (e3 : exn) :
  func w0 = Some (Raises (GoogleAPIError t1), w1) ->
  is_rate_limit t1 = true ->
  func (after_backoff 0 w1) = Some (Raises (GoogleAPIError t2), w2) ->
  is_rate_limit t2 = true ->
  func (after_backoff 1 w2) = Some (Raises e3, w3) ->
  sleeps w1 = sleeps w0 ->
  sleeps w2 = sleeps (after_backoff 0 w1) ->
  sleeps w3 = sleeps (after_backoff 1 w2) ->
  safe_api_call func w0 = Some (Raises e3, w3) /\
  sleeps w3 = (4 :: 2 :: sleeps w0)%Q.
Proof.
  intros H1 R1 H2 R2 H3 S1 S2 S3. split.
  - unfold safe_api_call, API_MAX_RETRIES.
    rewrite (safe_api_call_from_retries _ _ _ _ _ _ H1 R1) by (cbn; lia).
    rewrite (safe_api_call_from_retries _ _ _ _ _ _ H2 R2) by (cbn; lia).
    destruct (rate_limited e3) eqn:R3.
    + destruct e3 as [t3 | t3 | t3]; try discriminate.
      apply (safe_api_call_from_exhausted func 0 _ _ _ H3).
    + apply safe_api_call_from_raises; assumption.
  - rewrite S3. cbn [after_backoff sleeps]. rewrite S2.
    cbn [after_backoff sleeps]. rewrite S1. reflexivity.
Qed.

End WrapperMore.

Lemma safe_api_call_gives_up_witness :
  let reply := fun (_ : string) (_ : nat) =>
    @Raises (option file) (GoogleAPIError "429 Quota exceeded") in
  let w3 := {| session := set_progress_detail
                 "API rate limit hit, retrying in 2s..." initial_session;
               clock_reads := 0; upload_calls := 3; get_calls := 0;
               generate_calls := 0; sleeps := (4 :: 2 :: nil)%Q |} in
  safe_api_call (upload_file reply "v.mp4") initial_world
    = Some (Raises (GoogleAPIError "429 Quota exceeded"), w3) /\
  sleeps w3 = (4 :: 2 :: sleeps initial_world)%Q.
Proof.
  intros reply w3.
  eapply (safe_api_call_gives_up (upload_file reply "v.mp4")
            initial_world _ _ w3 "429 Quota exceeded" "429 Quota exceeded");
    reflexivity.
Defined.

Lemma upload_file_run upload_reply video_path w :
  upload_file upload_reply video_path w
  = Some (upload_reply video_path (upload_calls w),
          {| session := session w;
             clock_reads := clock_reads w;
             upload_calls := S (upload_calls w);
             get_calls := get_calls w;
             generate_calls := generate_calls w;
             sleeps := sleeps w |}).
Proof.
  unfold upload_file. destruct (upload_reply _ _); reflexivity.
Qed.

(** The wrapped upload always comes to an end: it invokes the remote upload
    once, twice or three times and sleeps nothing, 2 s, or 2 s and 4 s. *)
Theorem safe_upload_is_bounded
  (upload_reply : string -> nat -> outcome (option file))
  (video_path : string) (w : world) :
  exists r w',
    safe_api_call (upload_file upload_reply video_path) w = Some (r, w') /\
    (upload_calls w < upload_calls w' <= upload_calls w + 3)%nat /\
    (sleeps w' = sleeps w \/ sleeps w' = (2 :: sleeps w)%Q \/
     sleeps w' = (4 :: 2 :: sleeps w)%Q).
Proof.
  set (U := upload_file upload_reply video_path).
  assert (step : forall w0 remaining attempt,
    (exists r, safe_api_call_from (S remaining) attempt U w0
               = Some (r, {| session := session w0;
                             clock_reads := clock_reads w0;
                             upload_calls := S (upload_calls w0);
                             get_calls := get_calls w0;
                             generate_calls := generate_calls w0;
                             sleeps := sleeps w0 |})) \/
    ((attempt < API_MAX_RETRIES - 1)%nat /\
     safe_api_call_from (S remaining) attempt U w0
     = safe_api_call_from remaining (S attempt) U
         (after_backoff attempt
            {| session := session w0;
               clock_reads := clock_reads w0;
               upload_calls := S (upload_calls w0);
               get_calls := get_calls w0;
               generate_calls := generate_calls w0;
               sleeps := sleeps w0 |}))).
  { intros w0 remaining attempt.
    pose proof (upload_file_run upload_reply video_path w0) as E.
    fold U in E.
    destruct (upload_reply video_path (upload_calls w0)) as [a | e].
    - left. eexists. apply safe_api_call_from_returns. exact E.
    - destruct (rate_limited e) eqn:R.
      + destruct e as [t | t | t]; try discriminate.
        destruct (Nat.ltb attempt (API_MAX_RETRIES - 1)) eqn:L.
        * right. apply Nat.ltb_lt in L. split; [exact L |].
          apply (safe_api_call_from_retries U _ _ _ _ _ E R L).
        * left. eexists. cbn [safe_api_call_from]. unfold try_except.
          rewrite E. cbn in R. rewrite R, L. reflexivity.
      + left. eexists. apply safe_api_call_from_raises; eassumption. }
  unfold safe_api_call, API_MAX_RETRIES.
  destruct (step w 2 0) as [(r & E) | (_ & E)].
  { eexists _, _. split; [exact E |]. cbn. split; [lia | auto]. }
  rewrite E. clear E.
  match goal with |- context [safe_api_call_from 2 1 U ?w0] =>
    destruct (step w0 1 1) as [(r & E) | (_ & E)] end.
  { eexists _, _. split; [exact E |]. cbn. split; [lia | auto]. }
  rewrite E. clear E.
  match goal with |- context [safe_api_call_from 1 2 U ?w0] =>
    destruct (step w0 0 2) as [(r & E) | (L & _)] end.
  { eexists _, _. split; [exact E |]. cbn. split; [lia | auto]. }
  cbn in L. lia.
Qed.

(** ** The analysis, continued *)

Section AnalysisMore.

Variable time_time : nat -> Q.
Variable upload_reply : string -> nat -> outcome (option file).
Variable get_reply : string -> nat -> outcome (option file).
Variable generate_reply : string -> file -> nat -> outcome (option response).
Variable PROMPT_HEAD PROMPT_TAIL : string.

Local Abbreviation analyze :=
  (analyze_wrestling_video time_time upload_reply get_reply generate_reply
     PROMPT_HEAD PROMPT_TAIL).
Local Abbreviation pipeline :=
  (run_pipeline time_time upload_reply get_reply generate_reply
     PROMPT_HEAD PROMPT_TAIL).
Local Abbreviation wait := (wait_for_processing time_time get_reply).
Local Abbreviation feedback :=
  (generate_feedback generate_reply PROMPT_HEAD PROMPT_TAIL).
Local Abbreviation click :=
  (on_analyze time_time upload_reply get_reply generate_reply
     PROMPT_HEAD PROMPT_TAIL).

Lemma bind_inv {A B} (m : M A) (k : A -> M B) w r w' :
  bind m k w = Some (r, w') ->
  (exists a w1, m w = Some (Returns a, w1) /\ k a w1 = Some (r, w')) \/
  (exists e, m w = Some (Raises e, w') /\ r = Raises e).
Proof.
  unfold bind. destruct (m w) as [[[a | e] w1] |]; intros H.
  - left. eauto.
  - right. inversion H; subst. eauto.
  - discriminate.
Qed.

Lemma analyze_keeps_result fuel video_path user_query w r w' :
  analyze fuel video_path user_query w = Some (r, w') ->
  analysis_result (session w') = analysis_result (session w).
Proof.
  intros H.
  destruct (cache_lookup (session w) (cache_key video_path user_query))
    as [r0 |] eqn:L.
  - rewrite (analyze_hit _ _ _ _ _ _ _ _ _ _ _ L) in H.
    inversion H; subst. reflexivity.
  - rewrite (analyze_miss_eq _ _ _ _ _ _ _ _ _ _ L) in H.
    assert (K : keeps (try_except
               (measure_performance time_time
                  (pipeline fuel video_path user_query))
               analysis_handler)).
    { apply keeps_try_except.
      - apply keeps_measure_performance, keeps_run_pipeline.
      - intros e. apply keeps_analysis_handler. }
    apply K in H. destruct H as (_ & H & _). exact H.
Qed.

(** A run that returns, then the store of line 1638, then the same request:
    the second run is answered from the slot with the same text. *)
Theorem stored_result_round_trip fuel fuel' video_path user_query w r w1 :
  analyze fuel video_path user_query w = Some (Returns r, w1) ->
  r <> "" ->
  analyze fuel' video_path user_query (store_result r w1)
  = Some (Returns r,
          after_hit (time_time (clock_reads w1)) (store_result r w1)).
Proof.
  intros H Hr.
  change (clock_reads w1) with (clock_reads (store_result r w1)).
  apply (analyze_hit time_time upload_reply get_reply generate_reply
           PROMPT_HEAD PROMPT_TAIL).
  apply cache_lookup_stored; cbn; auto.
  apply (analyze_sets_cache_id _ _ _ _ _ _ _ _ _ _ _ _ H).
Qed.

(** A run that raises still takes the slot for its key and leaves the stored
    result alone: when a result of an earlier request is in store, the same
    request made again is answered with that earlier result. *)
Theorem failed_run_leaves_stale_hit
  fuel fuel' video_path user_query w e w1 r :
  analyze fuel video_path user_query w = Some (Raises e, w1) ->
  analysis_result (session w) = Some r ->
  r <> "" ->
  analyze fuel' video_path user_query w1
  = Some (Returns r, after_hit (time_time (clock_reads w1)) w1).
Proof.
  intros H Hs Hr.
  apply (analyze_hit time_time upload_reply get_reply generate_reply
           PROMPT_HEAD PROMPT_TAIL).
  apply cache_lookup_stored; auto.
  - apply (analyze_sets_cache_id _ _ _ _ _ _ _ _ _ _ _ _ H).
  - rewrite (analyze_keeps_result _ _ _ _ _ _ H). exact Hs.
Qed.

(** The analysis never raises GoogleAPIError: whatever it raises is what an
    [except] clause of lines 1174-1201 put in place of the error caught. *)
Theorem analyze_raises_reraised fuel video_path user_query w e w' :
  analyze fuel video_path user_query w = Some (Raises e, w') ->
  (exists e0, e = reraised e0) /\ (forall text, e <> GoogleAPIError text).
Proof.
  intros H.
  assert (R : exists e0, e = reraised e0).
  { destruct (cache_lookup (session w) (cache_key video_path user_query))
      as [r0 |] eqn:L.
    - rewrite (analyze_hit _ _ _ _ _ _ _ _ _ _ _ L) in H. discriminate.
    - rewrite (analyze_miss_eq _ _ _ _ _ _ _ _ _ _ L) in H.
      unfold try_except in H.
      destruct (measure_performance _ _ _) as [[[a | e0] w1] |];
        try discriminate.
      unfold analysis_handler, bind, update, raise in H.
      inversion H; subst. exists e0. reflexivity. }
  split; [exact R |].
  destruct R as (e0 & ->). intros text. destruct e0; discriminate.
Qed.

(** How a miss turns the outcome of the pipeline into its own, with the
    counters. *)
Lemma analyze_of_pipeline_counts fuel video_path user_query w o w1 :
  cache_lookup (session w) (cache_key video_path user_query) = None ->
  pipeline fuel video_path user_query
    {| session := session (miss_entry (time_time (clock_reads w))
                             video_path user_query w);
       clock_reads := S (S (clock_reads w));
       upload_calls := upload_calls w;
       get_calls := get_calls w;
       generate_calls := generate_calls w;
       sleeps := sleeps w |} = Some (o, w1) ->
  exists w',
    analyze fuel video_path user_query w
    = Some (match o with
            | Returns text => Returns text
            | Raises e => Raises (reraised e)
            end, w') /\
    upload_calls w' = upload_calls w1 /\
    get_calls w' = get_calls w1 /\
    generate_calls w' = generate_calls w1 /\
    sleeps w' = sleeps w1.
Proof.
  intros Hmiss Hp. rewrite (analyze_miss_eq _ _ _ _ _ _ _ _ _ _ Hmiss).
  unfold try_except, measure_performance, bind at 1, now.
  cbn [miss_entry clock_reads upload_calls get_calls generate_calls sleeps
       session] in *.
  unfold try_finally. rewrite Hp.
  unfold bind, now, update. cbn [with_session].
  destruct o as [text | e].
  - eexists. split; [reflexivity |]. repeat split.
  - unfold analysis_handler, bind, update, raise. cbn [with_session].
    eexists. split; [reflexivity |]. repeat split.
Qed.

(** The upload fails three times with an error that speaks of a quota: the
    analysis raises a generic exception with the rate-limit message, after
    three upload calls, 6 s of backoff and no generation call. *)
Theorem quota_exhaustion_surfaces fuel video_path user_query w t1 t2 t3 :
  cache_lookup (session w) (cache_key video_path user_query) = None ->
  upload_reply video_path (upload_calls w) = Raises (GoogleAPIError t1) ->
  upload_reply video_path (S (upload_calls w))
    = Raises (GoogleAPIError t2) ->
  upload_reply video_path (S (S (upload_calls w)))
    = Raises (GoogleAPIError t3) ->
  contains "quota" (lower t1) = true ->
  contains "quota" (lower t2) = true ->
  contains "quota" (lower t3) = true ->
  exists w',
    analyze fuel video_path user_query w
    = Some (Raises (Exception
        "API rate limit exceeded. Please try again in a few minutes."), w') /\
    upload_calls w' = 3 + upload_calls w /\
    generate_calls w' = generate_calls w /\
    sleeps w' = (4 :: 2 :: sleeps w)%Q.
Proof.
  intros Hmiss U1 U2 U3 Q1 Q2 Q3.
  set (W := {| session := session (miss_entry (time_time (clock_reads w))
                                     video_path user_query w);
               clock_reads := S (S (clock_reads w));
               upload_calls := upload_calls w;
               get_calls := get_calls w;
               generate_calls := generate_calls w;
               sleeps := sleeps w |}).
  set (wa := with_session (set_progress_percent 10)
               (with_session (set_current_step "uploading") W)).
  assert (R : forall t, contains "quota" (lower t) = true ->
                        is_rate_limit t = true)
    by (intros t Ht; unfold is_rate_limit; rewrite Ht; reflexivity).
  assert (E : exists w3,
    safe_api_call (upload_file upload_reply video_path) wa
    = Some (Raises (GoogleAPIError t3), w3) /\
    upload_calls w3 = 3 + upload_calls w /\
    generate_calls w3 = generate_calls w /\
    sleeps w3 = (4 :: 2 :: sleeps w)%Q).
  { eexists. split.
    - unfold safe_api_call, API_MAX_RETRIES.
      rewrite (safe_api_call_from_retries _ _ _ _ _ _
                 (eq_trans (upload_file_run upload_reply video_path wa)
                    (f_equal (fun o => Some (o, _)) U1)) (R _ Q1))
        by (cbn; lia).
      rewrite (safe_api_call_from_retries _ _ _ _ _ _
                 (eq_trans
                    (upload_file_run upload_reply video_path
                       (after_backoff 0 (after_upload wa)))
                    (f_equal (fun o => Some (o, _)) U2)) (R _ Q2))
        by (cbn; lia).
      apply (safe_api_call_from_exhausted _ 0 _ _ _
               (eq_trans
                  (upload_file_run upload_reply video_path
                     (after_backoff 1
                        (after_upload (after_backoff 0 (after_upload wa)))))
                  (f_equal (fun o => Some (o, _)) U3))).
    - cbn. repeat split. }
  destruct E as (w3 & E & S1 & S2 & S3).
  assert (P : exists w1,
    pipeline fuel video_path user_query W
    = Some (Raises (GoogleAPIError t3), w1) /\
    upload_calls w1 = 3 + upload_calls w /\
    generate_calls w1 = generate_calls w /\
    sleeps w1 = (4 :: 2 :: sleeps w)%Q).
  { exists w3. split.
    - unfold run_pipeline. unfold bind at 1, update. unfold bind at 1.
      fold wa. apply (bind_raises _ _ _ _ _ E).
    - auto. }
  destruct P as (w1 & P & C1 & C2 & C3).
  destruct (analyze_of_pipeline_counts _ _ _ _ _ _ Hmiss P)
    as (w' & Ea & D1 & _ & D3 & D4).
  exists w'. cbn [reraised] in Ea. rewrite Q3 in Ea.
  split; [exact Ea |]. repeat split; congruence.
Qed.

(** *** No generation without a file in state SUCCEEDED *)

Lemma quiet_ret {A} (a : A) : preserves no_generation (ret a).
Proof. intros w r w' H. inversion H. reflexivity. Qed.

Lemma quiet_raise {A} (e : exn) : preserves no_generation (@raise A e).
Proof. intros w r w' H. inversion H. reflexivity. Qed.

Lemma quiet_bind {A B} (m : M A) (k : A -> M B) :
  preserves no_generation m -> (forall a, preserves no_generation (k a)) ->
  preserves no_generation (bind m k).
Proof.
  intros Hm Hk w r w' H.
  destruct (bind_inv _ _ _ _ _ H) as [(a & w1 & E1 & E2) | (e & E1 & _)].
  - unfold no_generation. rewrite (Hk _ _ _ _ E2). apply (Hm _ _ _ E1).
  - apply (Hm _ _ _ E1).
Qed.

Lemma quiet_update f : preserves no_generation (update f).
Proof. intros w r w' H. inversion H. reflexivity. Qed.

Lemma quiet_sleep d : preserves no_generation (sleep d).
Proof. intros w r w' H. inversion H. reflexivity. Qed.

Lemma quiet_now : preserves no_generation (now time_time).
Proof. intros w r w' H. inversion H. reflexivity. Qed.

Lemma quiet_upload_file p :
  preserves no_generation (upload_file upload_reply p).
Proof.
  intros w r w' H. rewrite upload_file_run in H. inversion H. reflexivity.
Qed.

Lemma quiet_get_file n : preserves no_generation (get_file get_reply n).
Proof.
  intros w r w' H. unfold get_file in H.
  destruct (get_reply _ _); inversion H; reflexivity.
Qed.

Lemma quiet_safe_api_call_from {A} remaining (func : M (option A)) :
  preserves no_generation func ->
  forall attempt,
    preserves no_generation (safe_api_call_from remaining attempt func).
Proof.
  intros Hf. induction remaining as [| remaining IH]; intros attempt.
  - apply quiet_ret.
  - cbn [safe_api_call_from]. intros w r w' H. unfold try_except in H.
    destruct (func w) as [[[a | e] w1] |] eqn:E; try discriminate.
    + inversion H; subst. apply (Hf _ _ _ E).
    + assert (G1 : no_generation w w1) by apply (Hf _ _ _ E).
      unfold no_generation in *. rewrite <- G1.
      destruct e as [text | text | text];
        try (inversion H; subst; reflexivity).
      destruct (_ && _); [| inversion H; subst; reflexivity].
      revert H. apply quiet_bind.
      * unfold backoff. apply quiet_bind;
          [apply quiet_update | intros _; apply quiet_sleep].
      * intros _. apply IH.
Qed.

Lemma quiet_wait fuel : forall start v,
  preserves no_generation (wait fuel start v).
Proof.
  induction fuel as [| fuel IH]; intros start v;
    cbn [wait_for_processing];
    destruct (String.eqb (state_name v) "PROCESSING");
    try apply quiet_ret.
  - intros w r w' H. discriminate.
  - apply quiet_bind; [apply quiet_now | intros t].
    destruct (negb _); [apply quiet_raise |].
    apply quiet_bind; [apply quiet_update | intros _].
    apply quiet_bind; [apply quiet_sleep | intros _].
    apply quiet_bind.
    + apply quiet_safe_api_call_from, quiet_get_file.
    + intros [v' |]; [apply IH | apply quiet_raise].
Qed.

(** What the wrapper returns was returned by the wrapped call. *)
Lemma safe_api_call_from_source {A} remaining (func : M (option A)) :
  forall attempt w a w',
    safe_api_call_from remaining attempt func w
    = Some (Returns (Some a), w') ->
    exists w0 w1, func w0 = Some (Returns (Some a), w1).
Proof.
  induction remaining as [| remaining IH]; intros attempt w a w' H.
  - discriminate.
  - cbn [safe_api_call_from] in H. unfold try_except in H.
    destruct (func w) as [[[x | e] w1] |] eqn:E; try discriminate.
    + inversion H; subst. eauto.
    + destruct e as [text | text | text]; try discriminate.
      destruct (_ && _); [| discriminate].
      destruct (bind_inv _ _ _ _ _ H) as [(u & w2 & _ & E2) | (e & _ & E2)];
        [| discriminate].
      apply (IH _ _ _ _ E2).
Qed.

(** The file the loop returns is the one it was given or one that get_file
    returned. *)
Lemma wait_source fuel : forall start v w v' w',
  wait fuel start v w = Some (Returns v', w') ->
  v' = v \/ exists n k, get_reply n k = Returns (Some v').
Proof.
  induction fuel as [| fuel IH]; intros start v w v' w' H;
    cbn [wait_for_processing] in H;
    destruct (String.eqb (state_name v) "PROCESSING");
    try (inversion H; subst; left; reflexivity); try discriminate.
  destruct (bind_inv _ _ _ _ _ H) as [(t & w1 & _ & H1) | (e & _ & E)];
    [| discriminate].
  destruct (negb _); [discriminate |].
  destruct (bind_inv _ _ _ _ _ H1) as [(u & w2 & _ & H2) | (e & _ & E)];
    [| discriminate].
  destruct (bind_inv _ _ _ _ _ H2) as [(u' & w3 & _ & H3) | (e & _ & E)];
    [| discriminate].
  destruct (bind_inv _ _ _ _ _ H3) as [(r & w4 & H4 & H5) | (e & _ & E)];
    [| discriminate].
  destruct r as [v1 |]; [| discriminate].
  right.
  destruct (IH _ _ _ _ _ H5) as [-> | S]; [| exact S].
  destruct (safe_api_call_from_source _ _ _ _ _ _ H4) as (w0 & w5 & E).
  unfold get_file in E.
  destruct (get_reply (name v) (get_calls w0)) as [f |] eqn:G;
    inversion E; subst. eauto.
Qed.

(** The loop never returns a file in state PROCESSING. *)
Lemma wait_leaves_processing fuel : forall start v w v' w',
  wait fuel start v w = Some (Returns v', w') ->
  state_name v' <> "PROCESSING".
Proof.
  induction fuel as [| fuel IH]; intros start v w v' w' H;
    cbn [wait_for_processing] in H;
    destruct (String.eqb (state_name v) "PROCESSING") eqn:S;
    try (inversion H; subst; apply String.eqb_neq; exact S);
    try discriminate.
  destruct (bind_inv _ _ _ _ _ H) as [(t & w1 & _ & H1) | (e & _ & E)];
    [| discriminate].
  destruct (negb _); [discriminate |].
  destruct (bind_inv _ _ _ _ _ H1) as [(u & w2 & _ & H2) | (e & _ & E)];
    [| discriminate].
  destruct (bind_inv _ _ _ _ _ H2) as [(u' & w3 & _ & H3) | (e & _ & E)];
    [| discriminate].
  destruct (bind_inv _ _ _ _ _ H3) as [(r & w4 & H4 & H5) | (e & _ & E)];
    [| discriminate].
  destruct r as [v1 |]; [| discriminate].
  apply (IH _ _ _ _ _ H5).
Qed.

Section WithoutSucceeded.

(** A remote side that never reports a file in state SUCCEEDED. *)
Hypothesis upload_not_succeeded : forall p k f,
  upload_reply p k = Returns (Some f) -> state_name f <> "SUCCEEDED".
Hypothesis get_not_succeeded : forall n k f,
  get_reply n k = Returns (Some f) -> state_name f <> "SUCCEEDED".

Lemma pipeline_without_succeeded fuel video_path user_query w o w1 :
  pipeline fuel video_path user_query w = Some (o, w1) ->
  generate_calls w1 = generate_calls w /\ exists e, o = Raises e.
Proof.
  intros H. unfold run_pipeline in H.
  destruct (bind_inv _ _ _ _ _ H) as [(u1 & wa & E1 & H1) | (e & E & _)];
    [| inversion E].
  pose proof (quiet_update _ _ _ _ E1) as G1.
  destruct (bind_inv _ _ _ _ _ H1) as [(u2 & wb & E2 & H2) | (e & E & _)];
    [| inversion E].
  pose proof (quiet_update _ _ _ _ E2) as G2.
  destruct (bind_inv _ _ _ _ _ H2) as [(r & wc & E3 & H3) | (e & E3 & ->)].
  2: { pose proof (quiet_safe_api_call_from _ _ (quiet_upload_file _)
                     _ _ _ _ E3) as G3.
       unfold no_generation in *. split; [congruence | eauto]. }
  pose proof (quiet_safe_api_call_from _ _ (quiet_upload_file _) _ _ _ _ E3)
    as G3.
  destruct r as [v0 |].
  2: { inversion H3; subst. unfold no_generation in *.
       split; [congruence | eauto]. }
  assert (P0 : state_name v0 <> "SUCCEEDED").
  { destruct (safe_api_call_from_source _ _ _ _ _ _ E3) as (w0 & w5 & E).
    rewrite upload_file_run in E. inversion E.
    eapply upload_not_succeeded. eassumption. }
  destruct (bind_inv _ _ _ _ _ H3) as [(u4 & wd & E4 & H4) | (e & E & _)];
    [| inversion E].
  pose proof (quiet_update _ _ _ _ E4) as G4.
  destruct (bind_inv _ _ _ _ _ H4) as [(u5 & we & E5 & H5) | (e & E & _)];
    [| inversion E].
  pose proof (quiet_update _ _ _ _ E5) as G5.
  destruct (bind_inv _ _ _ _ _ H5) as [(t & wf & E6 & H6) | (e & E & _)];
    [| inversion E].
  pose proof (quiet_now _ _ _ E6) as G6.
  destruct (bind_inv _ _ _ _ _ H6) as [(v' & wg & E7 & H7) | (e & E7 & ->)].
  2: { pose proof (quiet_wait _ _ _ _ _ _ E7) as G7.
       unfold no_generation in *. split; [congruence | eauto]. }
  pose proof (quiet_wait _ _ _ _ _ _ E7) as G7.
  assert (P : state_name v' <> "SUCCEEDED").
  { destruct (wait_source _ _ _ _ _ _ E7) as [-> | (n & k & G)];
      [exact P0 | eapply get_not_succeeded; eassumption]. }
  destruct (generate_feedback_rejects generate_reply PROMPT_HEAD PROMPT_TAIL
              user_query v' wg P)
    as (w2 & E8 & _ & G8).
  rewrite E8 in H7. inversion H7; subst.
  unfold no_generation in *. split; [congruence | eauto].
Qed.

(** With such a remote side the analysis never makes a generation call, and
    every request that misses the cache ends in an exception.  The file
    states the API reports are PROCESSING, ACTIVE and FAILED. *)
Theorem no_generation_without_succeeded fuel video_path user_query w r w' :
  analyze fuel video_path user_query w = Some (r, w') ->
  generate_calls w' = generate_calls w /\
  (cache_lookup (session w) (cache_key video_path user_query) = None ->
   exists e, r = Raises e).
Proof.
  intros H.
  destruct (cache_lookup (session w) (cache_key video_path user_query))
    as [r0 |] eqn:L.
  - rewrite (analyze_hit _ _ _ _ _ _ _ _ _ _ _ L) in H.
    inversion H; subst. split; [reflexivity | discriminate].
  - destruct (pipeline fuel video_path user_query
                {| session := session (miss_entry (time_time (clock_reads w))
                                         video_path user_query w);
                   clock_reads := S (S (clock_reads w));
                   upload_calls := upload_calls w;
                   get_calls := get_calls w;
                   generate_calls := generate_calls w;
                   sleeps := sleeps w |}) as [[o w1] |] eqn:P.
    + destruct (analyze_of_pipeline_counts _ _ _ _ _ _ L P)
        as (w2 & E & _ & _ & G & _).
      rewrite E in H. inversion H; subst.
      destruct (pipeline_without_succeeded _ _ _ _ _ _ P) as (G1 & e & ->).
      split; [cbn in G1; congruence |]. intros _. eauto.
    + rewrite (analyze_miss_eq _ _ _ _ _ _ _ _ _ _ L) in H.
      unfold try_except, measure_performance, bind at 1, now in H.
      cbn [miss_entry clock_reads upload_calls get_calls generate_calls
           sleeps session] in *.
      unfold try_finally in H. rewrite P in H. discriminate.
Qed.

End WithoutSucceeded.

(** *** The handler of the Analyze button *)

Lemma click_empty fuel w : click fuel "" w = Some (Returns Warned, w).
Proof. reflexivity. Qed.

Lemma click_eq fuel user_query w :
  user_query <> "" ->
  click fuel user_query w
  = match analyze fuel (temp_video_path (session w)) user_query
            (click_entry user_query w) with
    | Some (r, w1) => Some (Returns (click_result r), click_exit r w1)
    | None => None
    end.
Proof.
  intros Hne. apply String.eqb_neq in Hne.
  unfold on_analyze. rewrite Hne.
  unfold try_except, click_entry.
  unfold bind at 1 2 3. unfold get_session, update at 1.
  cbn [session with_session last_query set_processing temp_video_path].
  destruct (match last_query (session w) with
            | Some q => String.eqb q user_query
            | None => false
            end).
  - unfold bind, ret.
    destruct (analyze fuel (temp_video_path (session w)) user_query
                (with_session (set_processing true) w))
      as [[[text | e] w1] |]; reflexivity.
  - unfold bind, update.
    destruct (analyze fuel (temp_video_path (session w)) user_query _)
      as [[[text | e] w1] |]; reflexivity.
Qed.

(** The handler of the Analyze button lets no exception of the analysis
    out.  On an empty query it only warns and changes nothing.  On any other
    query it leaves the [processing] flag down and ends in one of two ways:
    in the rerun of line 1643, the result being stored and the flag
    [analysis_completed] up, or with the error of the analysis shown on the
    page. *)
Theorem click_settles fuel user_query w r w' :
  on_analyze time_time upload_reply get_reply generate_reply PROMPT_HEAD
    PROMPT_TAIL fuel user_query w = Some (r, w') ->
  (user_query = "" /\ r = Returns Warned /\ w' = w) \/
  (user_query <> "" /\ processing (session w') = false /\
   ((r = Returns Rerun /\ analysis_completed (session w') = true /\
     exists analysis_text,
       analysis_result (session w') = Some analysis_text) \/
    r = Returns Error_shown)).
Proof.
  intros H.
  destruct (String.eqb user_query "") eqn:Q.
  - apply String.eqb_eq in Q. subst user_query.
    rewrite click_empty in H. inversion H. left. auto.
  - apply String.eqb_neq in Q. right. split; [exact Q |].
    rewrite (click_eq _ _ _ Q) in H.
    destruct (analyze fuel (temp_video_path (session w)) user_query
                (click_entry user_query w)) as [[ra wa] |];
      [| discriminate].
    inversion H; subst. destruct ra as [analysis_text | e]; cbn.
    + split; [reflexivity |]. left.
      split; [reflexivity |]. split; [reflexivity |]. eauto.
    + split; [reflexivity |]. right. reflexivity.
Qed.


(** A click that repeats the last query, which passed the test of line
    1617 and so is not empty, on the video whose result is stored is served
    from the session: no remote call is made, the result stays, the hit
    counter goes up by one, and the click ends in the rerun of line 1643. *)
Theorem click_same_query_hits fuel user_query w text :
  user_query <> "" ->
  last_query (session w) = Some user_query ->
  cache_id (session w)
  = Some (cache_key (temp_video_path (session w)) user_query) ->
  analysis_result (session w) = Some text ->
  text <> "" ->
  exists w',
    on_analyze time_time upload_reply get_reply generate_reply PROMPT_HEAD
      PROMPT_TAIL fuel user_query w = Some (Returns Rerun, w') /\
    upload_calls w' = upload_calls w /\
    get_calls w' = get_calls w /\
    generate_calls w' = generate_calls w /\
    analysis_result (session w') = Some text /\
    analysis_completed (session w') = true /\
    processing (session w') = false /\
    cache_hits (session w') = (cache_hits (session w) + 1)%Z.
Proof.
  intros Hne Hq Hid Hr Ht. rewrite (click_eq _ _ _ Hne).
  assert (Hentry : click_entry user_query w
                   = with_session (set_processing true) w).
  { unfold click_entry.
    cbn [session with_session last_query set_processing].
    rewrite Hq, String.eqb_refl. reflexivity. }
  assert (L : cache_lookup (session (click_entry user_query w))
                (cache_key (temp_video_path (session w)) user_query)
              = Some text).
  { rewrite Hentry. apply cache_lookup_stored; cbn; assumption. }
  rewrite (analyze_hit _ _ _ _ _ _ _ _ _ _ _ L), Hentry.
  eexists. split; [reflexivity |]. cbn. repeat split; reflexivity.
Qed.


End AnalysisMore.

Lemma no_generation_without_succeeded_witness :
  exists r w',
    analyze_wrestling_video demo_clock active_upload active_get demo_generate
      "" "" 3 "v.mp4" "single leg" initial_world = Some (r, w') /\
    generate_calls w' = generate_calls initial_world /\
    (cache_lookup (session initial_world) (cache_key "v.mp4" "single leg")
     = None -> exists e, r = Raises e).
Proof.
  destruct (analyze_wrestling_video demo_clock active_upload active_get
              demo_generate "" "" 3 "v.mp4" "single leg" initial_world)
    as [[r w'] |] eqn:E; [| vm_compute in E; discriminate].
  exists r, w'. split; [reflexivity |].
  eapply (no_generation_without_succeeded demo_clock active_upload active_get
            demo_generate "" "").
  - intros p k f H. inversion H; subst.
    unfold polled_file. cbn. discriminate.
  - intros n k f H. inversion H; subst.
    unfold polled_file, file_in_state. cbn [state_name].
    destruct (Nat.ltb (S k) 3); discriminate.
  - exact E.
Defined.

Lemma stored_result_round_trip_witness :
  exists w1,
    analyze_wrestling_video demo_clock demo_upload demo_get demo_generate
      "" "" 0 "v.mp4" "single leg" initial_world
    = Some (Returns "report 0", w1) /\
    analyze_wrestling_video demo_clock demo_upload demo_get demo_generate
      "" "" 0 "v.mp4" "single leg" (store_result "report 0" w1)
    = Some (Returns "report 0",
            after_hit (demo_clock (clock_reads w1))
              (store_result "report 0" w1)).
Proof.
  eexists. split; [vm_compute; reflexivity |].
  eapply (stored_result_round_trip demo_clock demo_upload demo_get
            demo_generate "" "" 0 0 "v.mp4" "single leg" initial_world).
  - vm_compute. reflexivity.
  - discriminate.
Defined.

Lemma failed_run_leaves_stale_hit_witness :
  let w := store_result "report of the first video" initial_world in
  exists e w1,
    analyze_wrestling_video demo_clock active_upload active_get demo_generate
      "" "" 3 "second.mp4" "single leg" w = Some (Raises e, w1) /\
    analyze_wrestling_video demo_clock active_upload active_get demo_generate
      "" "" 3 "second.mp4" "single leg" w1
    = Some (Returns "report of the first video",
            after_hit (demo_clock (clock_reads w1)) w1).
Proof.
  intros w. eexists _, _. split; [vm_compute; reflexivity |].
  eapply (failed_run_leaves_stale_hit demo_clock active_upload active_get
            demo_generate "" "" 3 3 "second.mp4" "single leg" w).
  - vm_compute. reflexivity.
  - reflexivity.
  - discriminate.
Defined.

Lemma analyze_raises_reraised_witness :
  exists e w',
    analyze_wrestling_video demo_clock active_upload active_get demo_generate
      "" "" 3 "v.mp4" "single leg" initial_world = Some (Raises e, w') /\
    (exists e0, e = reraised e0) /\ (forall text, e <> GoogleAPIError text).
Proof.
  eexists _, _. split; [vm_compute; reflexivity |].
  eapply (analyze_raises_reraised demo_clock active_upload active_get
            demo_generate "" "" 3 "v.mp4" "single leg" initial_world).
  vm_compute. reflexivity.
Defined.

Lemma quota_exhaustion_surfaces_witness :
  let reply := fun (_ : string) (_ : nat) =>
    @Raises (option file) (GoogleAPIError "429 Quota exceeded") in
  exists w',
    analyze_wrestling_video demo_clock reply demo_get demo_generate
      "" "" 0 "v.mp4" "single leg" initial_world
    = Some (Raises (Exception
        "API rate limit exceeded. Please try again in a few minutes."), w') /\
    upload_calls w' = 3 + upload_calls initial_world /\
    generate_calls w' = generate_calls initial_world /\
    sleeps w' = (4 :: 2 :: sleeps initial_world)%Q.
Proof.
  intros reply.
  apply (quota_exhaustion_surfaces demo_clock reply demo_get demo_generate
           "" "" 0 "v.mp4" "single leg" initial_world
           "429 Quota exceeded" "429 Quota exceeded" "429 Quota exceeded");
    reflexivity.
Defined.

Lemma click_settles_witness :
  (exists w',
     on_analyze demo_clock demo_upload demo_get demo_generate "" "" 0
       "single leg" world_with_result = Some (Returns Rerun, w') /\
     (("single leg" = "" /\ Returns Rerun = Returns Warned /\
       w' = world_with_result) \/
      ("single leg" <> "" /\ processing (session w') = false /\
       ((Returns Rerun = Returns Rerun /\
         analysis_completed (session w') = true /\
         exists analysis_text,
           analysis_result (session w') = Some analysis_text) \/
        Returns Rerun = Returns Error_shown)))) /\
  (exists w',
     on_analyze demo_clock active_upload active_get demo_generate "" "" 3
       "single leg" world_with_result = Some (Returns Error_shown, w') /\
     (("single leg" = "" /\ Returns Error_shown = Returns Warned /\
       w' = world_with_result) \/
      ("single leg" <> "" /\ processing (session w') = false /\
       ((Returns Error_shown = Returns Rerun /\
         analysis_completed (session w') = true /\
         exists analysis_text,
           analysis_result (session w') = Some analysis_text) \/
        Returns Error_shown = Returns Error_shown)))) /\
  (exists w',
     on_analyze demo_clock demo_upload demo_get demo_generate "" "" 0
       "" world_with_result = Some (Returns Warned, w') /\
     (("" = "" /\ Returns Warned = Returns Warned /\
       w' = world_with_result) \/
      ("" <> "" /\ processing (session w') = false /\
       ((Returns Warned = Returns Rerun /\
         analysis_completed (session w') = true /\
         exists analysis_text,
           analysis_result (session w') = Some analysis_text) \/
        Returns Warned = Returns Error_shown)))).
Proof.
  split; [| split].
  - eexists. split; [vm_compute; reflexivity |].
    eapply (click_settles demo_clock demo_upload demo_get demo_generate
              "" "" 0 "single leg" world_with_result).
    vm_compute. reflexivity.
  - eexists. split; [vm_compute; reflexivity |].
    eapply (click_settles demo_clock active_upload active_get demo_generate
              "" "" 3 "single leg" world_with_result).
    vm_compute. reflexivity.
  - eexists. split; [vm_compute; reflexivity |].
    eapply (click_settles demo_clock demo_upload demo_get demo_generate
              "" "" 0 "" world_with_result).
    vm_compute. reflexivity.
Defined.

(* ================================================================== *)
(** ** The handler of the Analyze button and the reset, on instances *)


Lemma click_same_query_hits_witness :
  let w := with_session
             (fun s => set_last_query "single leg"
                         (set_cache_id (cache_key "" "single leg")
                            (set_analysis_result (Some "report 0") s)))
             initial_world in
  exists w',
    on_analyze demo_clock demo_upload demo_get demo_generate "" "" 0
      "single leg" w = Some (Returns Rerun, w') /\
    upload_calls w' = upload_calls w /\
    get_calls w' = get_calls w /\
    generate_calls w' = generate_calls w /\
    analysis_result (session w') = Some "report 0" /\
    analysis_completed (session w') = true /\
    processing (session w') = false /\
    cache_hits (session w') = (cache_hits (session w) + 1)%Z.
Proof.
  intros w.
  apply (click_same_query_hits demo_clock demo_upload demo_get
           demo_generate "" "" 0 "single leg" w "report 0").
  - discriminate.
  - reflexivity.
  - reflexivity.
  - reflexivity.
  - discriminate.
Defined.


(* ================================================================== *)
(** ** The time measurement around the analysis *)

Section AnalysisTiming.

Variable time_time : nat -> Q.
Variable upload_reply : string -> nat -> outcome (option file).
Variable get_reply : string -> nat -> outcome (option file).
Variable generate_reply : string -> file -> nat -> outcome (option response).
Variable PROMPT_HEAD PROMPT_TAIL : string.

Local Abbreviation analyze :=
  (analyze_wrestling_video time_time upload_reply get_reply generate_reply
     PROMPT_HEAD PROMPT_TAIL).

Lemma measure_performance_exit {A} (body : M A) w r w' :
  measure_performance time_time body w = Some (r, w') ->
  exists k,
    clock_reads w' = S k /\
    analysis_duration (session w')
    = Some (time_time k - time_time (clock_reads w))%Q.
Proof.
  unfold measure_performance, bind, now, try_finally, update.
  match goal with |- context [body ?w0] =>
    destruct (body w0) as [[r1 w1] |] end; [| discriminate].
  intros H. inversion H; subst. exists (clock_reads w1).
  split; reflexivity.
Qed.

(** A run that misses the cache records its duration on every exit, a
    failure included: the difference between the last reading of the clock
    in the run and the one taken on entering the measured block. *)
Theorem duration_recorded_on_every_exit fuel video_path user_query w r w' :
  cache_lookup (session w) (cache_key video_path user_query) = None ->
  analyze fuel video_path user_query w = Some (r, w') ->
  exists k,
    clock_reads w' = S k /\
    analysis_duration (session w')
    = Some (time_time k - time_time (S (clock_reads w)))%Q.
Proof.
  intros L H.
  rewrite (analyze_miss_eq _ _ _ _ _ _ _ _ _ _ L) in H.
  unfold try_except in H.
  match type of H with match ?m ?w0 with _ => _ end = _ =>
    destruct (m w0) as [[[a | e] w1] |] eqn:E end; try discriminate.
  - inversion H; subst.
    apply measure_performance_exit in E. exact E.
  - apply measure_performance_exit in E. destruct E as (k & E1 & E2).
    unfold analysis_handler, bind, update, raise in H.
    inversion H; subst. exists k. split; [exact E1 | exact E2].
Qed.

End AnalysisTiming.

Lemma duration_recorded_on_every_exit_witness :
  exists r w' k,
    analyze_wrestling_video demo_clock active_upload active_get demo_generate
      "" "" 3 "v.mp4" "single leg" initial_world = Some (r, w') /\
    clock_reads w' = S k /\
    analysis_duration (session w')
    = Some (demo_clock k - demo_clock (S (clock_reads initial_world)))%Q.
Proof.
  destruct (analyze_wrestling_video demo_clock active_upload active_get
              demo_generate "" "" 3 "v.mp4" "single leg" initial_world)
    as [[r w'] |] eqn:E; [| vm_compute in E; discriminate].
  destruct (duration_recorded_on_every_exit demo_clock active_upload
              active_get demo_generate "" "" 3 "v.mp4" "single leg"
              initial_world r w' eq_refl E) as (k & H1 & H2).
  exists r, w', k. split; [reflexivity | split; assumption].
Defined.

(* ================================================================== *)
(** ** The audio script and the voice audio *)

Section WrapperLast.

Context {A : Type}.
Variable func : M (option A).

Lemma safe_api_call_from_last remaining attempt : forall w r w',
  (2 <= remaining + attempt)%nat ->
  safe_api_call_from (S remaining) attempt func w = Some (r, w') ->
  exists w0, func w0 = Some (r, w').
Proof.
  revert attempt.
  induction remaining as [| remaining IH]; intros attempt w r w' Hb H;
    cbn [safe_api_call_from] in H; unfold try_except in H;
    destruct (func w) as [[[a | e] w1] |] eqn:E; try discriminate.
  - exists w. rewrite E. exact H.
  - exists w. rewrite E.
    destruct e as [t | t | t]; try exact H.
    assert (L : Nat.ltb attempt (API_MAX_RETRIES - 1) = false)
      by (apply Nat.ltb_ge; cbn; lia).
    rewrite L, andb_false_r in H. exact H.
  - exists w. rewrite E. exact H.
  - destruct e as [t | t | t]; try (exists w; rewrite E; exact H).
    destruct (is_rate_limit t && Nat.ltb attempt (API_MAX_RETRIES - 1))
      eqn:R.
    + unfold bind in H. rewrite backoff_eq in H.
      apply IH in H; [exact H |].
      apply andb_true_iff in R. destruct R as [_ R].
      apply Nat.ltb_lt in R. cbn in R. lia.
    + exists w. rewrite E. exact H.
Qed.

Lemma safe_api_call_from_total remaining attempt :
  (forall w, exists r w', func w = Some (r, w')) ->
  forall w, exists r w',
    safe_api_call_from remaining attempt func w = Some (r, w').
Proof.
  intros T. revert attempt.
  induction remaining as [| remaining IH]; intros attempt w.
  - eexists _, _. reflexivity.
  - cbn [safe_api_call_from]. unfold try_except.
    destruct (T w) as (r & w1 & E). rewrite E.
    destruct r as [a | e]; [eauto |].
    destruct e as [t | t | t]; try (eexists _, _; reflexivity).
    destruct (is_rate_limit t && Nat.ltb attempt (API_MAX_RETRIES - 1)).
    + unfold bind. rewrite backoff_eq. apply IH.
    + eexists _, _. reflexivity.
Qed.

(** Whatever the wrapper returns or raises is what its last attempt
    returned or raised: the wrapper has no result of its own, and in
    particular returns None only when the wrapped call did. *)
Theorem safe_api_call_result_is_an_attempt w r w' :
  safe_api_call func w = Some (r, w') ->
  exists w0, func w0 = Some (r, w').
Proof.
  apply safe_api_call_from_last. cbn. lia.
Qed.

End WrapperLast.

Section AudioScript.
Import Audio.

Variable script_reply : string -> nat -> outcome (option response).
Variable SCRIPT_HEAD SCRIPT_TAIL : string.

Local Abbreviation body :=
  (generate_audio_script_body script_reply SCRIPT_HEAD SCRIPT_TAIL).
Local Abbreviation script_of :=
  (generate_audio_script script_reply SCRIPT_HEAD SCRIPT_TAIL).
Local Abbreviation prompt := (script_prompt SCRIPT_HEAD SCRIPT_TAIL).

Lemma generate_script_run p w :
  generate_script script_reply p w
  = Some (script_reply p (generate_calls w),
          {| session := session w;
             clock_reads := clock_reads w;
             upload_calls := upload_calls w;
             get_calls := get_calls w;
             generate_calls := S (generate_calls w);
             sleeps := sleeps w |}).
Proof.
  unfold generate_script. destruct (script_reply _ _); reflexivity.
Qed.

(** The script generator always comes to an end and never raises: it
    returns the text of a response that the remote side gave to this very
    prompt, or else the analysis text itself. *)
Theorem audio_script_falls_back analysis_text w :
  exists script w',
    generate_audio_script_body script_reply SCRIPT_HEAD SCRIPT_TAIL
      analysis_text w = Some (Returns script, w') /\
    (script = analysis_text \/
     exists k r,
       script_reply (script_prompt SCRIPT_HEAD SCRIPT_TAIL analysis_text) k
       = Returns (Some r) /\
       text r = Returns script).
Proof.
  unfold generate_audio_script_body, try_except.
  destruct (safe_api_call_from_total
              (generate_script script_reply (prompt analysis_text))
              API_MAX_RETRIES 0
              (fun w0 => ex_intro _ _ (ex_intro _ _
                 (generate_script_run (prompt analysis_text) w0))) w)
    as (r & w1 & E).
  fold (safe_api_call
          (generate_script script_reply (prompt analysis_text))) in E.
  unfold bind. rewrite E.
  destruct r as [[resp |] | e].
  - destruct (safe_api_call_from_last _ 2 0 _ _ _ (le_n 2) E) as (w0 & E0).
    rewrite generate_script_run in E0.
    destruct (text resp) as [script | e] eqn:T.
    + eexists _, _. split; [reflexivity |]. right.
      exists (generate_calls w0), resp. split; [congruence | exact T].
    + eexists _, _. split; [reflexivity |]. left. reflexivity.
  - eexists _, _. split; [reflexivity |]. left. reflexivity.
  - eexists _, _. split; [reflexivity |]. left. reflexivity.
Qed.

Lemma memo_find_store k v c : memo_find k (memo_store k v c) = Some v.
Proof. cbn. rewrite String.eqb_refl. reflexivity. Qed.

Lemma memo_find_hit k v c : memo_find k (memo_hit k v c) = Some v.
Proof. cbn. rewrite String.eqb_refl. reflexivity. Qed.

Lemma script_repeats c analysis_text w script c' w' :
  script_of c analysis_text w = Some (Returns (script, c'), w') ->
  forall w2,
    script_of c' analysis_text w2
    = Some (Returns (script, memo_hit analysis_text script c'), w2).
Proof.
  unfold generate_audio_script. intros H w2.
  destruct (memo_find analysis_text c) as [s0 |] eqn:F.
  - inversion H; subst. rewrite memo_find_hit. reflexivity.
  - unfold bind in H.
    destruct (body analysis_text w) as [[[s1 | e] w1] |];
      try discriminate.
    inversion H; subst. rewrite memo_find_store. reflexivity.
Qed.


End AudioScript.

Section AudioSpeech.
Import Audio.

Variable audio : Type.
Variable audio_truthy : audio -> bool.
Variable ELEVENLABS_AVAILABLE : bool.
Variable has_generate has_Client : bool.
Variable module_generate : string -> string -> string -> outcome (option audio).
Variable client_generate : string -> string -> string -> outcome (option audio).

Local Abbreviation speak :=
  (generate_audio_analysis audio audio_truthy ELEVENLABS_AVAILABLE
     has_generate has_Client module_generate client_generate).

(** The pair that the audio generation hands back never holds both an
    audio and a message, and never neither: either an audio that is not
    empty, made with a key while the package is there, or one of three fixed
    messages.  An error of the SDK shows as the third message, never as
    its own text. *)
Theorem audio_or_message audio_script voice_id elevenlabs_api_key :
  (exists audio_bytes api_key,
     generate_audio_analysis audio audio_truthy ELEVENLABS_AVAILABLE
       has_generate has_Client module_generate client_generate
       audio_script voice_id elevenlabs_api_key
     = (Some audio_bytes, None) /\
     audio_truthy audio_bytes = true /\
     elevenlabs_api_key = Some api_key /\ api_key <> "" /\
     ELEVENLABS_AVAILABLE = true) \/
  (exists message,
     speak audio_script voice_id elevenlabs_api_key = (None, Some message) /\
     In message
       ["ElevenLabs API key not provided";
        "ElevenLabs package not installed. "
        ++ "Install with: pip install elevenlabs";
        "Failed to generate audio with ElevenLabs"]).
Proof.
  unfold generate_audio_analysis.
  destruct elevenlabs_api_key as [[| c api_key] |].
  - right. eexists. split; [reflexivity |]. cbn. auto.
  - destruct (negb ELEVENLABS_AVAILABLE) eqn:Av.
    + right. eexists. split; [reflexivity |]. cbn. auto.
    + apply negb_false_iff in Av.
      destruct (generate_elevenlabs_audio audio ELEVENLABS_AVAILABLE
                  has_generate has_Client module_generate client_generate
                  audio_script voice_id (String c api_key))
        as [audio_bytes |].
      * destruct (audio_truthy audio_bytes) eqn:T.
        -- left. exists audio_bytes, (String c api_key).
           split; [reflexivity |]. split; [exact T |].
           split; [reflexivity |]. split; [discriminate | exact Av].
        -- right. eexists. split; [reflexivity |]. cbn. auto.
      * right. eexists. split; [reflexivity |]. cbn. auto.
  - right. eexists. split; [reflexivity |]. cbn. auto.
Qed.

End AudioSpeech.

Lemma safe_api_call_result_is_an_attempt_witness :
  exists w0,
    upload_file active_upload "v.mp4" w0
    = Some (Returns (Some (polled_file 0)), after_upload initial_world).
Proof.
  apply (safe_api_call_result_is_an_attempt
           (upload_file active_upload "v.mp4") initial_world).
  reflexivity.
Defined.


(* ================================================================== *)
(** ** Stage 2 extraction, continued *)

Lemma upto_last_brace_none post :
  ~ In "}"%char (list_ascii_of_string post) -> upto_last_brace post = None.
Proof.
  induction post as [| c post IH]; cbn; intros H; [reflexivity |].
  rewrite IH by tauto.
  destruct (Ascii.eqb c "}") eqn:E; [| reflexivity].
  apply Ascii.eqb_eq in E. subst. tauto.
Qed.

Lemma upto_last_brace_app mid post :
  ~ In "}"%char (list_ascii_of_string post) ->
  upto_last_brace (mid ++ String "}" post) = Some (mid ++ "}").
Proof.
  intros H. induction mid as [| c mid IH].
  - cbn. rewrite (upto_last_brace_none post H). reflexivity.
  - cbn [append upto_last_brace]. rewrite IH. reflexivity.
Qed.

Lemma search_braces_app pre mid post :
  ~ In "{"%char (list_ascii_of_string pre) ->
  ~ In "}"%char (list_ascii_of_string post) ->
  search_braces (pre ++ "{" ++ mid ++ "}" ++ post) = Some ("{" ++ mid ++ "}").
Proof.
  intros Hpre Hpost.
  change (pre ++ "{" ++ mid ++ "}" ++ post)
    with (pre ++ String "{" (mid ++ String "}" post)).
  induction pre as [| c pre IH].
  - cbn [append search_braces]. rewrite Ascii.eqb_refl.
    rewrite (upto_last_brace_app mid post Hpost). reflexivity.
  - cbn [append search_braces].
    destruct (Ascii.eqb c "{") eqn:E.
    + apply Ascii.eqb_eq in E. subst. cbn in Hpre. tauto.
    + apply IH. cbn in Hpre. tauto.
Qed.

(** A reply that wraps one JSON object in prose is not lost: when
    [json.loads] raises [json.JSONDecodeError] on the cleaned text, the
    stretch from the first opening brace to the last closing brace is parsed
    instead, and what it yields is returned as it is, without the validation
    of the main path. *)
Theorem embedded_json_is_recovered
  (json_loads : string -> loads_result) raw pre mid post v :
  clean_json_text raw = pre ++ "{" ++ mid ++ "}" ++ post ->
  ~ In "{"%char (list_ascii_of_string pre) ->
  ~ In "}"%char (list_ascii_of_string post) ->
  json_loads (clean_json_text raw) = JSONDecodeError ->
  json_loads ("{" ++ mid ++ "}") = Parsed v ->
  parse_response json_loads raw
  = (Returned (Some v),
     [Debug_raw_response (substring 0 500 raw); Err_decode_failed;
      Err_raw_text (substring 0 1000 raw); Warn_attempt_embedded;
      Warn_embedded_parsed]).
Proof.
  intros Hc Hpre Hpost Hfail Hok.
  unfold parse_response. rewrite Hfail.
  unfold decode_error_handler.
  rewrite Hc, (search_braces_app pre mid post Hpre Hpost), Hok.
  reflexivity.
Qed.

Lemma embedded_json_is_recovered_witness :
  let loads := fun s : string =>
    if String.eqb s "{}" then Parsed (JObj []) else JSONDecodeError in
  parse_response loads "Here is the data: {} Hope it helps."
  = (Returned (Some (JObj [])),
     [Debug_raw_response
        (substring 0 500 "Here is the data: {} Hope it helps.");
      Err_decode_failed;
      Err_raw_text (substring 0 1000 "Here is the data: {} Hope it helps.");
      Warn_attempt_embedded; Warn_embedded_parsed]).
Proof.
  intros loads.
  apply (embedded_json_is_recovered loads
           "Here is the data: {} Hope it helps."
           "Here is the data: " "" " Hope it helps." (JObj [])).
  - reflexivity.
  - cbn. intuition discriminate.
  - cbn. intuition discriminate.
  - reflexivity.
  - reflexivity.
Defined.

(** On the main path the validation only writes warnings: a reply that
    parses to a dict is returned as it is, whatever its keys and groups,
    and a reply that parses to anything else is dropped, the last log entry
    being the one of the catch-all handler. *)
Theorem parsed_reply_dict_or_nothing
  (json_loads : string -> loads_result) raw v :
  json_loads (clean_json_text raw) = Parsed v ->
  match v with
  | JObj _ => fst (parse_response json_loads raw) = Returned (Some v)
  | _ => fst (parse_response json_loads raw) = Returned None /\
         last (snd (parse_response json_loads raw)) Info_starting
         = Err_unexpected
  end.
Proof.
  intros H. unfold parse_response. rewrite H.
  destruct v as [| b | z | q | s | l | d]; cbn [basic_validation fst snd].
  - split; reflexivity.
  - split; reflexivity.
  - split; reflexivity.
  - split; reflexivity.
  - split; [reflexivity |].
    rewrite !app_assoc. apply last_last.
  - split; [reflexivity |].
    rewrite !app_assoc. apply last_last.
  - reflexivity.
Qed.

Lemma parsed_reply_dict_or_nothing_witness :
  let loads := fun s : string =>
    if String.eqb s "[1, 2]" then Parsed (JArr [JInt 1; JInt 2])
    else JSONDecodeError in
  fst (parse_response loads "[1, 2]") = Returned None /\
  last (snd (parse_response loads "[1, 2]")) Info_starting = Err_unexpected.
Proof.
  intros loads.
  apply (parsed_reply_dict_or_nothing loads "[1, 2]" (JArr [JInt 1; JInt 2])).
  reflexivity.
Defined.

(** A fence around the reply never changes what stage 2 returns, whatever
    the payload is: the reply that carries a non-empty payload between a
    [```json] line, or a bare [```] line, and a closing [```] line is
    extracted to the same value as the payload sent bare. *)
Theorem fenced_reply_extracts_alike
  (json_loads : string -> loads_result) (client : bool)
  (gen_fenced gen_plain gen_bare : string -> gen_reply)
  (PROMPT markdown_report payload : string) :
  payload <> "" ->
  gen_fenced (replace "{markdown_report}" markdown_report PROMPT)
  = GenResponse (Some (fenced payload)) ->
  gen_plain (replace "{markdown_report}" markdown_report PROMPT)
  = GenResponse (Some (fenced_plain payload)) ->
  gen_bare (replace "{markdown_report}" markdown_report PROMPT)
  = GenResponse (Some payload) ->
  fst (run_stage2_extraction json_loads client gen_fenced PROMPT
         markdown_report)
  = fst (run_stage2_extraction json_loads client gen_bare PROMPT
           markdown_report) /\
  fst (run_stage2_extraction json_loads client gen_plain PROMPT
         markdown_report)
  = fst (run_stage2_extraction json_loads client gen_bare PROMPT
           markdown_report).
Proof.
  intros Hne Hf Hp Hb. unfold run_stage2_extraction.
  destruct (negb client); [split; reflexivity |].
  destruct (String.eqb markdown_report ""
            || String.eqb (strip markdown_report) "");
    [split; reflexivity |].
  rewrite Hf, Hp, Hb.
  destruct payload as [| c payload]; [congruence |].
  pose proof (parse_response_result json_loads
                (fenced (String c payload)) (String c payload)
                (clean_fenced _)) as E1.
  pose proof (parse_response_result json_loads
                (fenced_plain (String c payload)) (String c payload)
                (clean_fenced_plain _)) as E2.
  unfold fenced in *. unfold fenced_plain in *.
  cbn [append] in *.
  destruct (parse_response json_loads (String c payload)) as [r0 l0].
  split.
  - match goal with
    | |- context [parse_response json_loads ?x] =>
        destruct (parse_response json_loads x) as [r1 l1]
    end. exact E1.
  - match goal with
    | |- context [parse_response json_loads ?x] =>
        destruct (parse_response json_loads x) as [r1 l1]
    end. exact E2.
Qed.

Lemma fenced_reply_extracts_alike_witness :
  let loads := fun s : string =>
    if String.eqb s "not json" then JSONDecodeError else Parsed (JObj []) in
  fst (run_stage2_extraction loads true
         (fun _ => GenResponse (Some (fenced "not json"))) "{markdown_report}"
         "## Pitch")
  = fst (run_stage2_extraction loads true
           (fun _ => GenResponse (Some "not json")) "{markdown_report}"
           "## Pitch") /\
  fst (run_stage2_extraction loads true
         (fun _ => GenResponse (Some (fenced_plain "not json")))
         "{markdown_report}" "## Pitch")
  = fst (run_stage2_extraction loads true
           (fun _ => GenResponse (Some "not json")) "{markdown_report}"
           "## Pitch").
Proof.
  intros loads.
  apply (fenced_reply_extracts_alike loads true
           (fun _ => GenResponse (Some (fenced "not json")))
           (fun _ => GenResponse (Some (fenced_plain "not json")))
           (fun _ => GenResponse (Some "not json"))
           "{markdown_report}" "## Pitch" "not json").
  - discriminate.
  - reflexivity.
  - reflexivity.
  - reflexivity.
Defined.

Lemma in_drop x k : forall s,
  In x (list_ascii_of_string (drop k s)) -> In x (list_ascii_of_string s).
Proof.
  induction k as [| k IH]; intros [| c s] H; cbn in *; auto.
Qed.

Lemma prefix_backquotes r :
  prefix "```" r = true -> In BACKQUOTE (list_ascii_of_string r).
Proof.
  destruct r as [| c r]; [discriminate |].
  rewrite prefix_cons. destruct (ascii_dec "`" c) as [<- |]; [| discriminate].
  intros _. left. reflexivity.
Qed.

Lemma match_len_no_backquote bol s :
  ~ In BACKQUOTE (list_ascii_of_string s) -> match_len bol s = None.
Proof.
  intros H. unfold match_len.
  destruct (prefix "```json" s) eqn:P1.
  - exfalso. apply H.
    destruct s as [| c s]; [discriminate |].
    rewrite prefix_cons in P1.
    destruct (ascii_dec "`" c) as [<- |]; [| discriminate].
    left. reflexivity.
  - rewrite andb_false_r.
    destruct (prefix "```" (drop (span_ws s) s)) eqn:P2; [| reflexivity].
    exfalso. apply H. apply (in_drop _ (span_ws s)).
    apply prefix_backquotes. exact P2.
Qed.

Lemma re_sub_no_backquote s : forall bol,
  ~ In BACKQUOTE (list_ascii_of_string s) -> re_sub_from 0 bol s = s.
Proof.
  induction s as [| c s IH]; intros bol H; [reflexivity |].
  rewrite re_sub_no_match by (apply match_len_no_backquote; exact H).
  rewrite IH; [reflexivity |]. cbn in H. tauto.
Qed.

(** A reply without a backquote is only trimmed: the fence pattern deletes
    nothing from it. *)
Theorem unfenced_reply_is_only_stripped raw :
  ~ In BACKQUOTE (list_ascii_of_string raw) ->
  clean_json_text raw = strip raw.
Proof.
  intros H. unfold clean_json_text, re_sub_fences.
  rewrite re_sub_no_backquote by exact H. reflexivity.
Qed.

Lemma unfenced_reply_is_only_stripped_witness :
  clean_json_text "  [1, 2] " = strip "  [1, 2] ".
Proof.
  apply (unfenced_reply_is_only_stripped "  [1, 2] ").
  vm_compute. intuition discriminate.
Defined.

(* ================================================================== *)
(** ** Report assembly, continued *)

Lemma chart_shape_some data n vs ls :
  chart_shape data = Some (n, vs, ls) ->
  (0 < n)%Z /\ Z.of_nat (List.length vs) = n /\
  Z.of_nat (List.length ls) = n.
Proof.
  unfold chart_shape.
  destruct data as [[| | | | | | d] |]; try discriminate.
  destruct (as_list (dict_get d "values")) as [vs0 |]; [| discriminate].
  destruct (as_list (dict_get d "labels")) as [ls0 |]; [| discriminate].
  destruct (as_int (dict_get d "num_axes")) as [n0 |]; [| discriminate].
  destruct ((0 <? n0)%Z) eqn:E1; [| discriminate].
  destruct ((Z.of_nat (List.length vs0) =? n0)%Z) eqn:E2; [| discriminate].
  destruct ((Z.of_nat (List.length ls0) =? n0)%Z) eqn:E3; [| discriminate].
  cbn. intros H. inversion H; subst.
  apply Z.ltb_lt in E1. apply Z.eqb_eq in E2. apply Z.eqb_eq in E3.
  auto.
Qed.

Section RenderingMore.

Variable float_of_string : string -> option Q.
Variable repr : json -> string.
Variable str_of_int : Z -> string.

Local Abbreviation report :=
  (create_pitcher_report float_of_string repr str_of_int).
Local Abbreviation chart := (chart_of float_of_string repr).

Lemma chart_of_cases d k :
  chart d k = None \/ chart d k = Some [] \/
  exists ci, chart d k = Some [ci] /\ key ci = k /\ (0 < num_axes ci)%Z /\
    Z.of_nat (List.length (values ci)) = num_axes ci /\
    Z.of_nat (List.length (labels ci)) = num_axes ci.
Proof.
  unfold chart_of.
  destruct (chart_shape (dict_get d k)) as [[[n vs] ls] |] eqn:E;
    [| right; left; reflexivity].
  destruct (valid_values float_of_string vs) as [xs |] eqn:V;
    [| left; reflexivity].
  right. right. eexists. split; [reflexivity |].
  destruct (chart_shape_some _ _ _ _ E) as (H1 & H2 & H3).
  cbn. rewrite length_map, (valid_values_length _ _ _ V). auto.
Qed.

(** Every chart that reaches the figure is drawable: its key is one of the
    four groups, it has at least one axis, and it carries exactly one value
    and one label per axis.  The charts come in the order of the four keys,
    at most one per key, so they fill at most two rows of two. *)
Theorem rendered_charts_are_drawable
  d age level title_text charts rows summary_lines predictions roadmap :
  report (Some (JObj d)) age level
  = Some (ReportFigure title_text charts rows summary_lines predictions
            roadmap) ->
  (forall ci, In ci charts ->
     In (key ci) chart_keys /\ (0 < num_axes ci)%Z /\
     Z.of_nat (List.length (values ci)) = num_axes ci /\
     Z.of_nat (List.length (labels ci)) = num_axes ci) /\
  (exists keep : string -> bool,
     map key charts = filter keep chart_keys) /\
  (List.length charts <= 4)%nat /\
  rows = Nat.div (List.length charts + 1) 2 /\
  (rows <= 2)%nat.
Proof.
  unfold create_pitcher_report.
  destruct (negb (truthy (JObj d))); [discriminate |].
  destruct (valid_chart_data float_of_string repr d) as [cs |] eqn:V;
    [| discriminate].
  intros H. inversion H; subst. clear H.
  unfold valid_chart_data, chart_keys in V. cbn [charts_of] in V.
  destruct (chart_of_cases d "skills")
    as [E1 | [E1 | (c1 & E1 & K1 & P1)]];
    rewrite E1 in V; [discriminate | |];
  (destruct (chart_of_cases d "power")
     as [E2 | [E2 | (c2 & E2 & K2 & P2)]];
     rewrite E2 in V; [discriminate | |]);
  (destruct (chart_of_cases d "mocap")
     as [E3 | [E3 | (c3 & E3 & K3 & P3)]];
     rewrite E3 in V; [discriminate | |]);
  (destruct (chart_of_cases d "mobility")
     as [E4 | [E4 | (c4 & E4 & K4 & P4)]];
     rewrite E4 in V; [discriminate | |]);
  cbn [app] in V; inversion V; subst charts; clear V;
  cbn [app List.length map];
  (split;
   [ intros ci Hin; cbn [In] in Hin;
     repeat match goal with
            | H : _ \/ _ |- _ => destruct H
            | H : False |- _ => destruct H
            end; subst ci;
     (split; [cbn; auto 6 | assumption])
   | split;
     [ exists (fun k =>
         existsb (String.eqb k)
           (map key (match chart d "skills" with Some c => c | None => [] end
                     ++ match chart d "power" with Some c => c | None => [] end
                     ++ match chart d "mocap" with Some c => c | None => [] end
                     ++ match chart d "mobility" with
                        | Some c => c
                        | None => []
                        end)));
       rewrite E1, E2, E3, E4; cbn [app map];
       repeat match goal with H : key _ = _ |- _ => rewrite H; clear H end;
       reflexivity
     | split; [lia | split; [reflexivity | cbn; lia]] ] ]).
Qed.

Variable json_loads : string -> loads_result.
Variable gemini_client_json : bool.
Variable generate_content : string -> gen_reply.
Variable JSON_EXTRACTION_PROMPT : string.

(** The caller of stage 2 never shows the error figure: a figure is made
    only from extracted data that is not empty, after the status line that
    announces the report. *)
Theorem caller_never_shows_error_figure markdown_report age level ups fig :
  stage2_and_report float_of_string repr str_of_int json_loads
    gemini_client_json generate_content JSON_EXTRACTION_PROMPT
    markdown_report age level = (ups, Some fig) ->
  fig <> ErrorFigure /\
  ups = [Status_extracting; Status_generating_report] /\
  markdown_report <> "".
Proof.
  unfold stage2_and_report.
  destruct (String.eqb markdown_report "") eqn:E; [discriminate |].
  destruct (fst (run_stage2_extraction json_loads gemini_client_json
                   generate_content JSON_EXTRACTION_PROMPT markdown_report))
    as [[v |] |]; [| discriminate | discriminate].
  destruct (negb (truthy v)) eqn:T; [discriminate |].
  destruct (create_pitcher_report float_of_string repr str_of_int (Some v)
              age level) as [report_figure |] eqn:Hf; [| discriminate].
  intros H. inversion H as [[Hu Hfig]]. subst fig. clear H.
  split; [| split; [reflexivity |]].
  - unfold create_pitcher_report in Hf. rewrite T in Hf.
    destruct v; try discriminate.
    destruct (valid_chart_data float_of_string repr fields);
      [| discriminate].
    inversion Hf. discriminate.
  - intros ->. discriminate.
Qed.

End RenderingMore.

Lemma rendered_charts_are_drawable_witness :
  exists charts,
    create_pitcher_report (fun _ => None) (fun _ => "") (fun _ => "")
      (Some (JObj sample_report)) None None
    = Some (ReportFigure "Pitcher Performance Analysis" charts 1
              ["Good rhythm."] ["No prediction data extracted."]
              ["No roadmap data extracted."]) /\
    (forall ci, In ci charts ->
       In (key ci) chart_keys /\ (0 < num_axes ci)%Z /\
       Z.of_nat (List.length (values ci)) = num_axes ci /\
       Z.of_nat (List.length (labels ci)) = num_axes ci) /\
    (exists keep : string -> bool,
       map key charts = filter keep chart_keys) /\
    (List.length charts <= 4)%nat /\
    1%nat = Nat.div (List.length charts + 1) 2 /\
    (1 <= 2)%nat.
Proof.
  eexists. split; [vm_compute; reflexivity |].
  eapply (rendered_charts_are_drawable (fun _ => None) (fun _ => "")
            (fun _ => "") sample_report None None).
  vm_compute. reflexivity.
Defined.

Lemma caller_never_shows_error_figure_witness :
  let loads := fun _ : string => Parsed (JObj sample_report) in
  let gen := fun _ : string => GenResponse (Some "{...}") in
  exists ups fig,
    stage2_and_report (fun _ => None) (fun _ => "") (fun _ => "") loads true
      gen "Report: {markdown_report}" "## Pitch" None None
    = (ups, Some fig) /\
    fig <> ErrorFigure /\
    ups = [Status_extracting; Status_generating_report] /\
    "## Pitch" <> "".
Proof.
  intros loads gen. eexists _, _. split; [vm_compute; reflexivity |].
  eapply (caller_never_shows_error_figure (fun _ => None) (fun _ => "")
            (fun _ => "") loads true gen "Report: {markdown_report}"
            "## Pitch" None None).
  vm_compute. reflexivity.
Defined.

(* ================================================================== *)
(** ** gradiocoach.py: the upload of the prepared files *)

Section GradioUploadFacts.
Import GradioUpload.

Variable time_time : nat -> Q.
Variable getsize : string -> outcome Z.
Variable upload_reply : string -> nat -> outcome file.
Variable get_reply : string -> nat -> outcome file.
Variable delete_reply : string -> nat -> outcome unit.
Variable basename : string -> string.

Local Abbreviation wait :=
  (wait_while_processing time_time get_reply delete_reply).
Local Abbreviation one_file :=
  (process_file time_time getsize upload_reply get_reply delete_reply
     basename).
Local Abbreviation all_files :=
  (upload_files time_time getsize upload_reply get_reply delete_reply
     basename).

Ltac world_simpl :=
  cbn [file_ref active_file_refs clock_reads upload_calls get_calls deleted
       sleeps yields].

Lemma try_delete_run n w :
  try_delete delete_reply n w
  = Some (Returns tt,
          {| file_ref := file_ref w; active_file_refs := active_file_refs w;
             clock_reads := clock_reads w; upload_calls := upload_calls w;
             get_calls := get_calls w; deleted := n :: deleted w;
             sleeps := sleeps w; yields := yields w |}).
Proof.
  unfold try_delete, try_except, delete_file.
  destruct (delete_reply n (List.length (deleted w))) as [[] | e];
    reflexivity.
Qed.

Lemma wait_unfold fuel start b w :
  wait fuel start b w
  = match file_ref w with
    | None =>
        Some (Raises "'NoneType' object has no attribute 'state'", w)
    | Some f =>
        if String.eqb (state_name f) "PROCESSING" then
          match fuel with
          | O => None
          | S fuel' =>
              bind (now time_time) (fun t =>
                if negb (Qle_bool (t - start)
                           (inject_Z FILE_PROCESSING_TIMEOUT))
                then
                  bind (yield (Timeout b)) (fun _ =>
                  bind (try_delete delete_reply (name f)) (fun _ =>
                  set_file_ref None))
                else
                  bind (sleep FILE_CHECK_INTERVAL) (fun _ =>
                  bind
                    (try_except
                       (bind (get_file get_reply (name f)) (fun f' =>
                        bind (set_file_ref (Some f')) (fun _ => ret true)))
                       (fun _ =>
                          bind (try_delete delete_reply (name f)) (fun _ =>
                          bind (set_file_ref None) (fun _ => ret false))))
                    (fun fetched : bool =>
                       if fetched then wait fuel' start b else ret tt))) w
          end
        else Some (Returns tt, w)
    end.
Proof.
  destruct fuel; cbn [wait_while_processing]; unfold bind at 1;
    unfold get_file_ref; destruct (file_ref w) as [f |]; try reflexivity;
    destruct (String.eqb (state_name f) "PROCESSING"); reflexivity.
Qed.

(** What the loop leaves behind: either a handle that is out of state
    PROCESSING and nothing deleted, or no handle and one deletion
    attempted. *)
Lemma wait_cases fuel start b : forall w f r w',
  file_ref w = Some f ->
  wait fuel start b w = Some (r, w') ->
  r = Returns tt /\
  active_file_refs w' = active_file_refs w /\
  upload_calls w' = upload_calls w /\
  ((exists f', file_ref w' = Some f' /\ state_name f' <> "PROCESSING" /\
               deleted w' = deleted w) \/
   (file_ref w' = None /\ exists n, deleted w' = n :: deleted w)).
Proof.
  induction fuel as [| fuel IH]; intros w f r w' Hf H;
    rewrite wait_unfold, Hf in H;
    destruct (String.eqb (state_name f) "PROCESSING") eqn:P;
    try discriminate.
  - inversion H; subst.
    split; [reflexivity |]. split; [reflexivity |].
    split; [reflexivity |]. left. exists f.
    split; [exact Hf |]. split; [| reflexivity].
    intros Q. rewrite Q in P. discriminate.
  - unfold bind at 1 in H. unfold now in H.
    match type of H with context [negb ?c] => destruct (negb c) end.
    + unfold bind, yield in H. rewrite try_delete_run in H.
      unfold set_file_ref in H. cbn in H. inversion H; subst. cbn.
      repeat split. right. split; [reflexivity | eauto].
    + unfold bind at 1 2 in H. unfold sleep, try_except in H.
      unfold bind at 1 in H. unfold get_file at 1 in H.
      cbn [get_calls] in H.
      destruct (get_reply (name f) (get_calls w)) as [f' | e].
      * unfold bind, set_file_ref, ret in H.
        match type of H with wait fuel start b ?w0 = _ =>
          destruct (IH w0 f' r w' eq_refl H) as (R & A & U & C) end.
        cbn in A, U, C. auto.
      * unfold bind in H. rewrite try_delete_run in H.
        unfold set_file_ref, ret in H. cbn in H.
        inversion H; subst. cbn.
        repeat split. right. split; [reflexivity | eauto].
  - inversion H; subst.
    split; [reflexivity |]. split; [reflexivity |].
    split; [reflexivity |]. left. exists f.
    split; [exact Hf |]. split; [| reflexivity].
    intros Q. rewrite Q in P. discriminate.
Qed.

Lemma after_wait_cases b w r w' :
  after_wait time_time delete_reply b w = Some (r, w') ->
  r = Returns tt /\ upload_calls w' = upload_calls w /\
  match file_ref w with
  | None => active_file_refs w' = active_file_refs w /\
            deleted w' = deleted w
  | Some f =>
      (state_name f = "ACTIVE" /\
       active_file_refs w' = (active_file_refs w ++ [f])%list /\
       deleted w' = deleted w) \/
      (state_name f <> "ACTIVE" /\
       active_file_refs w' = active_file_refs w /\
       deleted w' = name f :: deleted w)
  end.
Proof.
  unfold after_wait. unfold bind at 1. unfold get_file_ref.
  destruct (file_ref w) as [f |].
  - unfold bind at 1. unfold now; world_simpl.
    destruct (String.eqb (state_name f) "ACTIVE") eqn:A.
    + apply String.eqb_eq in A. unfold append_active. cbn.
      intros H. inversion H; subst. cbn. auto 10.
    + assert (NA : state_name f <> "ACTIVE")
        by (intros Q; rewrite Q in A; discriminate).
      destruct (String.eqb (state_name f) "FAILED");
        unfold bind, yield; rewrite try_delete_run; cbn;
        intros H; inversion H; subst; cbn; auto 10.
  - unfold ret. intros H. inversion H; subst. auto.
Qed.

Lemma process_file_cases fuel idx total p w r w' :
  one_file fuel idx total p w = Some (r, w') ->
  r = Returns tt /\
  ((exists f, active_file_refs w' = (active_file_refs w ++ [f])%list /\
              state_name f = "ACTIVE" /\ deleted w' = deleted w /\
              upload_calls w' = S (upload_calls w)) \/
   (active_file_refs w' = active_file_refs w /\
    (exists n, deleted w' = n :: deleted w) /\
    upload_calls w' = S (upload_calls w) /\
    exists f, upload_reply p (upload_calls w) = Returns f) \/
   (active_file_refs w' = active_file_refs w /\ deleted w' = deleted w /\
    (upload_calls w' = upload_calls w \/
     upload_calls w' = S (upload_calls w) /\
     exists e, upload_reply p (upload_calls w) = Raises e))).
Proof.
  unfold process_file. unfold bind at 1 2.
  unfold set_file_ref at 1; world_simpl.
  unfold yield at 1; world_simpl. unfold try_except.
  unfold bind at 1. unfold path_getsize.
  destruct (getsize p) as [size | e].
  - destruct (negb (Qle_bool _ _)).
    + unfold yield. intros H. inversion H; subst. cbn.
      split; [reflexivity |]. right. right. auto.
    + unfold bind at 1. unfold now at 1; world_simpl. unfold bind at 1.
      unfold upload_file; world_simpl.
      destruct (upload_reply p (upload_calls w)) as [f | e] eqn:U.
      * unfold bind at 1. unfold set_file_ref at 1; world_simpl.
        unfold bind at 1. unfold now at 1; world_simpl.
        unfold bind at 1. unfold yield at 1; world_simpl.
        unfold bind at 1. unfold now at 1; world_simpl.
        unfold bind at 1.
        match goal with
        | |- context [wait fuel ?s ?b ?w0] =>
            destruct (wait fuel s b w0) as [[r1 w1] |] eqn:W;
            [destruct (wait_cases fuel s b w0 f r1 w1 eq_refl W)
               as (R1 & A1 & U1 & C1) | discriminate]
        end.
        subst r1. cbn in A1, U1, C1.
        destruct (after_wait time_time delete_reply (basename p) w1)
          as [[r2 w2] |] eqn:AW; [| discriminate].
        destruct (after_wait_cases _ _ _ _ AW) as (R2 & U2 & C2).
        subst r2. intros H.
        assert (Hw : w2 = w' /\ r = Returns tt)
          by (inversion H; auto).
        destruct Hw as [<- ->]. split; [reflexivity |].
        destruct C1 as [(f' & F & NP & D) | (F & n & D)]; rewrite F in C2.
        -- destruct C2 as [(S2 & A2 & D2) | (S2 & A2 & D2)].
           ++ left. exists f'. rewrite A2, A1, D2, D, U2, U1. auto.
           ++ right. left. rewrite A2, A1, D2, D, U2, U1.
              repeat split; eauto.
        -- destruct C2 as (A2 & D2). right. left.
           rewrite A2, A1, D2, D, U2, U1. repeat split; eauto.
      * unfold bind, yield, get_file_ref, ret. cbn.
        intros H. inversion H; subst. cbn.
        split; [reflexivity |]. right. right. eauto 6.
  - unfold bind, yield, get_file_ref, ret. cbn.
    intros H. inversion H; subst. cbn.
    split; [reflexivity |]. right. right. auto.
Qed.

(** The loop over the files never raises, and it collects only handles in
    state ACTIVE, at most one per file. *)
Theorem upload_loop_collects_only_active files :
  forall fuel idx total w r w',
  all_active (active_file_refs w) ->
  all_files fuel idx total files w = Some (r, w') ->
  r = Returns tt /\
  all_active (active_file_refs w') /\
  (List.length (active_file_refs w')
   <= List.length (active_file_refs w) + List.length files)%nat.
Proof.
  induction files as [| p files IH]; intros fuel idx total w r w' Hw H.
  - cbn in H. inversion H; subst. repeat split; [assumption | lia].
  - cbn [upload_files] in H. unfold bind in H.
    destruct (one_file fuel idx total p w) as [[r1 w1] |] eqn:E;
      [| discriminate].
    destruct (process_file_cases _ _ _ _ _ _ _ E) as (-> & C).
    assert (Hw1 : all_active (active_file_refs w1) /\
                  (List.length (active_file_refs w1)
                   <= S (List.length (active_file_refs w)))%nat).
    { destruct C as [(f & A & S1 & _) | [(A & _) | (A & _)]]; rewrite A.
      - split; [| rewrite length_app; cbn; lia].
        apply Forall_app. split; [assumption |].
        constructor; [exact S1 | constructor].
      - split; [assumption | lia].
      - split; [assumption | lia]. }
    destruct Hw1 as [Hw1 L1].
    destruct (IH _ _ _ _ _ _ Hw1 H) as (R & A & L).
    repeat split; [exact R | exact A |]. cbn [List.length]. lia.
Qed.


Lemma repeat_snoc {A} (x : A) n l :
  (repeat x n ++ x :: l = x :: repeat x n ++ l)%list.
Proof.
  induction n as [| n IH]; cbn; [reflexivity |]. rewrite IH. reflexivity.
Qed.

Lemma wait_polls n : forall fuel (f : nat -> file) start b w,
  file_ref w = Some (f 0) ->
  (forall i, (i < n)%nat -> state_name (f i) = "PROCESSING") ->
  (forall i, (i < n)%nat ->
     get_reply (name (f i)) (get_calls w + i) = Returns (f (S i))) ->
  (forall i, (i < n)%nat ->
     Qle_bool (time_time (clock_reads w + i) - start)
       (inject_Z FILE_PROCESSING_TIMEOUT) = true) ->
  wait (n + fuel) start b w = wait fuel start b (after_polls n (f n) w).
Proof.
  induction n as [| n IH]; intros fuel f start b w Hf Hs Hg Ht.
  - f_equal. destruct w. cbn in Hf. subst. reflexivity.
  - cbn [Nat.add]. rewrite wait_unfold, Hf.
    rewrite (Hs 0) by lia. cbn [String.eqb Ascii.eqb Bool.eqb].
    change (String.eqb "PROCESSING" "PROCESSING") with true. cbv iota.
    unfold bind at 1. unfold now; world_simpl.
    pose proof (Ht 0 ltac:(lia)) as T0. rewrite Nat.add_0_r in T0.
    rewrite T0. cbn [negb].
    unfold bind at 1 2. unfold sleep, try_except.
    unfold bind at 1. unfold get_file at 1. cbn [get_calls].
    pose proof (Hg 0 ltac:(lia)) as G0. rewrite Nat.add_0_r in G0.
    rewrite G0. unfold bind, set_file_ref, ret.
    rewrite (IH fuel (fun i => f (S i)) start b).
    + f_equal. unfold after_polls. cbn.
      f_equal; try lia. apply repeat_snoc.
    + reflexivity.
    + intros i Hi. apply Hs. lia.
    + intros i Hi. cbn [get_calls].
      replace (S (get_calls w) + i)%nat with (get_calls w + S i)%nat
        by lia.
      apply Hg. lia.
    + intros i Hi. cbn [clock_reads].
      replace (S (clock_reads w) + i)%nat with (clock_reads w + S i)%nat
        by lia.
      apply Ht. lia.
Qed.

(** The world in which the loop is entered for a file whose upload
    returned [f]. *)
Lemma process_file_enters fuel idx total p w size f :
  getsize p = Returns size ->
  Qle_bool (inject_Z size / inject_Z (1024 * 1024)) 1990 = true ->
  upload_reply p (upload_calls w) = Returns f ->
  one_file fuel idx total p w
  = try_except
      (bind (wait fuel (time_time (S (S (clock_reads w)))) (basename p))
         (fun _ => after_wait time_time delete_reply (basename p)))
      (fun e =>
         bind (yield (Error_with_file (basename p) e)) (fun _ =>
         bind get_file_ref (fun r =>
           match r with
           | Some f => try_delete delete_reply (name f)
           | None => ret tt
           end)))
      {| file_ref := Some f; active_file_refs := active_file_refs w;
         clock_reads := 3 + clock_reads w;
         upload_calls := S (upload_calls w);
         get_calls := get_calls w; deleted := deleted w;
         sleeps := sleeps w;
         yields := Processing (idx + 1) total (basename p)
                   :: Uploading (idx + 1) total (basename p) :: yields w |}.
Proof.
  intros Hsize Hok Hup.
  unfold process_file. unfold bind at 1 2.
  unfold set_file_ref at 1; world_simpl.
  unfold yield at 1; world_simpl. unfold try_except.
  unfold bind at 1. unfold path_getsize. rewrite Hsize, Hok. cbn [negb].
  unfold bind at 1. unfold now at 1; world_simpl. unfold bind at 1.
  unfold upload_file; world_simpl. rewrite Hup.
  unfold bind at 1. unfold set_file_ref at 1; world_simpl.
  unfold bind at 1. unfold now at 1; world_simpl.
  unfold bind at 1. unfold yield at 1; world_simpl.
  unfold bind at 1. unfold now at 1; world_simpl.
  reflexivity.
Qed.

(** A file that leaves state PROCESSING for state ACTIVE within the
    ceiling is collected: after [n] polls, each preceded by a sleep of
    15 s, its handle is appended and nothing is deleted. *)
Theorem active_file_is_collected n fuel idx total (f : nat -> file)
  p w size :
  getsize p = Returns size ->
  Qle_bool (inject_Z size / inject_Z (1024 * 1024)) 1990 = true ->
  upload_reply p (upload_calls w) = Returns (f 0) ->
  (forall i, (i < n)%nat -> state_name (f i) = "PROCESSING") ->
  (forall i, (i < n)%nat ->
     get_reply (name (f i)) (get_calls w + i) = Returns (f (S i))) ->
  (forall i, (i < n)%nat ->
     Qle_bool (time_time (clock_reads w + 3 + i)
               - time_time (clock_reads w + 2))
       (inject_Z FILE_PROCESSING_TIMEOUT) = true) ->
  state_name (f n) = "ACTIVE" ->
  (n <= fuel)%nat ->
  exists w',
    one_file fuel idx total p w = Some (Returns tt, w') /\
    active_file_refs w' = (active_file_refs w ++ [f n])%list /\
    deleted w' = deleted w /\
    sleeps w' = (repeat FILE_CHECK_INTERVAL n ++ sleeps w)%list.
Proof.
  intros Hsize Hok Hup Hs Hg Ht Hact Hfuel.
  rewrite (process_file_enters fuel idx total p w size (f 0) Hsize Hok Hup).
  unfold try_except, bind at 1.
  replace fuel with (n + (fuel - n))%nat by lia.
  rewrite (wait_polls n (fuel - n) f); cbn [file_ref get_calls clock_reads].
  - rewrite wait_unfold. cbn [after_polls file_ref]. rewrite Hact.
    change (String.eqb "ACTIVE" "PROCESSING") with false. cbv iota.
    unfold after_wait, bind at 1, get_file_ref.
    cbn [after_polls file_ref].
    unfold bind, now. rewrite Hact, String.eqb_refl.
    unfold append_active. cbn.
    eexists. split; [reflexivity |]. cbn. auto.
  - reflexivity.
  - exact Hs.
  - exact Hg.
  - intros i Hi.
    replace (3 + clock_reads w + i)%nat with (clock_reads w + 3 + i)%nat
      by lia.
    replace (S (S (clock_reads w))) with (clock_reads w + 2)%nat by lia.
    apply Ht. exact Hi.
Qed.

(** A file that is still in state PROCESSING when the clock has passed the
    ceiling of 300 s is dropped: the status line of the timeout is
    yielded, the deletion of its handle is attempted, whatever that
    deletion answers, and nothing is collected. *)
Theorem stuck_file_is_dropped n fuel idx total (f : nat -> file) p w size :
  getsize p = Returns size ->
  Qle_bool (inject_Z size / inject_Z (1024 * 1024)) 1990 = true ->
  upload_reply p (upload_calls w) = Returns (f 0) ->
  (forall i, (i <= n)%nat -> state_name (f i) = "PROCESSING") ->
  (forall i, (i < n)%nat ->
     get_reply (name (f i)) (get_calls w + i) = Returns (f (S i))) ->
  (forall i, (i < n)%nat ->
     Qle_bool (time_time (clock_reads w + 3 + i)
               - time_time (clock_reads w + 2))
       (inject_Z FILE_PROCESSING_TIMEOUT) = true) ->
  Qle_bool (time_time (clock_reads w + 3 + n)
            - time_time (clock_reads w + 2))
    (inject_Z FILE_PROCESSING_TIMEOUT) = false ->
  (n < fuel)%nat ->
  exists w',
    one_file fuel idx total p w = Some (Returns tt, w') /\
    active_file_refs w' = active_file_refs w /\
    deleted w' = name (f n) :: deleted w /\
    yields w' = Timeout (basename p)
                :: Processing (idx + 1) total (basename p)
                :: Uploading (idx + 1) total (basename p) :: yields w.
Proof.
  intros Hsize Hok Hup Hs Hg Ht Hout Hfuel.
  rewrite (process_file_enters fuel idx total p w size (f 0) Hsize Hok Hup).
  unfold try_except, bind at 1.
  replace fuel with (n + S (fuel - S n))%nat by lia.
  rewrite (wait_polls n (S (fuel - S n)) f);
    cbn [file_ref get_calls clock_reads].
  - rewrite wait_unfold. cbn [after_polls file_ref].
    rewrite (Hs n) by lia.
    change (String.eqb "PROCESSING" "PROCESSING") with true. cbv iota.
    unfold bind at 1. unfold now. cbn [after_polls clock_reads].
    replace (n + (3 + clock_reads w))%nat with (clock_reads w + 3 + n)%nat
      by lia.
    replace (S (S (clock_reads w))) with (clock_reads w + 2)%nat by lia.
    rewrite Hout. cbn [negb].
    unfold bind, yield. rewrite try_delete_run.
    unfold set_file_ref. cbn.
    unfold after_wait, bind, get_file_ref, ret. cbn.
    eexists. split; [reflexivity |]. cbn. auto.
  - reflexivity.
  - intros i Hi. apply Hs. lia.
  - exact Hg.
  - intros i Hi.
    replace (3 + clock_reads w + i)%nat with (clock_reads w + 3 + i)%nat
      by lia.
    replace (S (S (clock_reads w))) with (clock_reads w + 2)%nat by lia.
    apply Ht. exact Hi.
Qed.

End GradioUploadFacts.

Lemma upload_loop_collects_only_active_witness :
  exists r w',
    GradioUpload.upload_files GradioUpload.demo_clock
      GradioUpload.demo_getsize GradioUpload.demo_upload
      GradioUpload.demo_get GradioUpload.demo_delete
      GradioUpload.demo_basename 3 0 2 ["a.mp4"; "b.mov"]
      GradioUpload.initial_world = Some (r, w') /\
    r = GradioUpload.Returns tt /\
    GradioUpload.all_active (GradioUpload.active_file_refs w') /\
    (List.length (GradioUpload.active_file_refs w')
     <= List.length
          (GradioUpload.active_file_refs GradioUpload.initial_world)
        + List.length ["a.mp4"; "b.mov"])%nat.
Proof.
  eexists _, _. split; [vm_compute; reflexivity |].
  eapply (upload_loop_collects_only_active GradioUpload.demo_clock
            GradioUpload.demo_getsize GradioUpload.demo_upload
            GradioUpload.demo_get GradioUpload.demo_delete
            GradioUpload.demo_basename ["a.mp4"; "b.mov"] 3 0 2
            GradioUpload.initial_world).
  - constructor.
  - vm_compute. reflexivity.
Defined.


Lemma active_file_is_collected_witness :
  exists w',
    GradioUpload.process_file GradioUpload.demo_clock
      GradioUpload.demo_getsize GradioUpload.demo_upload
      GradioUpload.demo_get GradioUpload.demo_delete
      GradioUpload.demo_basename 3 0 1 "a.mp4" GradioUpload.initial_world
    = Some (GradioUpload.Returns tt, w') /\
    GradioUpload.active_file_refs w'
    = (GradioUpload.active_file_refs GradioUpload.initial_world
       ++ [GradioUpload.demo_file 3])%list /\
    GradioUpload.deleted w'
    = GradioUpload.deleted GradioUpload.initial_world /\
    GradioUpload.sleeps w'
    = (repeat GradioUpload.FILE_CHECK_INTERVAL 3
       ++ GradioUpload.sleeps GradioUpload.initial_world)%list.
Proof.
  apply (active_file_is_collected GradioUpload.demo_clock
           GradioUpload.demo_getsize GradioUpload.demo_upload
           GradioUpload.demo_get GradioUpload.demo_delete
           GradioUpload.demo_basename 3 3 0 1 GradioUpload.demo_file
           "a.mp4" GradioUpload.initial_world 5000000%Z).
  - reflexivity.
  - reflexivity.
  - reflexivity.
  - intros i Hi. destruct i as [| [| [| i]]]; try reflexivity. lia.
  - intros i Hi. reflexivity.
  - intros i Hi. destruct i as [| [| [| i]]]; try reflexivity. lia.
  - reflexivity.
  - lia.
Defined.

Lemma stuck_file_is_dropped_witness :
  exists w',
    GradioUpload.process_file GradioUpload.jump_clock
      GradioUpload.demo_getsize
      (fun _ _ => GradioUpload.Returns GradioUpload.stuck_file)
      (fun _ _ => GradioUpload.Returns GradioUpload.stuck_file)
      GradioUpload.demo_delete GradioUpload.demo_basename 2 0 1 "a.mp4"
      GradioUpload.initial_world = Some (GradioUpload.Returns tt, w') /\
    GradioUpload.active_file_refs w'
    = GradioUpload.active_file_refs GradioUpload.initial_world /\
    GradioUpload.deleted w'
    = GradioUpload.name GradioUpload.stuck_file
      :: GradioUpload.deleted GradioUpload.initial_world /\
    GradioUpload.yields w'
    = GradioUpload.Timeout "a.mp4"
      :: GradioUpload.Processing (0 + 1) 1 "a.mp4"
      :: GradioUpload.Uploading (0 + 1) 1 "a.mp4"
      :: GradioUpload.yields GradioUpload.initial_world.
Proof.
  apply (stuck_file_is_dropped GradioUpload.jump_clock
           GradioUpload.demo_getsize
           (fun _ _ => GradioUpload.Returns GradioUpload.stuck_file)
           (fun _ _ => GradioUpload.Returns GradioUpload.stuck_file)
           GradioUpload.demo_delete GradioUpload.demo_basename 1 2 0 1
           (fun _ => GradioUpload.stuck_file) "a.mp4"
           GradioUpload.initial_world 5000000%Z).
  - reflexivity.
  - reflexivity.
  - reflexivity.
  - intros i Hi. reflexivity.
  - intros i Hi. reflexivity.
  - intros i Hi. destruct i as [| i]; [reflexivity | lia].
  - reflexivity.
  - lia.
Defined.

(* ================================================================== *)
(** ** gradiocoach.py: Drive links *)

Section DriveUrlFacts.
Import PySlice DriveUrl.

Lemma take_drop k : forall s, take k s ++ drop k s = s.
Proof.
  induction k as [| k IH]; intros [| c s]; cbn; try reflexivity.
  rewrite IH. reflexivity.
Qed.

Lemma length_take k : forall s, length (take k s) = Nat.min k (length s).
Proof.
  induction k as [| k IH]; intros [| c s]; cbn; try reflexivity.
  rewrite IH. reflexivity.
Qed.

Lemma all_chars_take f k : forall s,
  all_chars f s = true -> all_chars f (take k s) = true.
Proof.
  induction k as [| k IH]; intros [| c s]; cbn; try reflexivity.
  intros H. apply andb_true_iff in H. destruct H as [H1 H2].
  rewrite H1. apply IH. exact H2.
Qed.

Lemma all_chars_drop f k : forall s,
  all_chars f s = true -> all_chars f (drop k s) = true.
Proof.
  induction k as [| k IH]; intros [| c s]; cbn; try reflexivity; auto.
  intros H. apply andb_true_iff in H. destruct H as [H1 H2].
  apply IH. exact H2.
Qed.

Lemma all_chars_app f a b :
  all_chars f (a ++ b) = all_chars f a && all_chars f b.
Proof.
  induction a as [| c a IH]; cbn; [reflexivity |].
  rewrite IH, andb_assoc. reflexivity.
Qed.

Lemma span_id_take s : all_chars is_id_char (take (span_id s) s) = true.
Proof.
  induction s as [| c s IH]; cbn; [reflexivity |].
  destruct (is_id_char c) eqn:E; cbn; [| reflexivity].
  rewrite E. exact IH.
Qed.

Lemma span_id_drop s : span_id (drop (span_id s) s) = 0.
Proof.
  induction s as [| c s IH]; cbn; [reflexivity |].
  destruct (is_id_char c) eqn:E; cbn; [exact IH |].
  rewrite E. reflexivity.
Qed.

Lemma span_id_le s : (span_id s <= length s)%nat.
Proof.
  induction s as [| c s IH]; cbn; [lia |].
  destruct (is_id_char c); cbn; lia.
Qed.

Lemma prefix_split p : forall s,
  prefix p s = true -> s = p ++ drop (length p) s.
Proof.
  induction p as [| a p IH]; intros [| c s] H; cbn in *;
    try reflexivity; try discriminate.
  destruct (ascii_dec a c) as [-> |]; [| discriminate].
  rewrite <- (IH s H). reflexivity.
Qed.

Lemma match_here_some lit s file_id :
  match_here lit s = Some file_id ->
  (25 <= length file_id)%nat /\
  all_chars is_id_char file_id = true /\
  exists post, s = lit ++ file_id ++ post /\ span_id post = 0.
Proof.
  unfold match_here.
  destruct (prefix lit s) eqn:P; [| discriminate].
  destruct (Nat.leb 25 (span_id (drop (length lit) s))) eqn:L;
    [| discriminate].
  intros H. inversion H. subst file_id. clear H.
  apply Nat.leb_le in L.
  set (r := drop (length lit) s) in *.
  split; [| split].
  - rewrite length_take. pose proof (span_id_le r). lia.
  - apply span_id_take.
  - exists (drop (span_id r) r). split; [| apply span_id_drop].
    rewrite take_drop. apply prefix_split. exact P.
Qed.

Lemma search_id_some lit : forall s file_id,
  search_id lit s = Some file_id ->
  exists pre t, s = pre ++ t /\ match_here lit t = Some file_id.
Proof.
  induction s as [| c s IH]; intros file_id H; cbn [search_id] in H.
  - destruct (match_here lit "") eqn:M; [| discriminate].
    exists "", "". split; [reflexivity | congruence].
  - destruct (match_here lit (String c s)) eqn:M.
    + exists "", (String c s). split; [reflexivity | congruence].
    + destruct (IH _ H) as (pre & t & E & Ht).
      exists (String c pre), t. split; [cbn; congruence | exact Ht].
Qed.

Lemma first_match_some ps : forall url file_id,
  first_match ps url = Some file_id ->
  exists pattern, In pattern ps /\ search_id pattern url = Some file_id.
Proof.
  induction ps as [| p ps IH]; intros url file_id H; cbn in H;
    [discriminate |].
  destruct (search_id p url) eqn:S1.
  - exists p. split; [left; reflexivity | congruence].
  - destruct (IH _ _ H) as (q & Hq & Sq). exists q. split; [right |]; auto.
Qed.

(** What is taken for a Drive file ID is well formed: at least 25
    characters, all of them letters, digits, [_] or [-], and it stands in
    the URL right after the head of one of the patterns and runs as far as
    such characters go. *)
Theorem extracted_drive_id_is_well_formed url file_id :
  extract_drive_file_id url = Some file_id ->
  (25 <= length file_id)%nat /\
  all_chars is_id_char file_id = true /\
  exists pre pattern post,
    In pattern patterns /\
    url = pre ++ pattern ++ file_id ++ post /\ span_id post = 0.
Proof.
  unfold extract_drive_file_id. intros H.
  destruct (first_match_some _ _ _ H) as (p & Hp & S1).
  destruct (search_id_some _ _ _ S1) as (pre & t & E & M).
  destruct (match_here_some _ _ _ M) as (L & A & post & Et & Sp).
  split; [exact L |]. split; [exact A |].
  exists pre, p, post. split; [exact Hp |].
  split; [congruence | exact Sp].
Qed.

Lemma search_id_none_tail lit c s :
  search_id lit (String c s) = None -> search_id lit s = None.
Proof.
  cbn [search_id]. destruct (match_here lit (String c s)); [discriminate |].
  auto.
Qed.

Lemma search_id_none_drop lit k : forall s,
  search_id lit s = None -> search_id lit (drop k s) = None.
Proof.
  induction k as [| k IH]; intros [| c s] H; cbn [drop]; auto.
  apply IH. apply (search_id_none_tail lit c). exact H.
Qed.

Lemma search_id_none_here lit s :
  search_id lit s = None -> match_here lit s = None.
Proof.
  destruct s; cbn [search_id]; destruct (match_here lit _);
    [discriminate | reflexivity | discriminate | reflexivity].
Qed.

Lemma match_here_uc s :
  match_here "id=" (drop 3 s) = None -> match_here "uc?id=" s = None.
Proof.
  unfold match_here.
  destruct (prefix "uc?id=" s) eqn:P; [| reflexivity].
  pose proof (prefix_split _ _ P) as E.
  cbn [length] in *.
  assert (D : drop 3 s = "id=" ++ drop 6 s).
  { rewrite E at 1. reflexivity. }
  rewrite D. clear D E P. generalize (drop 6 s). intros r.
  cbn [append prefix length drop].
  destruct (ascii_dec "i" "i"); [| congruence].
  destruct (ascii_dec "d" "d"); [| congruence].
  destruct (ascii_dec "=" "="); [| congruence].
  destruct r; auto.
Qed.

Lemma search_id_uc : forall s,
  search_id "id=" s = None -> search_id "uc?id=" s = None.
Proof.
  induction s as [| c s IH]; intros H.
  - reflexivity.
  - cbn [search_id].
    rewrite (match_here_uc (String c s)).
    + apply IH. apply (search_id_none_tail _ c). exact H.
    + apply search_id_none_here.
      apply (search_id_none_drop "id=" 3). exact H.
Qed.

(** The fourth pattern never decides: every URL that it matches is matched
    by the second one, which is tried before it, so the result is the same
    without it. *)
Theorem fourth_drive_pattern_is_dead url :
  extract_drive_file_id url
  = first_match ["/file/d/"; "id="; "/folders/"] url.
Proof.
  unfold extract_drive_file_id, patterns. cbn [first_match].
  destruct (search_id "/file/d/" url); [reflexivity |].
  destruct (search_id "id=" url) eqn:S2; [reflexivity |].
  destruct (search_id "/folders/" url); [reflexivity |].
  rewrite (search_id_uc url S2). reflexivity.
Qed.

End DriveUrlFacts.

Lemma extracted_drive_id_is_well_formed_witness :
  let url :=
    "https://drive.google.com/file/d/1AbCdEfGhIjKlMnOpQrStUvWxYz_0-9/view" in
  let file_id := "1AbCdEfGhIjKlMnOpQrStUvWxYz_0-9" in
  DriveUrl.extract_drive_file_id url = Some file_id /\
  (25 <= length file_id)%nat /\
  PySlice.all_chars DriveUrl.is_id_char file_id = true /\
  exists pre pattern post,
    In pattern DriveUrl.patterns /\
    url = pre ++ pattern ++ file_id ++ post /\ DriveUrl.span_id post = 0.
Proof.
  intros url file_id. split; [vm_compute; reflexivity |].
  apply (extracted_drive_id_is_well_formed url file_id).
  vm_compute. reflexivity.
Defined.

(* ================================================================== *)
(** ** gradiocoach.py: the names of cached files *)

Section CacheNameFacts.
Import PySlice CacheName.

Lemma keep_safe_all s : all_chars safe_char (keep_safe s) = true.
Proof.
  induction s as [| c s IH]; cbn; [reflexivity |].
  destruct (safe_char c) eqn:E; [cbn; rewrite E |]; exact IH.
Qed.

Lemma splitext_app p : fst (splitext p) ++ snd (splitext p) = p.
Proof.
  unfold splitext.
  destruct (rfind "/" p <? rfind "." p)%Z; [| apply app_nil_r_s].
  destruct (all_chars _ _); [apply app_nil_r_s |].
  cbn [fst snd]. apply take_drop.
Qed.

Lemma splitext_all f p :
  all_chars f p = true ->
  all_chars f (fst (splitext p)) = true /\
  all_chars f (snd (splitext p)) = true.
Proof.
  intros H. rewrite <- (splitext_app p), all_chars_app in H.
  apply andb_true_iff in H. exact H.
Qed.

Lemma slice_to_all f k s :
  all_chars f s = true -> all_chars f (slice_to k s) = true.
Proof.
  intros H. unfold slice_to.
  destruct (0 <=? k)%Z; apply all_chars_take; exact H.
Qed.

(** The name under which an upload is cached holds only word characters,
    dots and hyphens: no path separator, no whitespace, whatever the
    original name was. *)
Theorem cached_name_is_safe original_filename :
  all_chars safe_char (safe_filename_base original_filename) = true /\
  all_chars (fun c => negb (Ascii.eqb c "/") && negb (Py.isspace c))
    (safe_filename_base original_filename) = true.
Proof.
  assert (A : all_chars safe_char (safe_filename_base original_filename)
              = true).
  { unfold safe_filename_base.
    pose proof (keep_safe_all (sub_ws false original_filename)) as K.
    destruct (max_len <? _)%Z; [| exact K].
    destruct (splitext_all _ _ K) as [K1 K2].
    destruct (splitext _) as [name_part ext]. cbn [fst snd] in *.
    rewrite all_chars_app, K2, andb_true_r.
    apply slice_to_all. exact K1. }
  split; [exact A |].
  revert A. generalize (safe_filename_base original_filename).
  induction s as [| c s IH]; cbn; [reflexivity |].
  intros H. apply andb_true_iff in H. destruct H as [H1 H2].
  rewrite (IH H2), andb_true_r.
  clear - H1. revert H1.
  destruct c as [[] [] [] [] [] [] [] []]; vm_compute; congruence.
Qed.

(** The cut to 100 characters works exactly when the extension has at most
    100 characters: a cleaned name longer than 100 comes out at 100 then,
    and with a longer extension the negative slice bound lets the result
    stay longer than 100. *)
Theorem cached_name_length original_filename :
  (100 < length (keep_safe (sub_ws false original_filename)))%nat ->
  ((length (kept_ext original_filename) <= 100)%nat ->
   length (safe_filename_base original_filename) = 100%nat) /\
  ((100 < length (kept_ext original_filename))%nat ->
   (100 < length (safe_filename_base original_filename))%nat).
Proof.
  unfold safe_filename_base, kept_ext, max_len.
  set (s := keep_safe (sub_ws false original_filename)).
  intros L.
  assert (B : (100 <? Z.of_nat (length s))%Z = true)
    by (apply Z.ltb_lt; lia).
  rewrite B.
  pose proof (splitext_app s) as E.
  apply (f_equal length) in E. rewrite length_app_s in E.
  destruct (splitext s) as [name_part ext]. cbn [fst snd] in *.
  rewrite length_app_s. unfold slice_to. split; intros H.
  - assert (C : (0 <=? 100 - Z.of_nat (length ext))%Z = true)
      by (apply Z.leb_le; lia).
    rewrite C, length_take. lia.
  - assert (C : (0 <=? 100 - Z.of_nat (length ext))%Z = false)
      by (apply Z.leb_gt; lia).
    rewrite C, length_take. lia.
Qed.

End CacheNameFacts.

Lemma cached_name_length_witness :
  let original_filename :=
    "bullpen session 2024-05-01 camera 2 side view slow motion pitcher "
    ++ "mechanics long toss follow through release point.recording.mp4" in
  ((length (CacheName.kept_ext original_filename) <= 100)%nat ->
   length (CacheName.safe_filename_base original_filename) = 100%nat) /\
  ((100 < length (CacheName.kept_ext original_filename))%nat ->
   (100 < length (CacheName.safe_filename_base original_filename))%nat).
Proof.
  intros original_filename.
  apply (cached_name_length original_filename).
  vm_compute. lia.
Defined.
